(** * croncert / goskyr scraper: a shallow embedding and its properties

    The development follows the Go sources:
    - package [scraper] (configuration structs, [GetItems], [filterItem],
      [extractField], [getDate], [getURLString], [getTextString],
      [extractStringRegex]);
    - package [output], file [api.go] ([APIWriter.Write], [postBatch]).

    Go values are modelled as follows.  An [int] is a [Z] whose
    arithmetic wraps at 64 bits; a [string] is a byte string; a
    [(value, error)] result is a pair whose second component is
    [None] for [nil]; a run-time panic and [log.Fatal] are the two
    abnormal outcomes of the [outcome] monad; a [map[string]interface{}]
    is a [gmap string any]; a pointer argument that the callee writes
    through is returned updated next to the result. *)

From Stdlib Require Import ZArith Lia List Bool Ascii String.
From stdpp Require Import base gmap strings list.

Local Open Scope Z_scope.

(** ** Go run-time conventions *)

(** [error]: [None] is [nil], [Some msg] an error with that message. *)
Definition error : Type := option string.

(** Two's complement wrap-around of a 64-bit [int]. *)
Definition wrap (z : Z) : Z := (z + 2 ^ 63) mod 2 ^ 64 - 2 ^ 63.

Definition maxInt : Z := 2 ^ 63 - 1.

(** [len] of a slice and of a string, as an [int]. *)
Definition len {A : Type} (l : list A) : Z := Z.of_nat (length l).
Definition strlen (s : string) : Z := Z.of_nat (String.length s).

(** How a call ends: it returns, it panics (a run-time error that
    unwinds the whole program), or it ends the process through
    [log.Fatal]. *)
Inductive outcome (A : Type) : Type :=
| Returns (a : A)
| Panics (msg : string)
| Exits (msg : string).
Arguments Returns {A} a.
Arguments Panics {A} msg.
Arguments Exits {A} msg.

#[export] Instance outcome_ret : MRet outcome := @Returns.
#[export] Instance outcome_bind : MBind outcome :=
  fun A B (k : A -> outcome B) (m : outcome A) =>
    match m with
    | Returns a => k a
    | Panics msg => Panics msg
    | Exits msg => Exits msg
    end.

(** [l[i]] on a slice: out of range is a run-time panic. *)
Definition index_slice {A : Type} (l : list A) (i : Z) : outcome A :=
  if (0 <=? i) && (i <? len l) then
    match l !! Z.to_nat i with
    | Some a => Returns a
    | None => Panics "runtime error: index out of range"
    end
  else Panics "runtime error: index out of range".

(** ** The parts of package [strings] and [strconv] the scraper calls *)

Definition HasPrefix (s prefix : string) : bool := String.prefix prefix s.

(** [strings.TrimSpace] cuts the code points with the Unicode property
    White_Space from both ends of a string, read as UTF-8.  In ASCII
    these are the tab, the line feed, the vertical tab, the form feed,
    the carriage return and the blank. *)
Definition isSpace (c : ascii) : bool :=
  let n := nat_of_ascii c in
  (Nat.eqb n 32 || (Nat.leb 9 n && Nat.leb n 13))%bool.

(** Above ASCII they are U+0085 and U+00A0, of two bytes in UTF-8, *)
Definition isSpace2 (a b : ascii) : bool :=
  (Nat.eqb (nat_of_ascii a) 194
   && (Nat.eqb (nat_of_ascii b) 133 || Nat.eqb (nat_of_ascii b) 160))%bool.

(** and U+1680, U+2000 to U+200A, U+2028, U+2029, U+202F, U+205F and
    U+3000, of three bytes. *)
Definition isSpace3 (a b c : ascii) : bool :=
  let '(a, b, c) := (nat_of_ascii a, nat_of_ascii b, nat_of_ascii c) in
  (Nat.eqb a 225 && Nat.eqb b 154 && Nat.eqb c 128
   || Nat.eqb a 226 && Nat.eqb b 128
      && (Nat.leb 128 c && Nat.leb c 138 || Nat.eqb c 168 || Nat.eqb c 169 || Nat.eqb c 175)
   || Nat.eqb a 226 && Nat.eqb b 129 && Nat.eqb c 159
   || Nat.eqb a 227 && Nat.eqb b 128 && Nat.eqb c 128)%bool.

(** The string without the white space code point at its head, if it
    has one there.  A byte that starts no such code point, as every
    byte of an invalid encoding, stays.  With [backwards] the string
    is read from its end, last byte first. *)
Definition dropSpace (backwards : bool) (s : string) : option string :=
  match s with
  | String a s1 =>
      if isSpace a then Some s1
      else
        match s1 with
        | String b s2 =>
            if (if backwards then isSpace2 b a else isSpace2 a b) then Some s2
            else
              match s2 with
              | String c s3 =>
                  if (if backwards then isSpace3 c b a else isSpace3 a b c) then Some s3
                  else None
              | EmptyString => None
              end
        | EmptyString => None
        end
  | EmptyString => None
  end.

(** Code points are dropped as long as there is white space at the
    head; [fuel] bounds their number. *)
Fixpoint trimHead (backwards : bool) (fuel : nat) (s : string) : string :=
  match fuel with
  | O => s
  | S fuel' =>
      match dropSpace backwards s with
      | Some rest => trimHead backwards fuel' rest
      | None => s
      end
  end.

Fixpoint reverseOnto (s acc : string) : string :=
  match s with
  | EmptyString => acc
  | String c s' => reverseOnto s' (String c acc)
  end.

Definition reverse (s : string) : string := reverseOnto s EmptyString.

Definition TrimLeftSpace (s : string) : string := trimHead false (String.length s) s.

Definition TrimRightSpace (s : string) : string :=
  reverse (trimHead true (String.length s) (reverse s)).

Definition TrimSpace (s : string) : string := TrimRightSpace (TrimLeftSpace s).

Fixpoint dropBytes (n : nat) (s : string) : string :=
  match n, s with
  | S n', String _ s' => dropBytes n' s'
  | _, _ => s
  end.

Fixpoint takeBytes (n : nat) (s : string) : string :=
  match n, s with
  | S n', String c s' => String c (takeBytes n' s')
  | _, _ => EmptyString
  end.

(** [strings.Replace(s, old, new, 1)]: the first occurrence only. *)
Fixpoint Replace1 (s old new : string) : string :=
  if String.prefix old s then new +:+ dropBytes (String.length old) s
  else match s with
       | EmptyString => EmptyString
       | String c s' => String c (Replace1 s' old new)
       end.

Definition digit (d : Z) : ascii := ascii_of_nat (48 + Z.to_nat d).

Fixpoint utoa (fuel : nat) (n : Z) (acc : string) : string :=
  match fuel with
  | O => acc
  | S fuel' =>
      let acc' := String (digit (n mod 10)) acc in
      if n <? 10 then acc' else utoa fuel' (n / 10) acc'
  end.

(** [strconv.Itoa]; twenty digits are enough for a 64-bit [int]. *)
Definition Itoa (n : Z) : string :=
  if n <? 0 then "-" +:+ utoa 20 (- n) "" else utoa 20 n "".

(** ** Configuration structs of package [scraper] *)

Record RegexConfig := {
  Exp : string;
  Index : Z
}.

Record ElementLocation := {
  Selector : string;
  NodeIndex : Z;
  ChildIndex : Z;
  RegexExtract : RegexConfig;
  Attr : string;
  MaxLength : Z;
  EntireSubtree : bool
}.

Record CoveredDateParts := {
  Day : bool;
  Month : bool;
  Year : bool;
  Time : bool
}.

Record DateComponent := {
  Covers : CoveredDateParts;
  DateComponent_ElementLocation : ElementLocation;
  Layout : list string
}.

Record Field := {
  Field_Name : string;
  Value : string;
  Field_Type : string;
  Field_ElementLocation : ElementLocation;
  OnSubpage : string;
  CanBeEmpty : bool;
  Components : list DateComponent;
  DateLocation : string;
  DateLanguage : string;
  Hide : bool
}.

Record Filter := {
  Filter_Field : string;
  Regex : string;
  Match : bool
}.

Record Paginator := {
  Location : ElementLocation;
  MaxPages : Z
}.

Record Scraper := {
  Scraper_Name : string;
  URL : string;
  Item : string;
  ExcludeWithSelector : list string;
  Fields : list Field;
  Filters : list Filter;
  Scraper_Paginator : Paginator;
  RenderJs : bool
}.

Record GlobalConfig := {
  UserAgent : string
}.

(** ** Values the scraper handles but does not define *)

(** [html.Node]: the tree the HTML parser builds.  [FirstChild] and
    [NextSibling] are the head and the tail of [Children]. *)
Inductive NodeType := ErrorNode | TextNode | DocumentNode | ElementNode | CommentNode | DoctypeNode.

Record Attribute := {
  Key : string;
  Val : string
}.

#[warnings="-register-all"]
Inductive Node := mkNode (ty : NodeType) (data : string) (attr : list Attribute) (children : list Node).

Definition Node_Type (n : Node) : NodeType := let 'mkNode ty _ _ _ := n in ty.
Definition Node_Data (n : Node) : string := let 'mkNode _ data _ _ := n in data.
Definition Node_Attr (n : Node) : list Attribute := let 'mkNode _ _ attr _ := n in attr.
Definition Node_Children (n : Node) : list Node := let 'mkNode _ _ _ children := n in children.

Definition isTextNode (n : Node) : bool :=
  match Node_Type n with TextNode => true | _ => false end.

(** [goquery.Selection]: the matched nodes, in document order. *)
Definition Selection : Type := list Node.

(** [url.URL], the three components the scraper reads. *)
Record url_URL := {
  Scheme : string;
  Host : string;
  Path : string
}.

(** [time.Time] as the civil date and clock it shows in its location;
    the location is known by its name. *)
Record time_Location := {
  loc_name : string
}.

Record time_Time := {
  t_year : Z;
  t_month : Z;
  t_day : Z;
  t_hour : Z;
  t_minute : Z;
  t_second : Z;
  t_location : time_Location
}.

(** The zero [time.Time] of [var t time.Time]. *)
Definition zeroTime : time_Time :=
  {| t_year := 1; t_month := 1; t_day := 1; t_hour := 0; t_minute := 0; t_second := 0;
     t_location := {| loc_name := "UTC" |} |}.

(** [interface{}] as stored in an item: a string (text and url
    fields, static values) or a timestamp (date fields). *)
Inductive any :=
| AString (s : string)
| ATime (t : time_Time).

(** An item: [map[string]interface{}]. *)
Abbreviation ItemMap := (gmap string any).

(** ** External collaborators

    The packages the scraper imports and the two capabilities it is
    handed (the fetcher and the HTML query engine) are taken as an
    interface.  [Fetch] sees the URLs requested so far, so that a site
    may answer differently over time. *)
Class External := {
  (** [fetch.Fetcher.Fetch], for the static ([false]) or the
      JavaScript-rendering ([true]) fetcher and a user agent *)
  Fetch : bool -> string -> list string -> string -> string * error;
  (** [goquery.NewDocumentFromReader], [Selection.Find], [Selection.Is] *)
  NewDocumentFromReader : string -> Node * error;
  Find : Selection -> string -> Selection;
  Is : Selection -> string -> bool;
  (** package [regexp]: [Compile], [FindAllString], [MatchString] *)
  Regexp : Type;
  regexp_Compile : string -> Regexp + string;
  FindAllString : Regexp -> string -> Z -> list string;
  MatchString : Regexp -> string -> bool;
  (** package [time] and [monday] *)
  LoadLocation : string -> time_Location + string;
  Now_Year : Z;
  ParseInLocation : string -> string -> time_Location -> string -> time_Time * error;
  Time_String : time_Time -> string;
  (** [url.Parse]; [None] is the [nil] URL returned with an error *)
  url_Parse : string -> option url_URL;
  (** [utils.ShortenString] *)
  ShortenString : string -> Z -> string
}.

(** The calls of [fetcher.Fetch], by call site. *)
Inductive FetchCall :=
| FetchPage (url : string)
| FetchSubpage (url : string).

Definition call_url (c : FetchCall) : string :=
  match c with FetchPage u | FetchSubpage u => u end.

Definition isFetchPage (c : FetchCall) : bool :=
  match c with FetchPage _ => true | FetchSubpage _ => false end.

(** The fetches made so far, oldest first. *)
Abbreviation World := (list FetchCall).

(** ** goquery accessors defined over the node model *)

(** [Selection.Get]: a negative index counts from the end. *)
Definition Selection_Get (s : Selection) (index : Z) : outcome Node :=
  let index := if index <? 0 then index + len s else index in
  index_slice s index.

Fixpoint getAttributeValue (attrName : string) (attr : list Attribute) : option string :=
  match attr with
  | [] => None
  | a :: rest => if String.eqb (Key a) attrName then Some (Val a) else getAttributeValue attrName rest
  end.

(** [Selection.AttrOr]: the attribute of the first node. *)
Definition AttrOr (s : Selection) (attrName defaultValue : string) : string :=
  match s with
  | [] => defaultValue
  | n :: _ => default defaultValue (getAttributeValue attrName (Node_Attr n))
  end.

(** The closure [f] of [getTextString]: the text nodes of a subtree,
    in document order. *)
Fixpoint subtreeText (n : Node) : string :=
  match n with
  | mkNode ty data _ children =>
      (match ty with TextNode => data | _ => EmptyString end)
      +:+ (fix siblings (l : list Node) : string :=
             match l with
             | [] => EmptyString
             | c :: l' => subtreeText c +:+ siblings l'
             end) children
  end.

Definition set_Attr (a : string) (e : ElementLocation) : ElementLocation :=
  {| Selector := Selector e; NodeIndex := NodeIndex e; ChildIndex := ChildIndex e;
     RegexExtract := RegexExtract e; Attr := a; MaxLength := MaxLength e;
     EntireSubtree := EntireSubtree e |}.

Definition set_Field_ElementLocation (e : ElementLocation) (f : Field) : Field :=
  {| Field_Name := Field_Name f; Value := Value f; Field_Type := Field_Type f;
     Field_ElementLocation := e; OnSubpage := OnSubpage f; CanBeEmpty := CanBeEmpty f;
     Components := Components f; DateLocation := DateLocation f;
     DateLanguage := DateLanguage f; Hide := Hide f |}.

Definition set_Paginator_Location (e : ElementLocation) (c : Scraper) : Scraper :=
  {| Scraper_Name := Scraper_Name c; URL := URL c; Item := Item c;
     ExcludeWithSelector := ExcludeWithSelector c; Fields := Fields c; Filters := Filters c;
     Scraper_Paginator := {| Location := e; MaxPages := MaxPages (Scraper_Paginator c) |};
     RenderJs := RenderJs c |}.

(** [fmt.Sprint] of an item value; a missing key reads as the nil
    interface. *)
Definition Sprint `{Ext : External} (v : option any) : string :=
  match v with
  | Some (AString s) => s
  | Some (ATime t) => Time_String t
  | None => "<nil>"
  end.

(** ** Package [scraper] *)

Record datePart := {
  stringPart : string;
  layoutParts : list string
}.

Section Scraper.
Context `{Ext : External}.

(** *** extractStringRegex *)

Definition extractStringRegex (rc : RegexConfig) (s : string) : outcome (string * error) :=
  if String.eqb (Exp rc) "" then Returns (s, None)
  else
    match regexp_Compile (Exp rc) with
    | inr err => Returns (EmptyString, Some err)
    | inl regex =>
        let matchingStrings := FindAllString regex s (-1) in
        if len matchingStrings =? 0 then
          Returns (EmptyString, Some ("no matching strings found for regex: " +:+ Exp rc))
        else if Index rc =? -1 then
          extractedString ← index_slice matchingStrings (wrap (len matchingStrings - 1));
          Returns (extractedString, None)
        else if Index rc >=? len matchingStrings then
          Returns (EmptyString,
                   Some ("regex index out of bounds. regex '" +:+ Exp rc +:+ "' gave only "
                         +:+ Itoa (len matchingStrings) +:+ " matches"))
        else
          extractedString ← index_slice matchingStrings (Index rc);
          Returns (extractedString, None)
    end.

(** *** getTextString *)

(** The loop over the direct children of the selected node.  [inl]
    is a [return] from inside the loop, [inr] the value of
    [fieldString] when the loop runs to its end. *)
Fixpoint scanChildren (t : ElementLocation) (children : list Node) (currentChildIndex : Z)
    (fieldString : string) : outcome ((string * error) + string) :=
  match children with
  | [] => Returns (inr fieldString)
  | fieldNode :: rest =>
      if ((currentChildIndex =? ChildIndex t) || (ChildIndex t =? -1))%bool && isTextNode fieldNode then
        '(fieldString', err) ← extractStringRegex (RegexExtract t) (Node_Data fieldNode);
        match err with
        | None =>
            let fieldString' := TrimSpace fieldString' in
            let fieldString' :=
              if MaxLength t >? 0 then ShortenString fieldString' (MaxLength t) else fieldString' in
            Returns (inl (fieldString', None))
        | Some _ =>
            if negb (ChildIndex t =? -1) then Returns (inl (fieldString', err))
            else scanChildren t rest (wrap (currentChildIndex + 1)) fieldString'
        end
      else scanChildren t rest (wrap (currentChildIndex + 1)) fieldString
  end.

Definition getTextString (t : ElementLocation) (s : Selection) : outcome (string * error) :=
  let fieldSelection := Find s (Selector t) in
  raw ←
    (if len fieldSelection >? NodeIndex t then
       if String.eqb (Attr t) "" then
         if EntireSubtree t then
           n ← Selection_Get fieldSelection (NodeIndex t);
           Returns (inr (subtreeText n))
         else
           n ← Selection_Get fieldSelection (NodeIndex t);
           scanChildren t (Node_Children n) 0 EmptyString
       else Returns (inr (AttrOr fieldSelection (Attr t) ""))
     else Returns (inr EmptyString));
  match raw with
  | inl early => Returns early
  | inr fieldString =>
      let fieldString := TrimSpace fieldString in
      '(fieldString, err) ← extractStringRegex (RegexExtract t) fieldString;
      match err with
      | Some _ => Returns (fieldString, err)
      | None =>
          if (MaxLength t >? 0) && (MaxLength t <? strlen fieldString) then
            Returns (takeBytes (Z.to_nat (MaxLength t)) fieldString +:+ "...", None)
          else Returns (fieldString, None)
      end
  end.

(** *** getURLString *)

(** The attribute loop of [getURLString]: the value of the first
    attribute with the wanted key, the empty string when there is none. *)
Fixpoint firstAttrVal (attr : list Attribute) (key : string) : string :=
  match attr with
  | [] => EmptyString
  | a :: rest => if String.eqb (Key a) key then Val a else firstAttrVal rest key
  end.

(** Reading a field of [u] when [url.Parse] failed dereferences [nil]. *)
Definition deref (u : option url_URL) : outcome url_URL :=
  match u with
  | Some u => Returns u
  | None => Panics "runtime error: invalid memory address or nil pointer dereference"
  end.

(** The raw attribute value [urlVal], read with the location as it
    is after the default attribute has been stored. *)
Definition urlValOf (e : ElementLocation) (s : Selection) : outcome string :=
  if String.eqb (Selector e) "" then Returns (AttrOr s (Attr e) "")
  else
    let fieldSelection := Find s (Selector e) in
    if len fieldSelection >? NodeIndex e then
      fieldNode ← Selection_Get fieldSelection (NodeIndex e);
      Returns (firstAttrVal (Node_Attr fieldNode) (Attr e))
    else Returns EmptyString.

(** The second half of [getURLString]: [urlVal] against the base. *)
Definition resolveURL (urlVal baseURL : string) : outcome string :=
  let u := url_Parse baseURL in
  if String.eqb urlVal "" then Returns EmptyString
  else if HasPrefix urlVal "http" then Returns (TrimSpace urlVal)
  else if HasPrefix urlVal "?" then
    u ← deref u;
    Returns (TrimSpace (Scheme u +:+ "://" +:+ Host u +:+ Path u +:+ urlVal))
  else
    u ← deref u;
    let baseURL := Scheme u +:+ "://" +:+ Host u in
    let baseURL := if negb (HasPrefix urlVal "/") then baseURL +:+ "/" else baseURL in
    Returns (TrimSpace (baseURL +:+ urlVal)).

(** [getURLString] writes through its pointer [e]: the location is
    returned as the call leaves it. *)
Definition getURLString (e : ElementLocation) (s : Selection) (baseURL : string)
    : outcome (ElementLocation * string) :=
  let e := if String.eqb (Attr e) "" then set_Attr "href" e else e in
  urlVal ← urlValOf e s;
  urlRes ← resolveURL urlVal baseURL;
  Returns (e, urlRes).

(** *** getDate *)

Definition checkForDoubleDateParts (dpOne dpTwo : CoveredDateParts) : error :=
  if Day dpOne && Day dpTwo then Some "date parsing error: 'day' covered at least twice"
  else if Month dpOne && Month dpTwo then Some "date parsing error: 'month' covered at least twice"
  else if Year dpOne && Year dpTwo then Some "date parsing error: 'year' covered at least twice"
  else if Time dpOne && Time dpTwo then Some "date parsing error: 'time' covered at least twice"
  else None.

Definition mergeDateParts (dpOne dpTwo : CoveredDateParts) : CoveredDateParts :=
  {| Day := Day dpOne || Day dpTwo;
     Month := Month dpOne || Month dpTwo;
     Year := Year dpOne || Year dpTwo;
     Time := Time dpOne || Time dpTwo |}.

Definition hasAllDateParts (cdp : CoveredDateParts) : bool :=
  Day cdp && Month cdp && Year cdp && Time cdp.

(** The loop over [f.Components].  [inl err] is a [return t, err]
    from inside the loop; [inr] carries [dateParts] and
    [combinedParts] out of it. *)
Fixpoint collectDateParts (components : list DateComponent) (s : Selection)
    (dateParts : list datePart) (combinedParts : CoveredDateParts)
    : outcome (string + list datePart * CoveredDateParts) :=
  match components with
  | [] => Returns (inr (dateParts, combinedParts))
  | c :: rest =>
      if negb (hasAllDateParts combinedParts) then
        match checkForDoubleDateParts (Covers c) combinedParts with
        | Some err => Returns (inl err)
        | None =>
            '(sp, err) ← getTextString (DateComponent_ElementLocation c) s;
            match err with
            | Some err => Returns (inl err)
            | None =>
                if negb (String.eqb sp "") then
                  let lp := map (fun l => Replace1 l "p.m." "pm") (Layout c) in
                  collectDateParts rest s
                    (dateParts ++ [{| stringPart := Replace1 sp "p.m." "pm"; layoutParts := lp |}])
                    (mergeDateParts combinedParts (Covers c))
                else collectDateParts rest s dateParts combinedParts
            end
        end
      else collectDateParts rest s dateParts combinedParts
  end.

(** The default fragments appended after the loop. *)
Definition addDefaults (dateParts : list datePart) (combinedParts : CoveredDateParts)
    : list datePart :=
  let dateParts :=
    if negb (Year combinedParts) then
      dateParts ++ [{| stringPart := Itoa Now_Year; layoutParts := ["2006"] |}]
    else dateParts in
  if negb (Time combinedParts) then
    dateParts ++ [{| stringPart := "20:00"; layoutParts := ["15:04"] |}]
  else dateParts.

(** One round of the layout loop: every layout so far, extended by
    every alternative of the next fragment. *)
Definition extendLayouts (dateTimeLayouts : list string) (dp : datePart) : list string :=
  flat_map (fun tlp => map (fun lp => tlp +:+ lp +:+ " ") (layoutParts dp)) dateTimeLayouts.

Definition buildLayouts (dateParts : list datePart) : list string :=
  fold_left extendLayouts dateParts [EmptyString].

Definition buildString (dateParts : list datePart) : string :=
  fold_left (fun dateTimeString dp => dateTimeString +:+ stringPart dp +:+ " ") dateParts EmptyString.

(** The parse loop; [t] and [err] are the variables of [getDate],
    returned as they stand when no layout fits. *)
Fixpoint tryLayouts (dateTimeLayouts : list string) (dateTimeString : string)
    (loc : time_Location) (mLocale : string) (t : time_Time) (err : error)
    : time_Time * error :=
  match dateTimeLayouts with
  | [] => (t, err)
  | dateTimeLayout :: rest =>
      let '(t', err') := ParseInLocation dateTimeLayout dateTimeString loc mLocale in
      match err' with
      | None => (t', None)
      | Some _ => tryLayouts rest dateTimeString loc mLocale t' err'
      end
  end.

Definition getDate (f : Field) (s : Selection) : outcome (time_Time * error) :=
  let t := zeroTime in
  match LoadLocation (DateLocation f) with
  | inr err => Returns (t, Some err)
  | inl loc =>
      let mLocale := if negb (String.eqb (DateLanguage f) "") then DateLanguage f else "de_DE" in
      collected ← collectDateParts (Components f) s [] {| Day := false; Month := false; Year := false; Time := false |};
      match collected with
      | inl err => Returns (t, Some err)
      | inr (dateParts, combinedParts) =>
          let dateParts := addDefaults dateParts combinedParts in
          if negb (Day combinedParts) || negb (Month combinedParts) then
            Returns (t, Some "date parsing error: to generate a date at least a day and a month is needed")
          else
            let dateTimeLayouts := buildLayouts dateParts in
            let dateTimeString := Replace1 (buildString dateParts) "Mrz" "Mär" in
            Returns (tryLayouts dateTimeLayouts dateTimeString loc mLocale t None)
      end
  end.

(** *** extractField *)

(** [extractField] writes into the item map and, through
    [getURLString], into the field it is given: both come back. *)
Definition extractField (field : Field) (event : ItemMap) (s : Selection) (baseURL : string)
    : outcome (Field * ItemMap * error) :=
  if String.eqb (Field_Type field) "text" || String.eqb (Field_Type field) "" then
    '(ts, err) ← getTextString (Field_ElementLocation field) s;
    match err with
    | Some _ => Returns (field, event, err)
    | None =>
        if negb (CanBeEmpty field) && String.eqb ts "" then
          Returns (field, event, Some ("field " +:+ Field_Name field +:+ " cannot be empty"))
        else Returns (field, <[Field_Name field := AString ts]> event, None)
    end
  else if String.eqb (Field_Type field) "url" then
    '(e, url) ← getURLString (Field_ElementLocation field) s baseURL;
    let field := set_Field_ElementLocation e field in
    let url := if String.eqb url "" then baseURL else url in
    Returns (field, <[Field_Name field := AString url]> event, None)
  else if String.eqb (Field_Type field) "date" then
    '(d, err) ← getDate field s;
    match err with
    | Some _ => Returns (field, event, err)
    | None => Returns (field, <[Field_Name field := ATime d]> event, None)
    end
  else
    Returns (field, event, Some ("field type '" +:+ Field_Type field +:+ "' does not exist")).

(** *** filterItem and removeHiddenFields *)

(** The loop over [c.Filters]; [inl err] is the early return on a
    regex that does not compile. *)
Fixpoint filterLoop (filters : list Filter) (item : ItemMap)
    (nrMatchTrue : Z) (filterMatchTrue filterMatchFalse : bool)
    : string + Z * bool * bool :=
  match filters with
  | [] => inr (nrMatchTrue, filterMatchTrue, filterMatchFalse)
  | filter :: rest =>
      match regexp_Compile (Regex filter) with
      | inr err => inl err
      | inl regex =>
          match item !! Filter_Field filter with
          | Some fieldValue =>
              if Match filter then
                filterLoop rest item (wrap (nrMatchTrue + 1))
                  (if MatchString regex (Sprint (Some fieldValue)) then true else filterMatchTrue)
                  filterMatchFalse
              else
                filterLoop rest item nrMatchTrue filterMatchTrue
                  (if MatchString regex (Sprint (Some fieldValue)) then false else filterMatchFalse)
          | None => filterLoop rest item nrMatchTrue filterMatchTrue filterMatchFalse
          end
      end
  end.

Definition filterItem (c : Scraper) (item : ItemMap) : bool * error :=
  match filterLoop (Filters c) item 0 false true with
  | inl err => (false, Some err)
  | inr (nrMatchTrue, filterMatchTrue, filterMatchFalse) =>
      let filterMatchTrue := if nrMatchTrue =? 0 then true else filterMatchTrue in
      (filterMatchTrue && filterMatchFalse, None)
  end.

Definition removeHiddenFields (c : Scraper) (item : ItemMap) : ItemMap :=
  fold_left (fun item f => if Hide f then delete (Field_Name f) item else item) (Fields c) item.

(** *** GetItems *)

(** A call of [fetcher.Fetch] from call site [site]. *)
Definition doFetch (c : Scraper) (globalConfig : GlobalConfig) (site : string -> FetchCall)
    (url : string) (w : World) : (string * error) * World :=
  (Fetch (RenderJs c) (UserAgent globalConfig) (map call_url w) url, w ++ [site url]).

(** The loop over [c.ExcludeWithSelector] at the head of the closure. *)
Definition excluded (c : Scraper) (s : Selection) : bool :=
  existsb (fun excludeSelector => (len (Find s excludeSelector) >? 0) || Is s excludeSelector)
          (ExcludeWithSelector c).

(** The first loop over [c.Fields]: static fields and the dynamic
    fields of the main page.  [None] is the closure's bare [return]
    that skips the item.  The field handed to [extractField] is the
    loop variable, a copy: what [extractField] writes into it is
    dropped. *)
Fixpoint mainFields (fields : list Field) (currentItem : ItemMap) (s : Selection) (pageURL : string)
    : outcome (option ItemMap) :=
  match fields with
  | [] => Returns (Some currentItem)
  | f :: rest =>
      if negb (String.eqb (Value f) "") then
        mainFields rest (<[Field_Name f := AString (Value f)]> currentItem) s pageURL
      else if String.eqb (OnSubpage f) "" then
        '(_, currentItem', err) ← extractField f currentItem s pageURL;
        match err with
        | Some _ => Returns None
        | None => mainFields rest currentItem' s pageURL
        end
      else mainFields rest currentItem s pageURL
  end.

(** The second loop over [c.Fields]: the fields found on subpages,
    with the per-item cache [subDocs]. *)
Fixpoint subpageFields (c : Scraper) (globalConfig : GlobalConfig) (fields : list Field)
    (currentItem : ItemMap) (subDocs : gmap string Node) (w : World)
    : outcome (option ItemMap * World) :=
  match fields with
  | [] => Returns (Some currentItem, w)
  | f :: rest =>
      if negb (String.eqb (OnSubpage f) "") && String.eqb (Value f) "" then
        let subpageURL := Sprint (currentItem !! OnSubpage f) in
        let fetched :=
          match subDocs !! subpageURL with
          | Some subDoc => (Some (subDoc, subDocs), w)
          | None =>
              let '((subRes, err), w') := doFetch c globalConfig FetchSubpage subpageURL w in
              match err with
              | Some _ => (None, w')
              | None =>
                  let '(subDoc, err) := NewDocumentFromReader subRes in
                  match err with
                  | Some _ => (None, w')
                  | None => (Some (subDoc, <[subpageURL := subDoc]> subDocs), w')
                  end
              end
          end in
        match fetched with
        | (None, w') => Returns (None, w')
        | (Some (subDoc, subDocs'), w') =>
            '(_, currentItem', err) ← extractField f currentItem [subDoc] (URL c);
            match err with
            | Some _ => Returns (None, w')
            | None => subpageFields c globalConfig rest currentItem' subDocs' w'
            end
        end
      else subpageFields c globalConfig rest currentItem subDocs w
  end.

(** The closure passed to [Each], run on one item node. *)
Definition processItem (c : Scraper) (globalConfig : GlobalConfig) (s : Selection)
    (pageURL : string) (items : list ItemMap) (w : World) : outcome (list ItemMap * World) :=
  if excluded c s then Returns (items, w)
  else
    main ← mainFields (Fields c) ∅ s pageURL;
    match main with
    | None => Returns (items, w)
    | Some currentItem =>
        '(sub, w') ← subpageFields c globalConfig (Fields c) currentItem ∅ w;
        match sub with
        | None => Returns (items, w')
        | Some currentItem =>
            match filterItem c currentItem with
            | (_, Some err) =>
                Exits (Scraper_Name c +:+ " ERROR: error while applying filter: " +:+ err +:+ ".")
            | (filter, None) =>
                if filter then Returns (items ++ [removeHiddenFields c currentItem], w')
                else Returns (items, w')
            end
        end
    end.

(** [Selection.Each]: the closure on every matched node, in order. *)
Fixpoint eachItem (c : Scraper) (globalConfig : GlobalConfig) (nodes : list Node)
    (pageURL : string) (items : list ItemMap) (w : World) : outcome (list ItemMap * World) :=
  match nodes with
  | [] => Returns (items, w)
  | n :: rest =>
      '(items', w') ← processItem c globalConfig [n] pageURL items w;
      eachItem c globalConfig rest pageURL items' w'
  end.

(** The variables of [GetItems] that live across iterations.  [c] is
    the receiver, a copy owned by the call, whose paginator location
    [getURLString] writes to. *)
Record LoopState := {
  ls_c : Scraper;
  ls_items : list ItemMap;
  ls_pageURL : string;
  ls_currentPage : Z;
  ls_world : World
}.

(** What one pass through the body of [for hasNextPage] leads to. *)
Inductive iteration :=
| Return_ (items : list ItemMap) (err : error) (w : World)
| NextPage (st : LoopState).

Definition iterate (globalConfig : GlobalConfig) (st : LoopState) : outcome iteration :=
  let c := ls_c st in
  let '((res, err), w) := doFetch c globalConfig FetchPage (ls_pageURL st) (ls_world st) in
  match err with
  | Some _ => Returns (Return_ (ls_items st) err w)
  | None =>
      let '(doc, err) := NewDocumentFromReader res in
      match err with
      | Some _ => Returns (Return_ (ls_items st) err w)
      | None =>
          '(items, w) ← eachItem c globalConfig (Find [doc] (Item c)) (ls_pageURL st) (ls_items st) w;
          '(e, pageURL) ← getURLString (Location (Scraper_Paginator c)) [doc] (ls_pageURL st);
          let c := set_Paginator_Location e c in
          if negb (String.eqb pageURL "") then
            let currentPage := wrap (ls_currentPage st + 1) in
            if (currentPage <? MaxPages (Scraper_Paginator c)) || (MaxPages (Scraper_Paginator c) =? 0) then
              Returns (NextPage {| ls_c := c; ls_items := items; ls_pageURL := pageURL;
                                   ls_currentPage := currentPage; ls_world := w |})
            else Returns (Return_ items None w)
          else Returns (Return_ items None w)
      end
  end.

(** The loop [for hasNextPage].  It need not end (a site whose
    every page links to a next one, with [MaxPages = 0]): [fuel]
    bounds the number of iterations, and [None] means the bound was
    reached with the loop still running. *)
Fixpoint crawl (fuel : nat) (globalConfig : GlobalConfig) (st : LoopState)
    : option (outcome (list ItemMap * error * World)) :=
  match fuel with
  | O => None
  | S fuel' =>
      match iterate globalConfig st with
      | Returns (Return_ items err w) => Some (Returns (items, err, w))
      | Returns (NextPage st') => crawl fuel' globalConfig st'
      | Panics msg => Some (Panics msg)
      | Exits msg => Some (Exits msg)
      end
  end.

Definition GetItems (fuel : nat) (c : Scraper) (globalConfig : GlobalConfig) (w : World)
    : option (outcome (list ItemMap * error * World)) :=
  crawl fuel globalConfig
    {| ls_c := c; ls_items := []; ls_pageURL := URL c; ls_currentPage := 0; ls_world := w |}.

End Scraper.

(** ** Package [output], file [api.go] *)

(** Modelled from the spec: the writer configuration ([WriterConfig],
    declared outside the files at hand), of which the API sink reads
    the endpoint and the credentials. *)
Record WriterConfig := {
  Uri : string;
  User : string;
  Password : string
}.

(** [http.Request], as far as [api.go] fills it in. *)
Record Request := {
  Method : string;
  Request_URL : string;
  Body : option string;
  Header : list (string * list string);
  BasicAuth : option (string * string)
}.

(** [http.Response]: the status and what [io.ReadAll] gets from the body. *)
Record Response := {
  StatusCode : Z;
  ReadAll : string * error
}.

(** The network and the encoders behind the sink.  [Do] sees the
    requests sent so far. *)
Class Network := {
  (** whether [http.NewRequest] accepts the URL *)
  acceptsURL : string -> bool;
  (** [http.Client.Do] *)
  Do : list Request -> Request -> Response + string;
  (** [json.Marshal] of a batch *)
  json_Marshal : list ItemMap -> string * error;
  (** [url.QueryEscape] *)
  QueryEscape : string -> string;
  (** [t.UTC().Format(layout)] *)
  UTC_Format : time_Time -> string -> string
}.

(** A request of the sink together with what it was built from. *)
Inductive ApiCall :=
| DeleteCall (currentSrc : string) (firstDate : time_Time)
| PostCall (batch : list ItemMap).

Definition isDeleteCall (a : ApiCall) : bool :=
  match a with DeleteCall _ _ => true | PostCall _ => false end.

Definition isPostCall (a : ApiCall) : bool := negb (isDeleteCall a).

Section APIWriter.
Context `{Net : Network}.

(** [http.NewRequest]: [nil] (with an error the sink drops) on a URL
    that does not parse. *)
Definition NewRequest (method url : string) (body : option string) : option Request :=
  if acceptsURL url then
    Some {| Method := method; Request_URL := url; Body := body; Header := []; BasicAuth := None |}
  else None.

Definition SetBasicAuth (req : option Request) (username password : string) : outcome Request :=
  match req with
  | Some req =>
      Returns {| Method := Method req; Request_URL := Request_URL req; Body := Body req;
                 Header := Header req; BasicAuth := Some (username, password) |}
  | None => Panics "runtime error: invalid memory address or nil pointer dereference"
  end.

Definition set_Header (h : list (string * list string)) (req : option Request) : outcome Request :=
  match req with
  | Some req =>
      Returns {| Method := Method req; Request_URL := Request_URL req; Body := Body req;
                 Header := h; BasicAuth := BasicAuth req |}
  | None => Panics "runtime error: invalid memory address or nil pointer dereference"
  end.

Definition deleteURL (wc : WriterConfig) (currentSrc : string) (firstDate : time_Time) : string :=
  Uri wc +:+ "?sourceUrl=" +:+ QueryEscape currentSrc +:+ "&datetime="
    +:+ QueryEscape (UTC_Format firstDate "2006-01-02 15:04").

(** The DELETE request of a source, as it goes on the wire. *)
Definition deleteRequest (wc : WriterConfig) (currentSrc : string) (firstDate : time_Time)
    : outcome Request :=
  SetBasicAuth (NewRequest "DELETE" (deleteURL wc currentSrc firstDate) None) (User wc) (Password wc).

(** The POST request of a batch whose JSON encoding is [concertJSON]. *)
Definition postRequest (wc : WriterConfig) (concertJSON : string) : outcome Request :=
  req ← set_Header [("Content-Type", ["application/json"])]
                   (NewRequest "POST" (Uri wc) (Some concertJSON));
  SetBasicAuth (Some req) (User wc) (Password wc).

(** The requests behind a trace of calls; a call whose request could
    not be built never reaches the trace. *)
Definition wire (wc : WriterConfig) (a : ApiCall) : list Request :=
  match a with
  | DeleteCall currentSrc firstDate =>
      match deleteRequest wc currentSrc firstDate with Returns r => [r] | _ => [] end
  | PostCall batch =>
      match postRequest wc (fst (json_Marshal batch)) with Returns r => [r] | _ => [] end
  end.

Definition sent (wc : WriterConfig) (trace : list ApiCall) : list Request :=
  flat_map (wire wc) trace.

Definition postBatch (wc : WriterConfig) (batch : list ItemMap) (trace : list ApiCall)
    : outcome (list ApiCall) :=
  let '(concertJSON, err) := json_Marshal batch in
  match err with
  | Some err => Exits err
  | None =>
      req ← postRequest wc concertJSON;
      match Do (sent wc trace) req with
      | inr err => Exits err
      | inl resp =>
          if negb (StatusCode resp =? 201) then
            match ReadAll resp with
            | (_, Some err) => Exits err
            | (body, None) =>
                Exits ("something went wrong while adding new events. Status Code: "
                       +:+ Itoa (StatusCode resp) +:+ " Response: " +:+ body)
            end
          else Returns (trace ++ [PostCall batch])
      end
  end.

(** The DELETE of a source seen for the first time.  The message of
    the failed cast stands without the item that [log.Fatalf] prints
    into it. *)
Definition deleteSource (wc : WriterConfig) (currentSrc : string) (item : ItemMap)
    (trace : list ApiCall) : outcome (list ApiCall) :=
  firstDate ← match item !! "date" with
              | Some (ATime t) => Returns t
              | _ => Exits "error while trying to cast the date field of item to time.Time"
              end;
  req ← deleteRequest wc currentSrc firstDate;
  match Do (sent wc trace) req with
  | inr err => Exits err
  | inl resp =>
      if negb (StatusCode resp =? 200) then
        match ReadAll resp with
        | (_, Some err) => Exits err
        | (body, None) =>
            Exits ("something went wrong while deleting items. Status Code: "
                   +:+ Itoa (StatusCode resp) +:+ String (ascii_of_nat 10) "Url: "
                   +:+ deleteURL wc currentSrc firstDate
                   +:+ " Response: " +:+ body)
        end
      else Returns (trace ++ [DeleteCall currentSrc firstDate])
  end.

(** The variables of [Write] that live across the loop. *)
Record SinkState := {
  deletedSources : gmap string bool;
  nrItems : Z;
  batch : list ItemMap;
  trace : list ApiCall
}.

(** The body of [for item := range items]. *)
Definition writeItem (wc : WriterConfig) (item : ItemMap) (st : SinkState) : outcome SinkState :=
  let nrItems := wrap (nrItems st + 1) in
  currentSrc ← match item !! "sourceUrl" with
               | Some (AString s) => Returns s
               | Some (ATime _) =>
                   Panics "interface conversion: interface {} is time.Time, not string"
               | None => Panics "interface conversion: interface {} is nil, not string"
               end;
  '(deletedSources, trace) ←
    match deletedSources st !! currentSrc with
    | Some _ => Returns (deletedSources st, trace st)
    | None =>
        trace ← deleteSource wc currentSrc item (trace st);
        Returns (<[currentSrc := true]> (deletedSources st), trace)
    end;
  let batch := batch st ++ [item] in
  if len batch =? 100 then
    trace ← postBatch wc batch trace;
    Returns {| deletedSources := deletedSources; nrItems := nrItems; batch := []; trace := trace |}
  else
    Returns {| deletedSources := deletedSources; nrItems := nrItems; batch := batch; trace := trace |}.

Fixpoint writeLoop (wc : WriterConfig) (items : list ItemMap) (st : SinkState) : outcome SinkState :=
  match items with
  | [] => Returns st
  | item :: rest =>
      st' ← writeItem wc item st;
      writeLoop wc rest st'
  end.

(** [APIWriter.Write] on the items the channel delivers before it
    is closed; the result is the trace of the calls made. *)
Definition Write (wc : WriterConfig) (items : list ItemMap) : outcome (list ApiCall) :=
  st ← writeLoop wc items {| deletedSources := ∅; nrItems := 0; batch := []; trace := [] |};
  postBatch wc (batch st) (trace st).

End APIWriter.

(** ** A test environment

    Executable stand-ins for the external collaborators, used to run
    the model on concrete inputs.  Each covers the fragment of its
    library that the examples below exercise and follows the library's
    documented behaviour on it. *)
Module TestEnv.

(** *** Regular expressions: sequences of single-character atoms

    Literals, [.], bracket classes with ranges and negation, the
    escapes [\\d] and backslash-metacharacter, and the anchors [^]
    and [$].  Repetition, grouping and alternation are not
    implemented: [Compile] answers them with an error. *)
Inductive atom :=
| Lit (c : ascii)
| AnyChar
| Class (negated : bool) (ranges : list (ascii * ascii))
| Bol
| Eol.

Definition isMeta (c : ascii) : bool :=
  existsb (Ascii.eqb c) (list_ascii_of_string "\.+*?()|[]{}^$").

(** The items of a bracket class up to the closing bracket. *)
Fixpoint parseClass (s : string) (acc : list (ascii * ascii)) : option (list (ascii * ascii) * string) :=
  match s with
  | EmptyString => None
  | String "]" rest => match acc with [] => None | _ => Some (acc, rest) end
  | String lo (String "-" (String hi rest as tail)) =>
      if Ascii.eqb hi "]" then parseClass tail (acc ++ [(lo, lo); ("-", "-")]%char)
      else parseClass rest (acc ++ [(lo, hi)])
  | String c rest => parseClass rest (acc ++ [(c, c)])
  end.

Fixpoint parse (fuel : nat) (s : string) : list atom + string :=
  match fuel with
  | O => inr "error parsing regexp"
  | S fuel' =>
      match s with
      | EmptyString => inl []
      | String c rest =>
          let continue_ (a : atom) (rest : string) :=
            match parse fuel' rest with
            | inl atoms => inl (a :: atoms)
            | inr err => inr err
            end in
          if Ascii.eqb c "^" then continue_ Bol rest
          else if Ascii.eqb c "$" then continue_ Eol rest
          else if Ascii.eqb c "." then continue_ AnyChar rest
          else if Ascii.eqb c "[" then
            let '(negated, body) :=
              match rest with
              | String "^" body => (true, body)
              | _ => (false, rest)
              end in
            match parseClass body [] with
            | Some (ranges, rest') => continue_ (Class negated ranges) rest'
            | None => inr ("error parsing regexp: missing closing ]: `" +:+ s +:+ "`")
            end
          else if Ascii.eqb c "\" then
            match rest with
            | String "d" rest' => continue_ (Class false [("0", "9")]%char) rest'
            | String e rest' =>
                if isMeta e then continue_ (Lit e) rest'
                else inr "error parsing regexp: escape sequence outside the fragment"
            | EmptyString => inr "error parsing regexp: trailing backslash at end of expression"
            end
          else if isMeta c then inr "error parsing regexp: operator outside the fragment"
          else continue_ (Lit c) rest
      end
  end.

Definition Compile (expr : string) : list atom + string :=
  parse (S (String.length expr)) expr.

Definition inRange (c : ascii) (r : ascii * ascii) : bool :=
  (Nat.leb (nat_of_ascii (fst r)) (nat_of_ascii c) && Nat.leb (nat_of_ascii c) (nat_of_ascii (snd r)))%bool.

Definition accepts (a : atom) (c : ascii) : bool :=
  match a with
  | Lit l => Ascii.eqb l c
  | AnyChar => negb (Nat.eqb (nat_of_ascii c) 10)
  | Class negated ranges => xorb negated (existsb (inRange c) ranges)
  | Bol | Eol => false
  end.

(** The match of [re] that starts exactly here, as its length. *)
Fixpoint matchHere (re : list atom) (atStart : bool) (s : string) : option nat :=
  match re with
  | [] => Some O
  | Bol :: re' => if atStart then matchHere re' atStart s else None
  | Eol :: re' => match s with EmptyString => matchHere re' atStart s | _ => None end
  | a :: re' =>
      match s with
      | String c s' => if accepts a c then S <$> matchHere re' false s' else None
      | EmptyString => None
      end
  end.

(** The leftmost match at or after [pos], as start and end offsets. *)
Fixpoint search (fuel : nat) (re : list atom) (whole : string) (pos : nat) : option (nat * nat) :=
  match fuel with
  | O => None
  | S fuel' =>
      if Nat.ltb (String.length whole) pos then None
      else match matchHere re (Nat.eqb pos 0) (dropBytes pos whole) with
           | Some n => Some (pos, (pos + n)%nat)
           | None => search fuel' re whole (S pos)
           end
  end.

Definition searchFrom (re : list atom) (whole : string) (pos : nat) : option (nat * nat) :=
  search (S (S (String.length whole))) re whole pos.

(** The loop of [Regexp.allMatches]: successive matches, an empty
    match right after the previous match being passed over. *)
Fixpoint allMatches (fuel : nat) (re : list atom) (whole : string) (pos : nat)
    (prevMatchEnd : option nat) : list string :=
  match fuel with
  | O => []
  | S fuel' =>
      match searchFrom re whole pos with
      | None => []
      | Some (start, stop) =>
          let accept := negb (Nat.eqb stop pos && bool_decide (prevMatchEnd = Some start)) in
          let pos' := if Nat.eqb stop pos then S pos else stop in
          (if accept then [String.substring start (stop - start) whole] else [])
            ++ allMatches fuel' re whole pos' (Some stop)
      end
  end.

Definition FindAllString (re : list atom) (s : string) (n : Z) : list string :=
  let all := allMatches (S (S (String.length s))) re s O None in
  if n <? 0 then all else firstn (Z.to_nat n) all.

Definition MatchString (re : list atom) (s : string) : bool :=
  bool_decide (is_Some (searchFrom re s O)).

(** [cutspace] of package [time]: leading blanks only. *)
Fixpoint TrimLeftOnly (s : string) : string :=
  match s with
  | String " " s' => TrimLeftOnly s'
  | _ => s
  end.

(** *** URLs of the shape [scheme://host/path?query#fragment] *)

Fixpoint cutAt (stop : ascii -> bool) (s : string) : string * string :=
  match s with
  | EmptyString => (EmptyString, EmptyString)
  | String c rest =>
      if stop c then (EmptyString, s)
      else let '(before, after) := cutAt stop rest in (String c before, after)
  end.

Definition isControl (c : ascii) : bool :=
  (Nat.ltb (nat_of_ascii c) 32 || Nat.eqb (nat_of_ascii c) 127)%bool.

Definition isLower (c : ascii) : bool :=
  (Nat.leb 97 (nat_of_ascii c) && Nat.leb (nat_of_ascii c) 122)%bool.

Definition isDigit (c : ascii) : bool :=
  (Nat.leb 48 (nat_of_ascii c) && Nat.leb (nat_of_ascii c) 57)%bool.

(** [url.Parse]: the fragment and the query are cut off, a leading
    lower-case scheme is split at its colon, and an authority that
    follows two slashes runs to the next slash. *)
Definition url_Parse (rawURL : string) : option url_URL :=
  if existsb isControl (list_ascii_of_string rawURL) then None
  else
    let rest := fst (cutAt (Ascii.eqb "#") rawURL) in
    let rest := fst (cutAt (Ascii.eqb "?") rest) in
    let '(scheme, rest) :=
      match cutAt (fun c => negb (isLower c)) rest with
      | (String c scheme', String ":" after) => (String c scheme', after)
      | _ => (EmptyString, rest)
      end in
    if HasPrefix rest "//" then
      let '(authority, path) := cutAt (Ascii.eqb "/") (dropBytes 2 rest) in
      Some {| Scheme := scheme; Host := authority; Path := path |}
    else Some {| Scheme := scheme; Host := EmptyString; Path := rest |}.

(** *** Selectors that are a tag name *)

Fixpoint descendants (n : Node) : list Node :=
  match n with
  | mkNode _ _ _ children =>
      (fix siblings (l : list Node) : list Node :=
         match l with
         | [] => []
         | c :: l' => c :: descendants c ++ siblings l'
         end) children
  end.

Definition hasTag (selector : string) (n : Node) : bool :=
  match Node_Type n with
  | ElementNode => String.eqb (Node_Data n) selector
  | _ => false
  end.

(** [Selection.Find]: the matching descendants, in document order. *)
Definition Find (s : Selection) (selector : string) : Selection :=
  List.filter (hasTag selector) (flat_map descendants s).

Definition Is (s : Selection) (selector : string) : bool := existsb (hasTag selector) s.

(** *** Time zones and numeric layouts *)

Definition LoadLocation (name : string) : time_Location + string :=
  if String.eqb name "" || String.eqb name "UTC" then inl {| loc_name := "UTC" |}
  else if existsb (String.eqb name) ["Local"; "Europe/Berlin"; "Europe/Zurich"; "America/New_York"]
  then inl {| loc_name := name |}
  else inr ("unknown time zone " +:+ name).

(** The layout elements of package [time] that are all digits, and
    the separators between them. *)
Inductive chunk := stdLongYear | stdZeroMonth | stdZeroDay | stdHour | stdZeroMinute | Separator (c : ascii).

Fixpoint chunks (fuel : nat) (layout : string) : option (list chunk) :=
  match fuel with
  | O => None
  | S fuel' =>
      let element (std : chunk) (width : nat) := cons std <$> chunks fuel' (dropBytes width layout) in
      match layout with
      | EmptyString => Some []
      | String c rest =>
          if HasPrefix layout "2006" then element stdLongYear 4%nat
          else if HasPrefix layout "01" then element stdZeroMonth 2%nat
          else if HasPrefix layout "02" then element stdZeroDay 2%nat
          else if HasPrefix layout "15" then element stdHour 2%nat
          else if HasPrefix layout "04" then element stdZeroMinute 2%nat
          else if Ascii.eqb c " " then
            if HasPrefix rest " " then None else element (Separator c) 1%nat
          else if Ascii.eqb c ":" || Ascii.eqb c "/" then element (Separator c) 1%nat
          else if Ascii.eqb c "." && negb (HasPrefix rest "0" && negb (existsb (HasPrefix rest) ["01"; "02"; "04"]))
                  && negb (HasPrefix rest "9")
          then element (Separator c) 1%nat
          else None
      end
  end.

Definition digitVal (c : ascii) : Z := Z.of_nat (nat_of_ascii c) - 48.

(** [getnum]: one or two digits, exactly two when [fixed]. *)
Definition getnum (value : string) (fixed : bool) : option (Z * string) :=
  match value with
  | String a rest =>
      if isDigit a then
        match rest with
        | String b rest' =>
            if isDigit b then Some (digitVal a * 10 + digitVal b, rest')
            else if fixed then None else Some (digitVal a, rest)
        | EmptyString => if fixed then None else Some (digitVal a, rest)
        end
      else None
  | EmptyString => None
  end.

Definition getyear (value : string) : option (Z * string) :=
  match value with
  | String a (String b (String c (String d rest))) =>
      if isDigit a && isDigit b && isDigit c && isDigit d then
        Some (((digitVal a * 10 + digitVal b) * 10 + digitVal c) * 10 + digitVal d, rest)
      else None
  | _ => None
  end.

Definition isLeap (year : Z) : bool :=
  (year mod 4 =? 0) && (negb (year mod 100 =? 0) || (year mod 400 =? 0)).

Definition daysIn (month year : Z) : Z :=
  if month =? 2 then (if isLeap year then 29 else 28)
  else if (month =? 4) || (month =? 6) || (month =? 9) || (month =? 11) then 30
  else 31.

(** The value against the layout, element by element. *)
Fixpoint parseValue (layout : list chunk) (value : string) (t : time_Time) : option (time_Time * string) :=
  let set (year month day hour minute : Z) : time_Time :=
    {| t_year := year; t_month := month; t_day := day; t_hour := hour; t_minute := minute;
       t_second := 0; t_location := t_location t |} in
  match layout with
  | [] => Some (t, value)
  | stdLongYear :: layout' =>
      '(year, value') ← getyear value;
      parseValue layout' value' (set year (t_month t) (t_day t) (t_hour t) (t_minute t))
  | stdZeroMonth :: layout' =>
      '(month, value') ← getnum value true;
      if (1 <=? month) && (month <=? 12) then
        parseValue layout' value' (set (t_year t) month (t_day t) (t_hour t) (t_minute t))
      else None
  | stdZeroDay :: layout' =>
      '(day, value') ← getnum value true;
      parseValue layout' value' (set (t_year t) (t_month t) day (t_hour t) (t_minute t))
  | stdHour :: layout' =>
      '(hour, value') ← getnum value false;
      if hour <? 24 then parseValue layout' value' (set (t_year t) (t_month t) (t_day t) hour (t_minute t))
      else None
  | stdZeroMinute :: layout' =>
      '(minute, value') ← getnum value true;
      if minute <? 60 then parseValue layout' value' (set (t_year t) (t_month t) (t_day t) (t_hour t) minute)
      else None
  | Separator c :: layout' =>
      if Ascii.eqb c " " then
        match value with
        | String v _ => if Ascii.eqb v " " then parseValue layout' (TrimLeftOnly value) t else None
        | EmptyString => parseValue layout' value t
        end
      else
        match value with
        | String v value' => if Ascii.eqb v c then parseValue layout' value' t else None
        | EmptyString => None
        end
  end.

(** [monday.ParseInLocation] on values without month or day names,
    where the locale has nothing to translate. *)
Definition ParseInLocation (layout value : string) (loc : time_Location) (locale : string)
    : time_Time * error :=
  let failure := (zeroTime, Some ("parsing time " +:+ value +:+ " as " +:+ layout +:+ ": cannot parse")) in
  let start :=
    {| t_year := 0; t_month := 1; t_day := 1; t_hour := 0; t_minute := 0; t_second := 0;
       t_location := loc |} in
  match chunks (S (String.length layout)) layout with
  | None => failure
  | Some elements =>
      match parseValue elements value start with
      | Some (t, EmptyString) =>
          if (1 <=? t_day t) && (t_day t <=? daysIn (t_month t) (t_year t)) then (t, None)
          else failure
      | _ => failure
      end
  end.

(** *** A site, and the environment built on it *)

(** A page of the site: its address, its markup, and the tree the
    HTML parser builds from that markup. *)
Record Page := {
  page_url : string;
  page_markup : string;
  page_tree : Node
}.

Definition element (tag : string) (attr : list Attribute) (children : list Node) : Node :=
  mkNode ElementNode tag attr children.

Definition text (data : string) : Node := mkNode TextNode data [] [].

(** The parser wraps what it reads in [html], [head] and [body]. *)
Definition document (body : list Node) : Node :=
  mkNode DocumentNode EmptyString []
    [element "html" [] [element "head" [] []; element "body" [] body]].

Definition Fetch (site : list Page) (url : string) : string * error :=
  match List.find (fun p => String.eqb (page_url p) url) site with
  | Some p => (page_markup p, None)
  | None => (EmptyString, Some ("fetching " +:+ url +:+ ": status 404"))
  end.

Definition NewDocumentFromReader (site : list Page) (res : string) : Node * error :=
  match List.find (fun p => String.eqb (page_markup p) res) site with
  | Some p => (page_tree p, None)
  | None => (document [], None)
  end.

Definition pad2 (n : Z) : string := if n <? 10 then "0" +:+ Itoa n else Itoa n.

(** [Time.String] without the zone offset. *)
Definition Time_String (t : time_Time) : string :=
  Itoa (t_year t) +:+ "-" +:+ pad2 (t_month t) +:+ "-" +:+ pad2 (t_day t) +:+ " "
    +:+ pad2 (t_hour t) +:+ ":" +:+ pad2 (t_minute t) +:+ ":" +:+ pad2 (t_second t)
    +:+ " " +:+ loc_name (t_location t).

(** Modelled from the spec: [utils.ShortenString], which is not
    among the files at hand; truncation to the given length with an
    ellipsis marker appended. *)
Definition ShortenString (s : string) (l : Z) : string :=
  if l <? strlen s then takeBytes (Z.to_nat l) s +:+ "..." else s.

(** The environment of a run: the site that is crawled and the
    calendar year of the run. *)
Definition env (site : list Page) (year : Z) : External :=
  Build_External
    (fun _ _ _ url => Fetch site url)
    (NewDocumentFromReader site)
    Find
    Is
    (list atom)
    Compile
    FindAllString
    MatchString
    LoadLocation
    year
    ParseInLocation
    Time_String
    url_Parse
    ShortenString.

Definition isUpper (c : ascii) : bool :=
  (Nat.leb 65 (nat_of_ascii c) && Nat.leb (nat_of_ascii c) 90)%bool.

Definition hexDigit (n : nat) : ascii :=
  if Nat.ltb n 10 then ascii_of_nat (48 + n) else ascii_of_nat (55 + n).

(** [url.QueryEscape]: letters, digits and [-_.~] stay, a blank
    becomes a plus sign, every other byte its percent escape. *)
Fixpoint QueryEscape (s : string) : string :=
  match s with
  | EmptyString => EmptyString
  | String c rest =>
      if isLower c || isUpper c || isDigit c || existsb (Ascii.eqb c) (list_ascii_of_string "-_.~")
      then String c (QueryEscape rest)
      else if Ascii.eqb c " " then String "+" (QueryEscape rest)
      else String "%" (String (hexDigit (nat_of_ascii c / 16))
                         (String (hexDigit (nat_of_ascii c mod 16)) (QueryEscape rest)))
  end.

(** [t.UTC().Format("2006-01-02 15:04")] of a timestamp whose location
    is UTC already; the test environment knows no zone offsets. *)
Definition UTC_Format (t : time_Time) (layout : string) : string :=
  Itoa (t_year t) +:+ "-" +:+ pad2 (t_month t) +:+ "-" +:+ pad2 (t_day t) +:+ " "
    +:+ pad2 (t_hour t) +:+ ":" +:+ pad2 (t_minute t).

(** An API that takes every request, 200 to a DELETE and 201 to a
    POST, except that it answers 500 to the URLs on the list of
    failing ones.  The body of a POST stands for the JSON array of the
    batch and shows its length only. *)
Definition network (failing : list string) : Network :=
  Build_Network
    (fun _ => true)
    (fun _ req =>
       if existsb (String.eqb (Request_URL req)) failing then
         inl {| StatusCode := 500; ReadAll := ("internal error", None) |}
       else if String.eqb (Method req) "DELETE" then
         inl {| StatusCode := 200; ReadAll := (EmptyString, None) |}
       else inl {| StatusCode := 201; ReadAll := (EmptyString, None) |})
    (fun batch => ("[" +:+ Itoa (len batch) +:+ " records]", None))
    QueryEscape
    UTC_Format.

End TestEnv.

(** * Definitions used in the statements *)

(** Strings of ASCII white space and of bytes outside ASCII: no other
    string can be trimmed to nothing. *)
Fixpoint allSpace (s : string) : bool :=
  match s with
  | EmptyString => true
  | String c s' => (isSpace c || Nat.leb 128 (nat_of_ascii c)) && allSpace s'
  end.

(** The location as [getURLString] leaves it: the attribute defaults
    to [href]. *)
Definition withDefaultAttr (e : ElementLocation) : ElementLocation :=
  if String.eqb (Attr e) "" then set_Attr "href" e else e.

(** The resolved value of a raw attribute value, in the words of the
    specification: a value that starts with [http] passes, one that
    starts with a question mark goes behind the page's path, any other
    behind scheme and host with a slash in between. *)
Definition resolved (u : url_URL) (urlVal : string) : string :=
  if String.eqb urlVal "" then EmptyString
  else if HasPrefix urlVal "http" then TrimSpace urlVal
  else if HasPrefix urlVal "?" then TrimSpace (Scheme u +:+ "://" +:+ Host u +:+ Path u +:+ urlVal)
  else if HasPrefix urlVal "/" then TrimSpace (Scheme u +:+ "://" +:+ Host u +:+ urlVal)
  else TrimSpace (Scheme u +:+ "://" +:+ Host u +:+ "/" +:+ urlVal).

(** No calendar part covered: [CoveredDateParts{}]. *)
Definition noParts : CoveredDateParts :=
  {| Day := false; Month := false; Year := false; Time := false |}.

(** Two components cover a common calendar part. *)
Definition overlap (a b : CoveredDateParts) : bool :=
  Day a && Day b || Month a && Month b || Year a && Year b || Time a && Time b.

(** Every part covered by [a] is covered by [b]. *)
Definition includes (a b : CoveredDateParts) : bool :=
  implb (Day a) (Day b) && implb (Month a) (Month b) && implb (Year a) (Year b)
  && implb (Time a) (Time b).

(** What a component adds to the parts covered so far: its own
    parts when its text is extracted and is not empty, nothing
    otherwise. *)
Definition coverStep `{Ext : External} (s : Selection) (cp : CoveredDateParts) (c : DateComponent)
    : CoveredDateParts :=
  match getTextString (DateComponent_ElementLocation c) s with
  | Returns (sp, None) => if String.eqb sp "" then cp else mergeDateParts cp (Covers c)
  | _ => cp
  end.

Definition coveredFrom `{Ext : External} (s : Selection) (cp : CoveredDateParts)
    (components : list DateComponent) : CoveredDateParts :=
  fold_left (coverStep s) components cp.

(** The parts covered by the components whose text is not empty. *)
Definition coveredBy `{Ext : External} (components : list DateComponent) (s : Selection)
    : CoveredDateParts :=
  coveredFrom s noParts components.

(** The four messages of [checkForDoubleDateParts]. *)
Definition isDoubleCoverError (err : string) : Prop :=
  exists part, In part ["day"; "month"; "year"; "time"]
               /\ err = "date parsing error: '" +:+ part +:+ "' covered at least twice".

(** The message of [getDate] when day or month is not covered. *)
Definition noDayMonthError : string :=
  "date parsing error: to generate a date at least a day and a month is needed".

(** The two default fragments of [getDate]. *)
Definition defaultYear `{Ext : External} : datePart :=
  {| stringPart := Itoa Now_Year; layoutParts := ["2006"] |}.

Definition defaultTime : datePart :=
  {| stringPart := "20:00"; layoutParts := ["15:04"] |}.

(** The locale [getDate] parses with. *)
Definition localeOf (f : Field) : string :=
  if String.eqb (DateLanguage f) "" then "de_DE" else DateLanguage f.

(** The byte [c] does not occur in [s]. *)
Fixpoint noChar (c : ascii) (s : string) : bool :=
  match s with
  | EmptyString => true
  | String d s' => negb (Ascii.eqb c d) && noChar c s'
  end.

(** A filter applies to the items that have its field. *)
Definition applies (filter : Filter) (item : ItemMap) : bool :=
  match item !! Filter_Field filter with Some _ => true | None => false end.

(** The regex of a filter matches the value the item has for its field. *)
Definition regexMatches `{Ext : External} (filter : Filter) (item : ItemMap) : bool :=
  match regexp_Compile (Regex filter), item !! Filter_Field filter with
  | inl regex, Some fieldValue => MatchString regex (Sprint (Some fieldValue))
  | _, _ => false
  end.

Definition positiveFilters (filters : list Filter) (item : ItemMap) : list Filter :=
  List.filter (fun f => Match f && applies f item) filters.

Definition exclusionFilters (filters : list Filter) (item : ItemMap) : list Filter :=
  List.filter (fun f => negb (Match f) && applies f item) filters.

(** The filter rule in the words of the specification, read over
    the filters that apply: some positive filter matches or there is
    none, and no exclusion filter matches. *)
Definition kept `{Ext : External} (filters : list Filter) (item : ItemMap) : bool :=
  (existsb (fun f => regexMatches f item) (positiveFilters filters item)
   || Nat.eqb (length (positiveFilters filters item)) 0)
  && negb (existsb (fun f => regexMatches f item) (exclusionFilters filters item)).

Definition compiles `{Ext : External} (filter : Filter) : Prop :=
  exists regex, regexp_Compile (Regex filter) = inl regex.

(** The regex of a filter compiles and matches no string at all. *)
Definition neverMatches `{Ext : External} (filter : Filter) : Prop :=
  exists regex, regexp_Compile (Regex filter) = inl regex
                /\ forall v, MatchString regex v = false.

(** The number of main pages fetched so far. *)
Definition pagesFetched (w : World) : Z := len (List.filter isFetchPage w).

(** Whether the crawl loop stops after a page, given the next-page
    URL found on it and the number of pages fetched up to and
    including it. *)
Definition stopsAfter (maxPages : Z) (nextURL : string) (fetched : Z) : bool :=
  String.eqb nextURL "" || (negb (maxPages =? 0) && (maxPages <=? fetched)).

(** The state in which [GetItems] enters its loop. *)
Definition initialState (c : Scraper) (w : World) : LoopState :=
  {| ls_c := c; ls_items := []; ls_pageURL := URL c; ls_currentPage := 0; ls_world := w |}.


(** A field that the second loop of the closure resolves. *)
Definition onSubpage (f : Field) : bool :=
  negb (String.eqb (OnSubpage f) "") && String.eqb (Value f) "".

(** The document that a field of the second loop is read from: the
    one in the cache, or the one fetched and read, which then joins
    the cache.  [None]: the fetch or the reading failed. *)
Definition subpageDoc `{Ext : External} (c : Scraper) (globalConfig : GlobalConfig)
    (subDocs : gmap string Node) (w : World) (subpageURL : string)
    : option (Node * gmap string Node) * World :=
  match subDocs !! subpageURL with
  | Some subDoc => (Some (subDoc, subDocs), w)
  | None =>
      let '((subRes, err), w') := doFetch c globalConfig FetchSubpage subpageURL w in
      match err with
      | Some _ => (None, w')
      | None =>
          let '(subDoc, err) := NewDocumentFromReader subRes in
          match err with
          | Some _ => (None, w')
          | None => (Some (subDoc, <[subpageURL := subDoc]> subDocs), w')
          end
      end
  end.

(** The second loop of the closure run over the fields [fields],
    with the cache of subpages as the loop leaves it. *)
Fixpoint subpageLoop `{Ext : External} (c : Scraper) (globalConfig : GlobalConfig)
    (fields : list Field) (currentItem : ItemMap) (subDocs : gmap string Node) (w : World)
    : outcome (option (ItemMap * gmap string Node) * World) :=
  match fields with
  | [] => Returns (Some (currentItem, subDocs), w)
  | f :: rest =>
      if onSubpage f then
        match subpageDoc c globalConfig subDocs w (Sprint (currentItem !! OnSubpage f)) with
        | (None, w') => Returns (None, w')
        | (Some (subDoc, subDocs'), w') =>
            '(_, currentItem', err) ← extractField f currentItem [subDoc] (URL c);
            match err with
            | Some _ => Returns (None, w')
            | None => subpageLoop c globalConfig rest currentItem' subDocs' w'
            end
        end
      else subpageLoop c globalConfig rest currentItem subDocs w
  end.

(** *** The API sink *)

(** The two fields of a record that the sink reads. *)
Definition sourceOf (item : ItemMap) : option string :=
  match item !! "sourceUrl" with
  | Some (AString src) => Some src
  | _ => None
  end.

Definition dateOf (item : ItemMap) : option time_Time :=
  match item !! "date" with
  | Some (ATime t) => Some t
  | _ => None
  end.

(** A record as the sink assumes it: a string under "sourceUrl" and a
    timestamp under "date". *)
Definition wellFormed (item : ItemMap) : Prop :=
  is_Some (sourceOf item) /\ is_Some (dateOf item).



(** The batches posted in a trace, in order. *)
Definition batchesOf (trace : list ApiCall) : list (list ItemMap) :=
  omap (fun a => match a with PostCall batch => Some batch | DeleteCall _ _ => None end) trace.

(** An API that takes every request: the URLs are accepted, the
    batches are encoded, a DELETE is answered with 200 and a POST
    with 201. *)
Definition cooperative `{Net : Network} : Prop :=
  (forall url, acceptsURL url = true)
  /\ (forall batch, snd (json_Marshal batch) = None)
  /\ (forall history req, Method req = "DELETE" ->
                          exists resp, Do history req = inl resp /\ StatusCode resp = 200)
  /\ (forall history req, Method req = "POST" ->
                          exists resp, Do history req = inl resp /\ StatusCode resp = 201).

(** The DELETE of a source in the words of the specification: to
    the endpoint, keyed by the source and by the date of the record in
    UTC, as year-month-day hour:minute, both escaped for a query; with
    the credentials. *)
Definition expectedDelete `{Net : Network} (wc : WriterConfig) (src : string) (t : time_Time)
    : Request :=
  {| Method := "DELETE";
     Request_URL := Uri wc +:+ "?sourceUrl=" +:+ QueryEscape src +:+ "&datetime="
                    +:+ QueryEscape (UTC_Format t "2006-01-02 15:04");
     Body := None;
     Header := [];
     BasicAuth := Some (User wc, Password wc) |}.

(** The POST of a batch: to the endpoint, with the JSON encoding of
    the list of its records as the body, declared as JSON; with the
    credentials. *)
Definition expectedPost `{Net : Network} (wc : WriterConfig) (batch : list ItemMap) : Request :=
  {| Method := "POST";
     Request_URL := Uri wc;
     Body := Some (fst (json_Marshal batch));
     Header := [("Content-Type", ["application/json"])];
     BasicAuth := Some (User wc, Password wc) |}.

Definition expectedRequest `{Net : Network} (wc : WriterConfig) (a : ApiCall) : Request :=
  match a with
  | DeleteCall src t => expectedDelete wc src t
  | PostCall batch => expectedPost wc batch
  end.

(** An API that serves the sink: the URLs are accepted, the batches
    are encoded, and after requests of the two kinds above a DELETE of
    that kind is answered with 200 and a POST of that kind with 201.
    Nothing is asked of the answers to any other request. *)
Definition serves `{Net : Network} (wc : WriterConfig) : Prop :=
  (forall url, acceptsURL url = true)
  /\ (forall batch, snd (json_Marshal batch) = None)
  /\ (forall trace src t,
        exists resp, Do (map (expectedRequest wc) trace) (expectedDelete wc src t) = inl resp
                     /\ StatusCode resp = 200)
  /\ (forall trace batch,
        exists resp, Do (map (expectedRequest wc) trace) (expectedPost wc batch) = inl resp
                     /\ StatusCode resp = 201).



(** The sources of these records have their DELETE in the trace. *)
Definition deleted (trace : list ApiCall) (records : list ItemMap) : Prop :=
  forall item src,
    In item records ->
    sourceOf item = Some src ->
    exists j t, trace !! j = Some (DeleteCall src t).



(** The state in which [Write] enters its loop. *)
Definition initialSink : SinkState :=
  {| deletedSources := ∅; nrItems := 0; batch := []; trace := [] |}.

(** ** Data for the examples *)

Module Sample.
Import TestEnv.

(** A location that selects by tag name and takes every default. *)
Definition at_ (selector : string) : ElementLocation :=
  {| Selector := selector; NodeIndex := 0; ChildIndex := 0;
     RegexExtract := {| Exp := EmptyString; Index := 0 |};
     Attr := EmptyString; MaxLength := 0; EntireSubtree := false |}.

Definition field (name type : string) (location : ElementLocation) : Field :=
  {| Field_Name := name; Value := EmptyString; Field_Type := type;
     Field_ElementLocation := location; OnSubpage := EmptyString; CanBeEmpty := false;
     Components := []; DateLocation := EmptyString; DateLanguage := EmptyString; Hide := false |}.

Definition href (target : string) : list Attribute := [{| Key := "href"; Val := target |}].

(** An item node with a link to [target]. *)
Definition linkItem (target : string) : Node :=
  element "li" [] [element "a" (href target) [text "more"]].

Definition baseURL : string := "https://x.test/a/b".

Definition base : url_URL := {| Scheme := "https"; Host := "x.test"; Path := "/a/b" |}.

(** A date component that reads the text of the first [selector] node. *)
Definition component (day month year time : bool) (selector : string) (layouts : list string)
    : DateComponent :=
  {| Covers := {| Day := day; Month := month; Year := year; Time := time |};
     DateComponent_ElementLocation := at_ selector;
     Layout := layouts |}.

Definition dateField (components : list DateComponent) : Field :=
  {| Field_Name := "date"; Value := EmptyString; Field_Type := "date";
     Field_ElementLocation := at_ EmptyString; OnSubpage := EmptyString; CanBeEmpty := false;
     Components := components; DateLocation := "Europe/Berlin"; DateLanguage := EmptyString;
     Hide := false |}.

(** An item node with a date in a [span] and a time in an [em]; an
    empty string stands for an element without text. *)
Definition event (date time : string) : Node :=
  let content (data : string) := if String.eqb data "" then [] else [text data] in
  element "li" [] [element "span" [] (content date); element "em" [] (content time)].

(** A scraper of the list items of the site at [url], which follows
    the first link of a page to the next one. *)
Definition scraper (url : string) (fields : list Field) (filters : list Filter) (maxPages : Z)
    : Scraper :=
  {| Scraper_Name := "sample"; URL := url; Item := "li"; ExcludeWithSelector := [];
     Fields := fields; Filters := filters;
     Scraper_Paginator := {| Location := at_ "a"; MaxPages := maxPages |};
     RenderJs := false |}.

(** A site of three pages of concerts, each page but the last with a
    link to the next; the second concert of the first page has no
    title. *)
Definition titleField : Field := field "title" "text" (at_ "span").

Definition concert (title : string) : Node :=
  element "li" [] [element "span" [] (if String.eqb title "" then [] else [text title])].

Definition nextLink (target : string) : Node := element "a" (href target) [text "next"].

Definition page1 : Page :=
  {| page_url := "https://x.test/p1";
     page_markup := "<li><span>Jazz night</span></li><li><span></span></li><li><span>Folk evening</span></li><a href=/p2>next</a>";
     page_tree := document [concert "Jazz night"; concert ""; concert "Folk evening"; nextLink "/p2"] |}.

Definition page2 : Page :=
  {| page_url := "https://x.test/p2";
     page_markup := "<li><span>Blues brunch</span></li><a href=/p3>next</a>";
     page_tree := document [concert "Blues brunch"; nextLink "/p3"] |}.

Definition page3 : Page :=
  {| page_url := "https://x.test/p3";
     page_markup := "<li><span>Late show</span></li>";
     page_tree := document [concert "Late show"] |}.

Definition site : list Page := [page1; page2; page3].


Definition titled (title : string) : ItemMap := <["title" := AString title]> ∅.

Definition config : GlobalConfig := {| UserAgent := "sample" |}.

(** Records for the API sink. *)
Definition utc (year month day hour minute : Z) : time_Time :=
  {| t_year := year; t_month := month; t_day := day; t_hour := hour; t_minute := minute;
     t_second := 0; t_location := {| loc_name := "UTC" |} |}.

Definition record (sourceUrl title : string) (date : time_Time) : ItemMap :=
  <["sourceUrl" := AString sourceUrl]> (<["date" := ATime date]> (<["title" := AString title]> ∅)).

Definition records : list ItemMap :=
  [record "https://a.test" "Jazz night" (utc 2024 4 12 18 30);
   record "https://b.test" "Folk evening" (utc 2024 4 13 20 0);
   record "https://a.test" "Blues brunch" (utc 2024 4 14 11 0)].

Definition writer : WriterConfig :=
  {| Uri := "https://api.test/concerts"; User := "user"; Password := "secret" |}.

(** What the test engine compiles a pattern without metacharacters to. *)
Definition literal (pattern : string) : list atom := map Lit (list_ascii_of_string pattern).

Definition berlin (year month day hour minute : Z) : time_Time :=
  {| t_year := year; t_month := month; t_day := day; t_hour := hour; t_minute := minute;
     t_second := 0; t_location := {| loc_name := "Europe/Berlin" |} |}.

End Sample.

(** ** Definitions for the further properties *)

Definition set_NodeIndex (i : Z) (e : ElementLocation) : ElementLocation :=
  {| Selector := Selector e; NodeIndex := i; ChildIndex := ChildIndex e;
     RegexExtract := RegexExtract e; Attr := Attr e; MaxLength := MaxLength e;
     EntireSubtree := EntireSubtree e |}.

(** Some field with this name is marked as hidden. *)
Definition hiddenKey (c : Scraper) (key : string) : bool :=
  existsb (fun f => Hide f && String.eqb (Field_Name f) key) (Fields c).

(** The number of layouts the fragments combine to. *)
Definition layoutCount (parts : list datePart) : nat :=
  fold_right (fun dp n => (length (layoutParts dp) * n)%nat) 1%nat parts.

(** The text of a child node as the loop over the children returns
    it: trimmed, then shortened when a maximal length is set. *)
Definition shaped `{Ext : External} (t : ElementLocation) (text : string) : string :=
  if MaxLength t >? 0 then ShortenString (TrimSpace text) (MaxLength t) else TrimSpace text.

(** The key is the name of a field of the scraper. *)
Definition namesField (c : Scraper) (key : string) : Prop :=
  exists f, In f (Fields c) /\ Field_Name f = key.

(** An item of the output: a record with no keys but names of
    fields, that passed the filters, with its hidden fields removed. *)
Definition passedFilter `{Ext : External} (c : Scraper) (item : ItemMap) : Prop :=
  exists raw, item = removeHiddenFields c raw
              /\ filterItem c raw = (true, None)
              /\ forall key, is_Some (raw !! key) -> namesField c key.

(** The item nodes that no exclude selector rules out. *)
Definition candidates `{Ext : External} (c : Scraper) (nodes : list Node) : list Node :=
  List.filter (fun n => negb (excluded c [n])) nodes.

(** What a pass through the loop of GetItems leaves behind: the
    fields and filters of the scraper [c] are those of the state it
    started from, the items extend those gathered before by records
    that passed the filters, and the fetches those made before by the
    fetch of the page and what follows it. *)
Definition extends `{Ext : External} (st : LoopState) (c : Scraper) (items : list ItemMap)
    (w : World) : Prop :=
  Fields c = Fields (ls_c st)
  /\ Filters c = Filters (ls_c st)
  /\ (exists new, items = ls_items st ++ new /\ Forall (passedFilter (ls_c st)) new)
  /\ exists more, w = ls_world st ++ FetchPage (ls_pageURL st) :: more.

Definition set_Components (components : list DateComponent) (f : Field) : Field :=
  {| Field_Name := Field_Name f; Value := Value f; Field_Type := Field_Type f;
     Field_ElementLocation := Field_ElementLocation f; OnSubpage := OnSubpage f;
     CanBeEmpty := CanBeEmpty f; Components := components; DateLocation := DateLocation f;
     DateLanguage := DateLanguage f; Hide := Hide f |}.

(** ** More data for the examples *)

Module Fixtures.
Import TestEnv.

(** A page of details with a venue and a price. *)
Definition detail (url venue price : string) : Page :=
  {| page_url := url;
     page_markup := "<h2>" +:+ venue +:+ "</h2><b>" +:+ price +:+ "</b>";
     page_tree := document [element "h2" [] [text venue]; element "b" [] [text price]] |}.

(** A listing whose two items link to their pages of details. *)
Definition listing : Page :=
  {| page_url := "https://x.test/list";
     page_markup := "<li><a href=/d1>more</a></li><li><a href=/d2>more</a></li>";
     page_tree := document [Sample.linkItem "/d1"; Sample.linkItem "/d2"] |}.

Definition site : list Page :=
  [listing; detail "https://x.test/d1" "Moods" "20 CHF"; detail "https://x.test/d2" "Mehrspur" "15 CHF"].

Definition onPage (page : string) (f : Field) : Field :=
  {| Field_Name := Field_Name f; Value := Value f; Field_Type := Field_Type f;
     Field_ElementLocation := Field_ElementLocation f; OnSubpage := page;
     CanBeEmpty := CanBeEmpty f; Components := Components f; DateLocation := DateLocation f;
     DateLanguage := DateLanguage f; Hide := Hide f |}.

Definition hidden (f : Field) : Field :=
  {| Field_Name := Field_Name f; Value := Value f; Field_Type := Field_Type f;
     Field_ElementLocation := Field_ElementLocation f; OnSubpage := OnSubpage f;
     CanBeEmpty := CanBeEmpty f; Components := Components f; DateLocation := DateLocation f;
     DateLanguage := DateLanguage f; Hide := true |}.

(** The link of an item, hidden in the output, and two fields read
    from the page it leads to. *)
Definition detailFields : list Field :=
  [hidden (Sample.field "url" "url" (Sample.at_ "a"));
   onPage "url" (Sample.field "venue" "text" (Sample.at_ "h2"));
   onPage "url" (Sample.field "price" "text" (Sample.at_ "b"))].

(** A scraper of the listing that has no next page to follow and
    keeps the items whose link, a hidden field, leads to [d1]. *)
Definition scraper : Scraper :=
  {| Scraper_Name := "details"; URL := "https://x.test/list"; Item := "li";
     ExcludeWithSelector := [];
     Fields := detailFields;
     Filters := [{| Filter_Field := "url"; Regex := "d1"; Match := true |}];
     Scraper_Paginator := {| Location := Sample.at_ "nav"; MaxPages := 0 |};
     RenderJs := false |}.

Definition details (venue price : string) : ItemMap :=
  <["price" := AString price]> (<["venue" := AString venue]> ∅).

(** The link, the venue and the supporting act, which no page of
    details names. *)
Definition supportFields : list Field :=
  [hidden (Sample.field "url" "url" (Sample.at_ "a"));
   onPage "url" (Sample.field "venue" "text" (Sample.at_ "h2"));
   onPage "url" (Sample.field "support" "text" (Sample.at_ "h3"))].

Definition scraperOf (fields : list Field) : Scraper :=
  {| Scraper_Name := "details"; URL := "https://x.test/list"; Item := "li";
     ExcludeWithSelector := [];
     Fields := fields;
     Filters := [];
     Scraper_Paginator := {| Location := Sample.at_ "nav"; MaxPages := 0 |};
     RenderJs := false |}.

End Fixtures.

(** * Properties *)

(** ** The [outcome] monad and the run-time helpers *)

Lemma bind_Returns {A B : Type} (a : A) (k : A -> outcome B) : (Returns a ≫= k) = k a.
Proof. reflexivity. Qed.

Lemma bind_inv {A B : Type} (m : outcome A) (k : A -> outcome B) (b : B) :
  (m ≫= k) = Returns b -> exists a, m = Returns a /\ k a = Returns b.
Proof. destruct m as [a | msg | msg]; simpl; intros Hk; [eauto | discriminate..]. Qed.

Lemma len_nonneg {A : Type} (l : list A) : 0 <= len l.
Proof. unfold len. lia. Qed.

Lemma len_app {A : Type} (l1 l2 : list A) : len (l1 ++ l2) = len l1 + len l2.
Proof. unfold len. rewrite length_app. lia. Qed.

Lemma wrap_small (z : Z) : - 2 ^ 63 <= z < 2 ^ 63 -> wrap z = z.
Proof.
  intros Hz. unfold wrap.
  rewrite Z.mod_small; lia.
Qed.

Lemma index_slice_in_range {A : Type} (l : list A) (i : Z) :
  0 <= i < len l -> exists a, l !! Z.to_nat i = Some a /\ index_slice l i = Returns a.
Proof.
  intros Hi. unfold index_slice.
  destruct (l !! Z.to_nat i) as [a |] eqn:Hl.
  - exists a. split; [reflexivity |].
    replace (0 <=? i) with true by (symmetry; apply Z.leb_le; lia).
    replace (i <? len l) with true by (symmetry; apply Z.ltb_lt; lia).
    reflexivity.
  - apply lookup_ge_None in Hl. unfold len in Hi. lia.
Qed.

Lemma index_slice_negative {A : Type} (l : list A) (i : Z) :
  i < 0 -> index_slice l i = Panics "runtime error: index out of range".
Proof.
  intros Hi. unfold index_slice.
  replace (0 <=? i) with false by (symmetry; apply Z.leb_gt; lia).
  reflexivity.
Qed.

Lemma eqb_empty_false (s : string) : s <> EmptyString -> String.eqb s "" = false.
Proof. intros Hs. apply String.eqb_neq. exact Hs. Qed.

(** ** extractStringRegex *)

Section RegexExtraction.
Context `{Ext : External}.
Variables (rc : RegexConfig) (s : string) (regex : Regexp) (matchingStrings : list string).
Hypothesis Hexp : Exp rc <> EmptyString.
Hypothesis Hcompile : regexp_Compile (Exp rc) = inl regex.
Hypothesis Hmatches : FindAllString regex s (-1) = matchingStrings.

(** A pattern without a match is an error. *)
Lemma extractStringRegex_no_match :
  matchingStrings = [] ->
  extractStringRegex rc s
  = Returns (EmptyString, Some ("no matching strings found for regex: " +:+ Exp rc)).
Proof.
  intros Hnone. unfold extractStringRegex.
  rewrite eqb_empty_false, Hcompile by exact Hexp.
  rewrite Hmatches, Hnone. reflexivity.
Qed.

(** The index -1 selects the last match. *)
Lemma extractStringRegex_last (init : list string) (last : string) :
  matchingStrings = init ++ [last] ->
  Z.of_nat (length matchingStrings) <= maxInt ->
  Index rc = -1 ->
  extractStringRegex rc s = Returns (last, None).
Proof.
  intros Hms Hlen Hidx. unfold extractStringRegex.
  rewrite eqb_empty_false, Hcompile by exact Hexp.
  rewrite Hmatches, Hidx.
  assert (Hl : len matchingStrings = len init + 1) by (rewrite Hms, len_app; reflexivity).
  pose proof (len_nonneg init) as Hinit.
  replace (len matchingStrings =? 0) with false by (symmetry; apply Z.eqb_neq; lia).
  simpl (-1 =? -1).
  rewrite wrap_small by (unfold maxInt, len in *; lia).
  destruct (index_slice_in_range matchingStrings (len matchingStrings - 1)) as (a & Ha & ->);
    [lia |].
  replace (Z.to_nat (len matchingStrings - 1)) with (length init + 0)%nat in Ha
    by (unfold len in *; lia).
  rewrite Hms, lookup_app_r in Ha by lia.
  replace (length init + 0 - length init)%nat with 0%nat in Ha by lia.
  simpl in Ha. injection Ha as <-. reflexivity.
Qed.

(** An index at or beyond the number of matches is an error. *)
Lemma extractStringRegex_out_of_bounds :
  matchingStrings <> [] ->
  Index rc <> -1 ->
  len matchingStrings <= Index rc ->
  extractStringRegex rc s
  = Returns (EmptyString,
             Some ("regex index out of bounds. regex '" +:+ Exp rc +:+ "' gave only "
                   +:+ Itoa (len matchingStrings) +:+ " matches")).
Proof.
  intros Hsome Hidx Hge. unfold extractStringRegex.
  rewrite eqb_empty_false, Hcompile by exact Hexp.
  rewrite Hmatches.
  replace (len matchingStrings =? 0) with false
    by (symmetry; apply Z.eqb_neq; unfold len; destruct matchingStrings; [congruence | simpl; lia]).
  replace (Index rc =? -1) with false by (symmetry; apply Z.eqb_neq; exact Hidx).
  replace (Index rc >=? len matchingStrings) with true by (symmetry; apply Z.geb_le; lia).
  reflexivity.
Qed.

(** An index inside the matches selects that match. *)
Lemma extractStringRegex_at_index :
  0 <= Index rc < len matchingStrings ->
  exists m, matchingStrings !! Z.to_nat (Index rc) = Some m
            /\ extractStringRegex rc s = Returns (m, None).
Proof.
  intros Hidx. unfold extractStringRegex.
  rewrite eqb_empty_false, Hcompile by exact Hexp.
  rewrite Hmatches.
  replace (len matchingStrings =? 0) with false by (symmetry; apply Z.eqb_neq; lia).
  replace (Index rc =? -1) with false by (symmetry; apply Z.eqb_neq; lia).
  replace (Index rc >=? len matchingStrings) with false
    by (symmetry; rewrite Z.geb_leb; apply Z.leb_gt; lia).
  destruct (index_slice_in_range matchingStrings (Index rc) Hidx) as (m & Hm & ->).
  exists m. split; [exact Hm | reflexivity].
Qed.

(** An index below -1 passes the bound check and indexes the slice:
    the program panics. *)
Lemma extractStringRegex_below_minus_one :
  matchingStrings <> [] ->
  Index rc < -1 ->
  extractStringRegex rc s = Panics "runtime error: index out of range".
Proof.
  intros Hsome Hidx. unfold extractStringRegex.
  rewrite eqb_empty_false, Hcompile by exact Hexp.
  rewrite Hmatches.
  replace (len matchingStrings =? 0) with false
    by (symmetry; apply Z.eqb_neq; unfold len; destruct matchingStrings; [congruence | simpl; lia]).
  replace (Index rc =? -1) with false by (symmetry; apply Z.eqb_neq; lia).
  pose proof (len_nonneg matchingStrings).
  replace (Index rc >=? len matchingStrings) with false
    by (symmetry; rewrite Z.geb_leb; apply Z.leb_gt; lia).
  rewrite index_slice_negative by lia. reflexivity.
Qed.

End RegexExtraction.

(** A pattern that does not compile is an error as well. *)
Lemma extractStringRegex_compile_error `{Ext : External} (rc : RegexConfig) (s err : string) :
  Exp rc <> EmptyString ->
  regexp_Compile (Exp rc) = inr err ->
  extractStringRegex rc s = Returns (EmptyString, Some err).
Proof.
  intros Hexp Hcompile. unfold extractStringRegex.
  rewrite eqb_empty_false, Hcompile by exact Hexp. reflexivity.
Qed.

(** The examples of the specification, run through the test engine:
    three matches, the last one for index -1, an error for index 5. *)
Example extractStringRegex_examples :
  let E := TestEnv.env [] 2024 in
  FindAllString (External := E) [TestEnv.Lit "a"; TestEnv.Class false [("0", "9")]%char] "a1 a2 a3" (-1)
  = ["a1"; "a2"; "a3"]
  /\ extractStringRegex {| Exp := "a[0-9]"; Index := -1 |} "a1 a2 a3" = Returns ("a3", None)
  /\ extractStringRegex {| Exp := "a[0-9]"; Index := 5 |} "a1 a2 a3"
     = Returns (EmptyString, Some "regex index out of bounds. regex 'a[0-9]' gave only 3 matches")
  /\ extractStringRegex {| Exp := "a[0-9]"; Index := 1 |} "a1 a2 a3" = Returns ("a2", None)
  /\ extractStringRegex {| Exp := "b[0-9]"; Index := 0 |} "a1 a2 a3"
     = Returns (EmptyString, Some "no matching strings found for regex: b[0-9]").
Proof. vm_compute. repeat split. Qed.

(** C6. A regex-extract index is meant to select an existing match or
    to make the extraction fail with an error.  With index -2 and the
    three matches a1, a2, a3 the extraction does neither: the bound
    check lets the index through and the program panics. *)
Theorem extractStringRegex_index_minus_two_panics :
  extractStringRegex (Ext := TestEnv.env [] 2024) {| Exp := "a[0-9]"; Index := -2 |} "a1 a2 a3"
  = Panics "runtime error: index out of range".
Proof. vm_compute. reflexivity. Qed.

(** ** White space *)

Lemma append_cons (x : ascii) (a b : string) : String x a +:+ b = String x (a +:+ b).
Proof. reflexivity. Qed.

Lemma append_empty_l (b : string) : EmptyString +:+ b = b.
Proof. reflexivity. Qed.

Lemma append_assoc (a b c : string) : (a +:+ b) +:+ c = a +:+ (b +:+ c).
Proof.
  induction a as [| x a IH]; [reflexivity |].
  rewrite !append_cons, IH. reflexivity.
Qed.

Lemma append_empty_r (a : string) : a +:+ EmptyString = a.
Proof. induction a as [| x a IH]; [reflexivity |]. rewrite append_cons, IH. reflexivity. Qed.

Lemma length_append (a b : string) :
  String.length (a +:+ b) = (String.length a + String.length b)%nat.
Proof.
  induction a as [| x a IH]; [reflexivity |].
  rewrite append_cons. cbn [String.length]. rewrite IH. reflexivity.
Qed.

Lemma allSpace_app (a b : string) : allSpace (a +:+ b) = allSpace a && allSpace b.
Proof.
  induction a as [| c a IH]; [reflexivity |].
  rewrite append_cons. cbn [allSpace]. rewrite IH. apply andb_assoc.
Qed.

Lemma reverseOnto_app (s acc : string) : reverseOnto s acc = reverse s +:+ acc.
Proof.
  unfold reverse. revert acc. induction s as [| c s IH]; intros acc; [reflexivity |].
  cbn [reverseOnto]. rewrite (IH (String c acc)), (IH (String c EmptyString)), append_assoc.
  reflexivity.
Qed.

Lemma reverse_cons (c : ascii) (s : string) : reverse (String c s) = reverse s +:+ String c EmptyString.
Proof. unfold reverse at 1. cbn [reverseOnto]. apply reverseOnto_app. Qed.

Lemma reverse_app (a b : string) : reverse (a +:+ b) = reverse b +:+ reverse a.
Proof.
  induction a as [| c a IH]; [rewrite append_empty_l, append_empty_r; reflexivity |].
  rewrite append_cons, !reverse_cons, IH, append_assoc. reflexivity.
Qed.

Lemma reverse_involutive (s : string) : reverse (reverse s) = s.
Proof.
  induction s as [| c s IH]; [reflexivity |].
  rewrite reverse_cons, reverse_app, IH. reflexivity.
Qed.

Lemma length_reverse (s : string) : String.length (reverse s) = String.length s.
Proof.
  induction s as [| c s IH]; [reflexivity |].
  rewrite reverse_cons, length_append, IH. cbn [String.length]. lia.
Qed.

Lemma allSpace_reverse (s : string) : allSpace (reverse s) = allSpace s.
Proof.
  induction s as [| c s IH]; [reflexivity |].
  rewrite reverse_cons, allSpace_app, IH. cbn [allSpace]. rewrite andb_true_r. apply andb_comm.
Qed.

(** What [dropSpace] drops is one to three bytes of white space. *)
Lemma dropSpace_Some (backwards : bool) (s rest : string) :
  dropSpace backwards s = Some rest ->
  exists head, s = head +:+ rest
               /\ allSpace head = true
               /\ (1 <= String.length head <= 3)%nat.
Proof.
  assert (H2 : forall a b, isSpace2 a b = true ->
                           Nat.leb 128 (nat_of_ascii a) = true /\ Nat.leb 128 (nat_of_ascii b) = true).
  { intros a b H. unfold isSpace2 in H. apply andb_prop in H as [Ha Hb].
    apply Nat.eqb_eq in Ha. rewrite Ha. split; [reflexivity |].
    apply orb_prop in Hb as [Hb | Hb]; apply Nat.eqb_eq in Hb; rewrite Hb; reflexivity. }
  assert (H3 : forall a b c, isSpace3 a b c = true ->
                             Nat.leb 128 (nat_of_ascii a) = true
                             /\ Nat.leb 128 (nat_of_ascii b) = true
                             /\ Nat.leb 128 (nat_of_ascii c) = true).
  { intros a b c H. unfold isSpace3 in H.
    rewrite !orb_true_iff, !andb_true_iff, !orb_true_iff, !andb_true_iff,
      !Nat.eqb_eq, !Nat.leb_le in H.
    rewrite !Nat.leb_le. lia. }
  unfold dropSpace. destruct s as [| a s1]; [discriminate |].
  destruct (isSpace a) eqn:Ha.
  { intros [= <-]. exists (String a EmptyString). split; [reflexivity |].
    split; [cbn [allSpace]; rewrite Ha; reflexivity | cbn; lia]. }
  destruct s1 as [| b s2]; [discriminate |].
  destruct (if backwards then isSpace2 b a else isSpace2 a b) eqn:Hab.
  { intros [= <-]. exists (String a (String b EmptyString)). split; [reflexivity |].
    split; [| cbn; lia].
    assert (Hhigh : Nat.leb 128 (nat_of_ascii a) = true /\ Nat.leb 128 (nat_of_ascii b) = true)
      by (destruct backwards; apply H2 in Hab; tauto).
    cbn [allSpace]. destruct Hhigh as [-> ->]. rewrite !orb_true_r. reflexivity. }
  destruct s2 as [| c s3]; [discriminate |].
  destruct (if backwards then isSpace3 c b a else isSpace3 a b c) eqn:Habc; [| discriminate].
  intros [= <-]. exists (String a (String b (String c EmptyString))). split; [reflexivity |].
  split; [| cbn; lia].
  assert (Hhigh : Nat.leb 128 (nat_of_ascii a) = true /\ Nat.leb 128 (nat_of_ascii b) = true
                  /\ Nat.leb 128 (nat_of_ascii c) = true)
    by (destruct backwards; apply H3 in Habc; tauto).
  cbn [allSpace]. destruct Hhigh as (-> & -> & ->). rewrite !orb_true_r. reflexivity.
Qed.

(** White space at the head of a string is at the head of every
    string that starts with it. *)
Lemma dropSpace_None_app (backwards : bool) (s more : string) :
  dropSpace backwards (s +:+ more) = None -> dropSpace backwards s = None.
Proof.
  destruct s as [| a s1]; [reflexivity |].
  rewrite append_cons. cbn [dropSpace]. destruct (isSpace a); [discriminate |].
  destruct s1 as [| b s2]; [reflexivity |].
  rewrite append_cons. destruct (if backwards then isSpace2 b a else isSpace2 a b); [discriminate |].
  destruct s2 as [| c s3]; [reflexivity |].
  rewrite append_cons.
  destruct (if backwards then isSpace3 c b a else isSpace3 a b c); [discriminate | reflexivity].
Qed.

Lemma trimHead_split (backwards : bool) (fuel : nat) (s : string) :
  exists head, s = head +:+ trimHead backwards fuel s /\ allSpace head = true.
Proof.
  revert s. induction fuel as [| fuel IH]; intros s; [exists EmptyString; split; reflexivity |].
  cbn [trimHead]. destruct (dropSpace backwards s) as [rest |] eqn:Hdrop;
    [| exists EmptyString; split; reflexivity].
  apply dropSpace_Some in Hdrop as (head & -> & Hhead & _).
  destruct (IH rest) as (head' & Hrest & Hhead').
  exists (head +:+ head'). rewrite append_assoc, <- Hrest, allSpace_app, Hhead, Hhead'.
  split; reflexivity.
Qed.

(** With fuel for every byte nothing is left to drop. *)
Lemma trimHead_done (backwards : bool) (fuel : nat) (s : string) :
  (String.length s <= fuel)%nat -> dropSpace backwards (trimHead backwards fuel s) = None.
Proof.
  revert s. induction fuel as [| fuel IH]; intros s Hlen.
  - destruct s; [reflexivity | cbn in Hlen; lia].
  - cbn [trimHead]. destruct (dropSpace backwards s) as [rest |] eqn:Hdrop; [| exact Hdrop].
    apply IH. apply dropSpace_Some in Hdrop as (head & -> & _ & Hhead).
    rewrite length_append in Hlen. lia.
Qed.

Lemma trimHead_fixed (backwards : bool) (fuel : nat) (s : string) :
  dropSpace backwards s = None -> trimHead backwards fuel s = s.
Proof. intros Hnone. destruct fuel; [reflexivity |]. cbn [trimHead]. rewrite Hnone. reflexivity. Qed.

Lemma TrimLeftSpace_empty (s : string) : TrimLeftSpace s = EmptyString -> allSpace s = true.
Proof.
  unfold TrimLeftSpace. intros Hempty.
  destruct (trimHead_split false (String.length s) s) as (head & Hs & Hhead).
  rewrite Hempty, append_empty_r in Hs. rewrite Hs. exact Hhead.
Qed.

Lemma TrimLeftSpace_allSpace (s : string) : allSpace (TrimLeftSpace s) = true -> allSpace s = true.
Proof.
  unfold TrimLeftSpace. intros Hrest.
  destruct (trimHead_split false (String.length s) s) as (head & Hs & Hhead).
  rewrite Hs, allSpace_app, Hhead, Hrest. reflexivity.
Qed.

Lemma TrimRightSpace_empty (s : string) : TrimRightSpace s = EmptyString -> allSpace s = true.
Proof.
  unfold TrimRightSpace. intros Hempty.
  destruct (trimHead_split true (String.length s) (reverse s)) as (head & Hs & Hhead).
  apply (f_equal reverse) in Hempty. rewrite reverse_involutive in Hempty.
  rewrite Hempty in Hs. change (reverse "") with EmptyString in Hs. rewrite append_empty_r in Hs.
  rewrite <- allSpace_reverse, Hs. exact Hhead.
Qed.

(** Trimming leaves something of every string with an ASCII byte
    that is not white space. *)
Lemma TrimSpace_nonempty (s : string) : allSpace s = false -> TrimSpace s <> EmptyString.
Proof.
  intros Hs Htrim. unfold TrimSpace in Htrim.
  apply TrimRightSpace_empty, TrimLeftSpace_allSpace in Htrim. congruence.
Qed.

Lemma allSpace_prefix (p s : string) : String.prefix p s = true -> allSpace p = false -> allSpace s = false.
Proof.
  revert s. induction p as [| c p IH]; intros s Hp Hc; [discriminate |].
  destruct s as [| d s]; [discriminate |].
  cbn [String.prefix] in Hp. destruct (ascii_dec c d) as [-> |]; [| discriminate].
  cbn [allSpace] in *. destruct (isSpace d || Nat.leb 128 (nat_of_ascii d));
    [apply (IH s Hp Hc) | reflexivity].
Qed.

Lemma TrimSpace_idempotent (s : string) : TrimSpace (TrimSpace s) = TrimSpace s.
Proof.
  unfold TrimSpace.
  set (x := TrimLeftSpace s).
  assert (Hx : dropSpace false x = None) by (apply trimHead_done; lia).
  set (t := trimHead true (String.length x) (reverse x)).
  assert (Ht : dropSpace true t = None)
    by (apply trimHead_done; rewrite length_reverse; lia).
  assert (Hy : TrimRightSpace x = reverse t) by reflexivity.
  rewrite Hy.
  assert (Hprefix : exists more, x = reverse t +:+ more).
  { destruct (trimHead_split true (String.length x) (reverse x)) as (head & Hsplit & _).
    fold t in Hsplit. exists (reverse head).
    rewrite <- reverse_app, <- Hsplit, reverse_involutive. reflexivity. }
  destruct Hprefix as (more & Hmore).
  assert (Hleft : TrimLeftSpace (reverse t) = reverse t).
  { unfold TrimLeftSpace. apply trimHead_fixed.
    apply (dropSpace_None_app false _ more). rewrite <- Hmore. exact Hx. }
  rewrite Hleft. unfold TrimRightSpace. rewrite reverse_involutive, trimHead_fixed by exact Ht.
  reflexivity.
Qed.

(** A no-break space (U+00A0) and a line separator (U+2028) are cut
    like a blank; a byte that is no code point of its own stays. *)
Example TrimSpace_examples :
  TrimSpace "  Jazz night " = "Jazz night"
  /\ TrimSpace (String (ascii_of_nat 194) (String (ascii_of_nat 160) " a ")) = "a"
  /\ TrimSpace ("a" +:+ String (ascii_of_nat 226) (String (ascii_of_nat 128)
                           (String (ascii_of_nat 168) EmptyString))) = "a"
  /\ TrimSpace (String (ascii_of_nat 160) "a") = String (ascii_of_nat 160) "a".
Proof. vm_compute. repeat split. Qed.

(** ** getURLString *)

Lemma HasPrefix_single (c : ascii) (s : string) :
  HasPrefix s (String c EmptyString) = true -> exists rest, s = String c rest.
Proof.
  unfold HasPrefix. destruct s as [| d rest]; [discriminate |].
  change (String.prefix (String c EmptyString) (String d rest))
    with (if ascii_dec c d then String.prefix EmptyString rest else false).
  destruct (ascii_dec c d) as [-> |]; [eauto | discriminate].
Qed.

Lemma resolveURL_resolved `{Ext : External} (urlVal baseURL : string) (u : url_URL) :
  url_Parse baseURL = Some u ->
  resolveURL urlVal baseURL = Returns (resolved u urlVal).
Proof.
  intros Hu. unfold resolveURL, resolved. rewrite Hu.
  destruct (String.eqb urlVal ""); [reflexivity |].
  destruct (HasPrefix urlVal "http"); [reflexivity |].
  destruct (HasPrefix urlVal "?"); [reflexivity |].
  destruct (HasPrefix urlVal "/"); cbn [negb deref mbind outcome_bind]; rewrite !append_assoc; reflexivity.
Qed.

(** A value that starts with [http] needs no base: it passes even
    when the page URL does not parse. *)
Lemma resolveURL_http `{Ext : External} (urlVal baseURL : string) :
  HasPrefix urlVal "http" = true ->
  resolveURL urlVal baseURL = Returns (TrimSpace urlVal).
Proof.
  intros Hp. unfold resolveURL. rewrite Hp.
  destruct urlVal; [discriminate | reflexivity].
Qed.

Lemma resolved_empty_iff (u : url_URL) (urlVal : string) :
  resolved u urlVal = EmptyString <-> urlVal = EmptyString.
Proof.
  split; [| intros ->; reflexivity].
  unfold resolved. destruct (String.eqb_spec urlVal "") as [| Hne]; [auto |].
  intros Hres. exfalso. revert Hres.
  assert (Hsep : forall rest, allSpace (Scheme u +:+ "://" +:+ rest) = false).
  { intros rest. rewrite allSpace_app, !append_cons. simpl. apply andb_false_r. }
  destruct (HasPrefix urlVal "http") eqn:Hhttp.
  - apply TrimSpace_nonempty. apply (allSpace_prefix "http"); [exact Hhttp | reflexivity].
  - destruct (HasPrefix urlVal "?"); [apply TrimSpace_nonempty, Hsep |].
    destruct (HasPrefix urlVal "/"); apply TrimSpace_nonempty, Hsep.
Qed.

Lemma getURLString_spec `{Ext : External} (e : ElementLocation) (s : Selection)
    (baseURL urlVal : string) (u : url_URL) :
  url_Parse baseURL = Some u ->
  urlValOf (withDefaultAttr e) s = Returns urlVal ->
  getURLString e s baseURL = Returns (withDefaultAttr e, resolved u urlVal).
Proof.
  intros Hu Hval. unfold getURLString. fold (withDefaultAttr e).
  rewrite Hval. simpl. rewrite (resolveURL_resolved _ _ u Hu). reflexivity.
Qed.

(** With a node index that is not negative the attribute is read
    without a panic. *)
Lemma urlValOf_returns `{Ext : External} (e : ElementLocation) (s : Selection) :
  0 <= NodeIndex e -> exists urlVal, urlValOf e s = Returns urlVal.
Proof.
  intros Hidx. unfold urlValOf.
  destruct (String.eqb (Selector e) ""); [eauto |].
  destruct (len (Find s (Selector e)) >? NodeIndex e) eqn:Hlen; [| eauto].
  unfold Selection_Get.
  replace (NodeIndex e <? 0) with false by (symmetry; apply Z.ltb_ge; lia).
  destruct (index_slice_in_range (Find s (Selector e)) (NodeIndex e)) as (n & _ & ->); [lia |].
  simpl. eauto.
Qed.

(** The resolved value is empty only for an empty raw value, so that
    a url field falls back to the page URL exactly then. *)
Lemma extractField_url `{Ext : External} (field : Field) (event : ItemMap) (s : Selection)
    (baseURL : string) (e : ElementLocation) (url : string) :
  Field_Type field = "url" ->
  getURLString (Field_ElementLocation field) s baseURL = Returns (e, url) ->
  extractField field event s baseURL
  = Returns (set_Field_ElementLocation e field,
             <[Field_Name field := AString (if String.eqb url "" then baseURL else url)]> event,
             None).
Proof.
  intros Htype Hurl. unfold extractField. rewrite Htype, Hurl. reflexivity.
Qed.

(** The examples of the specification. *)
Example resolved_examples :
  resolved Sample.base "https://y.test/z" = "https://y.test/z"
  /\ resolved Sample.base "?p=2" = "https://x.test/a/b?p=2"
  /\ resolved Sample.base "/events/1" = "https://x.test/events/1"
  /\ resolved Sample.base "events/1" = "https://x.test/events/1"
  /\ resolved Sample.base "" = "".
Proof. vm_compute. repeat split. Qed.

(** C4 (as stated) fails: a value that starts with a scheme other
    than http is not passed through but treated as a relative path. *)
Lemma getURLString_ftp_not_passed_through :
  getURLString (Ext := TestEnv.env [] 2024) (Sample.at_ "a") [Sample.linkItem "ftp://y.test/z"] Sample.baseURL
  = Returns (set_Attr "href" (Sample.at_ "a"), "https://x.test/ftp://y.test/z")
  /\ "https://x.test/ftp://y.test/z" <> "ftp://y.test/z".
Proof. split; [vm_compute; reflexivity | apply String.eqb_neq; reflexivity]. Qed.

(** C4 (as amended). URL resolution of a raw attribute value against
    a page URL that parses: a value that starts with "http" is passed
    through, trimmed of surrounding white space; a value that starts
    with "?" is appended to scheme, host and path of the page; any
    other non-empty value is appended to scheme and host, with a slash
    added unless the value starts with one; the result is empty only
    for an empty raw value.  A url field then stores the page URL
    instead, so that it is empty only if the page URL is. *)
Theorem url_field_resolution `{Ext : External} (field : Field) (event : ItemMap) (s : Selection)
    (baseURL urlVal : string) (u : url_URL) :
  Field_Type field = "url" ->
  url_Parse baseURL = Some u ->
  urlValOf (withDefaultAttr (Field_ElementLocation field)) s = Returns urlVal ->
  let e := withDefaultAttr (Field_ElementLocation field) in
  let stored := if String.eqb urlVal "" then baseURL else resolved u urlVal in
  getURLString (Field_ElementLocation field) s baseURL = Returns (e, resolved u urlVal)
  /\ (HasPrefix urlVal "http" = true -> resolved u urlVal = TrimSpace urlVal)
  /\ (HasPrefix urlVal "?" = true ->
      resolved u urlVal = TrimSpace (Scheme u +:+ "://" +:+ Host u +:+ Path u +:+ urlVal))
  /\ (urlVal <> EmptyString -> HasPrefix urlVal "http" = false -> HasPrefix urlVal "?" = false ->
      resolved u urlVal
      = TrimSpace (Scheme u +:+ "://" +:+ Host u
                   +:+ (if HasPrefix urlVal "/" then EmptyString else "/") +:+ urlVal))
  /\ (resolved u urlVal = EmptyString <-> urlVal = EmptyString)
  /\ extractField field event s baseURL
     = Returns (set_Field_ElementLocation e field, <[Field_Name field := AString stored]> event, None)
  /\ (urlVal = EmptyString -> stored = baseURL)
  /\ (baseURL <> EmptyString -> stored <> EmptyString).
Proof.
  intros Htype Hu Hval e stored.
  pose proof (getURLString_spec _ s baseURL urlVal u Hu Hval) as Hget. fold e in Hget.
  pose proof (resolved_empty_iff u urlVal) as Hempty.
  split; [exact Hget |].
  split.
  { intros Hp. unfold resolved. rewrite Hp. destruct urlVal; [discriminate | reflexivity]. }
  split.
  { intros Hp. unfold resolved. rewrite Hp.
    destruct (HasPrefix_single _ _ Hp) as [rest ->]. reflexivity. }
  split.
  { intros Hne Hhttp Hq. unfold resolved.
    rewrite (eqb_empty_false _ Hne), Hhttp, Hq.
    destruct (HasPrefix urlVal "/"); reflexivity. }
  split; [exact Hempty |].
  split.
  { rewrite (extractField_url field event s baseURL e (resolved u urlVal) Htype Hget).
    unfold stored.
    destruct (String.eqb_spec urlVal "") as [-> | Hne]; [reflexivity |].
    destruct (String.eqb_spec (resolved u urlVal) "") as [Hres | _]; [| reflexivity].
    apply Hempty in Hres. contradiction. }
  split.
  { intros ->. reflexivity. }
  intros Hbase. unfold stored.
  destruct (String.eqb_spec urlVal "") as [| Hne]; [exact Hbase |].
  intros Hres. apply Hempty in Hres. contradiction.
Qed.

Lemma url_field_resolution_witness :
  let E := TestEnv.env [] 2024 in
  let f := Sample.field "url" "url" (Sample.at_ "a") in
  let s := [Sample.linkItem "/events/1"] in
  Field_Type f = "url"
  /\ url_Parse Sample.baseURL = Some Sample.base
  /\ urlValOf (withDefaultAttr (Field_ElementLocation f)) s = Returns "/events/1"
  /\ extractField f ∅ s Sample.baseURL
     = Returns (set_Field_ElementLocation (set_Attr "href" (Sample.at_ "a")) f,
                <["url" := AString "https://x.test/events/1"]> ∅, None).
Proof.
  intros E f s.
  assert (Htype : Field_Type f = "url") by reflexivity.
  assert (Hu : url_Parse Sample.baseURL = Some Sample.base) by (vm_compute; reflexivity).
  assert (Hval : urlValOf (withDefaultAttr (Field_ElementLocation f)) s = Returns "/events/1")
    by (vm_compute; reflexivity).
  split; [exact Htype |]. split; [exact Hu |]. split; [exact Hval |].
  exact (proj1 (proj2 (proj2 (proj2 (proj2 (proj2
           (url_field_resolution f ∅ s Sample.baseURL "/events/1" Sample.base Htype Hu Hval))))))).
Defined.

Lemma withDefaultAttr_empty (e : ElementLocation) :
  Attr e = EmptyString -> withDefaultAttr e = set_Attr "href" e.
Proof. intros He. unfold withDefaultAttr. rewrite He. reflexivity. Qed.

Lemma withDefaultAttr_set (e : ElementLocation) :
  Attr e <> EmptyString -> withDefaultAttr e = e.
Proof. intros He. unfold withDefaultAttr. rewrite (eqb_empty_false _ He). reflexivity. Qed.

Lemma withDefaultAttr_idempotent (e : ElementLocation) :
  withDefaultAttr (withDefaultAttr e) = withDefaultAttr e.
Proof.
  destruct (String.eqb_spec (Attr e) "") as [He | He].
  - rewrite (withDefaultAttr_empty e He). apply withDefaultAttr_set. discriminate.
  - rewrite (withDefaultAttr_set e He). apply withDefaultAttr_set. exact He.
Qed.

(** Whatever the outcome, a location that comes back from
    [getURLString] is the one with the default stored. *)
Lemma getURLString_location `{Ext : External} (e e' : ElementLocation) (s : Selection)
    (baseURL url : string) :
  getURLString e s baseURL = Returns (e', url) -> e' = withDefaultAttr e.
Proof.
  unfold getURLString. fold (withDefaultAttr e). intros Hget.
  apply bind_inv in Hget as (urlVal & _ & Hget).
  apply bind_inv in Hget as (urlRes & _ & Hget).
  injection Hget as <- _. reflexivity.
Qed.

(** A call on the location left by an earlier call does what a call
    on the original location does. *)
Lemma getURLString_again `{Ext : External} (e : ElementLocation) (s : Selection) (baseURL : string) :
  getURLString (withDefaultAttr e) s baseURL = getURLString e s baseURL.
Proof.
  unfold getURLString. fold (withDefaultAttr e) (withDefaultAttr (withDefaultAttr e)).
  rewrite withDefaultAttr_idempotent. reflexivity.
Qed.

(** In [GetItems] the location written to is the paginator's, in the
    receiver the loop holds: the next iteration finds the default in it. *)
Lemma iterate_keeps_default_attr `{Ext : External} (globalConfig : GlobalConfig) (st st' : LoopState) :
  iterate globalConfig st = Returns (NextPage st') ->
  Location (Scraper_Paginator (ls_c st')) = withDefaultAttr (Location (Scraper_Paginator (ls_c st)))
  /\ MaxPages (Scraper_Paginator (ls_c st')) = MaxPages (Scraper_Paginator (ls_c st)).
Proof.
  unfold iterate.
  destruct (doFetch _ _ _ _ _) as [[res [err |]] w]; [discriminate |].
  destruct (NewDocumentFromReader res) as [doc [err |]]; [discriminate |].
  intros Hit.
  apply bind_inv in Hit as ([items w'] & _ & Hit).
  apply bind_inv in Hit as ([e pageURL] & Hget & Hit).
  apply getURLString_location in Hget. subst e.
  destruct (negb (String.eqb pageURL "")); [| discriminate].
  match type of Hit with (if ?b then _ else _) = _ => destruct b end; [| discriminate].
  injection Hit as <-. split; reflexivity.
Qed.

(** C10. A call of getURLString on a location whose Attr is empty
    stores "href" in that field of the location it was given and
    leaves the other fields as they are; later calls on the same
    location find "href" there, read that attribute and store nothing
    more. *)
Theorem getURLString_stores_default_attr `{Ext : External} (e : ElementLocation) (s : Selection)
    (baseURL : string) (u : url_URL) :
  Attr e = EmptyString ->
  0 <= NodeIndex e ->
  url_Parse baseURL = Some u ->
  let e' := set_Attr "href" e in
  (exists url, getURLString e s baseURL = Returns (e', url))
  /\ Attr e' = "href"
  /\ (Selector e' = Selector e /\ NodeIndex e' = NodeIndex e /\ ChildIndex e' = ChildIndex e
      /\ RegexExtract e' = RegexExtract e /\ MaxLength e' = MaxLength e
      /\ EntireSubtree e' = EntireSubtree e)
  /\ (forall s2 baseURL2 e2 url2,
        getURLString e' s2 baseURL2 = Returns (e2, url2) ->
        e2 = e' /\ exists urlVal, urlValOf e' s2 = Returns urlVal
                                  /\ resolveURL urlVal baseURL2 = Returns url2)
  /\ (forall s2, Selector e = EmptyString -> urlValOf e' s2 = Returns (AttrOr s2 "href" ""))
  /\ (forall s2 baseURL2, getURLString e' s2 baseURL2 = getURLString e s2 baseURL2).
Proof.
  intros Hattr Hidx Hu e'.
  pose proof (withDefaultAttr_empty e Hattr) as Hdef. fold e' in Hdef.
  split.
  { destruct (urlValOf_returns e' s Hidx) as [urlVal Hval].
    exists (resolved u urlVal). rewrite <- Hdef in Hval |- *.
    apply getURLString_spec; assumption. }
  split; [reflexivity |].
  split; [repeat split |].
  split.
  { intros s2 baseURL2 e2 url2 Hget.
    pose proof (getURLString_location _ _ _ _ _ Hget) as ->.
    split; [apply withDefaultAttr_set; discriminate |].
    unfold getURLString in Hget.
    change (if String.eqb (Attr e') "" then set_Attr "href" e' else e') with e' in Hget.
    apply bind_inv in Hget as (urlVal & Hval & Hget).
    apply bind_inv in Hget as (urlRes & Hres & Hget).
    injection Hget as <-. eauto. }
  split.
  { intros s2 Hsel. unfold urlValOf. simpl. rewrite Hsel. reflexivity. }
  intros s2 baseURL2. rewrite <- Hdef. apply getURLString_again.
Qed.

Lemma getURLString_stores_default_attr_witness :
  let E := TestEnv.env [] 2024 in
  let e := Sample.at_ "a" in
  Attr e = EmptyString
  /\ 0 <= NodeIndex e
  /\ url_Parse Sample.baseURL = Some Sample.base
  /\ getURLString e [Sample.linkItem "?p=2"] Sample.baseURL
     = Returns (set_Attr "href" e, "https://x.test/a/b?p=2").
Proof.
  intros E e.
  assert (Hattr : Attr e = EmptyString) by reflexivity.
  assert (Hidx : 0 <= NodeIndex e) by (simpl; lia).
  assert (Hu : url_Parse Sample.baseURL = Some Sample.base) by (vm_compute; reflexivity).
  split; [exact Hattr |]. split; [exact Hidx |]. split; [exact Hu |].
  destruct (proj1 (getURLString_stores_default_attr e [Sample.linkItem "?p=2"] Sample.baseURL
                     Sample.base Hattr Hidx Hu)) as [url Hurl].
  rewrite Hurl. f_equal. f_equal.
  assert (Hrun : getURLString e [Sample.linkItem "?p=2"] Sample.baseURL
                 = Returns (set_Attr "href" e, "https://x.test/a/b?p=2")) by (vm_compute; reflexivity).
  rewrite Hrun in Hurl. injection Hurl as <-. reflexivity.
Defined.

(** ** getDate *)

Lemma checkForDoubleDateParts_Some `{Ext : External} (a b : CoveredDateParts) (err : string) :
  checkForDoubleDateParts a b = Some err -> isDoubleCoverError err.
Proof.
  unfold checkForDoubleDateParts, isDoubleCoverError.
  destruct (Day a && Day b); [intros [= <-]; exists "day"; simpl; auto |].
  destruct (Month a && Month b); [intros [= <-]; exists "month"; simpl; auto |].
  destruct (Year a && Year b); [intros [= <-]; exists "year"; simpl; auto |].
  destruct (Time a && Time b); [intros [= <-]; exists "time"; simpl; auto 6 | discriminate].
Qed.

Lemma checkForDoubleDateParts_overlap `{Ext : External} (a b : CoveredDateParts) :
  overlap a b = true -> exists err, checkForDoubleDateParts a b = Some err.
Proof.
  unfold checkForDoubleDateParts, overlap.
  destruct (Day a && Day b); [eauto |].
  destruct (Month a && Month b); [eauto |].
  destruct (Year a && Year b); [eauto |].
  destruct (Time a && Time b); [eauto | discriminate].
Qed.

Lemma hasAllDateParts_coverStep `{Ext : External} (s : Selection) (cp : CoveredDateParts)
    (c : DateComponent) :
  hasAllDateParts cp = true -> hasAllDateParts (coverStep s cp c) = true.
Proof.
  intros Hall. unfold coverStep.
  destruct (getTextString _ s) as [[sp [err |]] | |]; try exact Hall.
  destruct (String.eqb sp ""); [exact Hall |].
  destruct cp as [[] [] [] []]; try discriminate. reflexivity.
Qed.

Lemma hasAllDateParts_coveredFrom `{Ext : External} (s : Selection) (components : list DateComponent)
    (cp : CoveredDateParts) :
  hasAllDateParts cp = true -> hasAllDateParts (coveredFrom s cp components) = true.
Proof.
  revert cp. induction components as [| c rest IH]; intros cp Hall; [exact Hall |].
  simpl. apply IH, hasAllDateParts_coverStep, Hall.
Qed.

Lemma includes_coverStep `{Ext : External} (s : Selection) (a cp : CoveredDateParts) (c : DateComponent) :
  includes a cp = true -> includes a (coverStep s cp c) = true.
Proof.
  intros Hinc. unfold coverStep.
  destruct (getTextString _ s) as [[sp [err |]] | |]; try exact Hinc.
  destruct (String.eqb sp ""); [exact Hinc |].
  destruct a as [[] [] [] []], cp as [[] [] [] []]; try discriminate; reflexivity.
Qed.

Lemma includes_coveredFrom `{Ext : External} (s : Selection) (a : CoveredDateParts)
    (components : list DateComponent) (cp : CoveredDateParts) :
  includes a cp = true -> includes a (coveredFrom s cp components) = true.
Proof.
  revert cp. induction components as [| c rest IH]; intros cp Hinc; [exact Hinc |].
  simpl. apply IH, includes_coverStep, Hinc.
Qed.

(** A component whose text is not empty has its parts among the
    covered ones from then on. *)
Lemma coveredFrom_includes `{Ext : External} (s : Selection) (components : list DateComponent)
    (c : DateComponent) (sp : string) (cp : CoveredDateParts) :
  In c components ->
  getTextString (DateComponent_ElementLocation c) s = Returns (sp, None) ->
  sp <> EmptyString ->
  includes (Covers c) (coveredFrom s cp components) = true.
Proof.
  intros Hin Htext Hsp. revert cp.
  induction components as [| c' rest IH]; intros cp; [destruct Hin |].
  simpl. destruct Hin as [-> | Hin]; [| apply IH, Hin].
  apply includes_coveredFrom. unfold coverStep.
  rewrite Htext, (eqb_empty_false _ Hsp).
  destruct (Covers c) as [[] [] [] []], cp as [[] [] [] []]; reflexivity.
Qed.

Lemma overlap_includes (a b cp : CoveredDateParts) :
  overlap a b = true -> includes a cp = true -> overlap b cp = true.
Proof.
  destruct a as [[] [] [] []], b as [[] [] [] []], cp as [[] [] [] []];
    try discriminate; reflexivity.
Qed.

(** The loop over a prefix of the components whose texts are all
    extracted, and which leaves some part uncovered: either it stops
    at a part covered twice, or it hands on the parts covered by the
    components with a text. *)
Lemma collectDateParts_prefix `{Ext : External} (s : Selection) (pre rest : list DateComponent)
    (dateParts : list datePart) (cp : CoveredDateParts) :
  (forall c, In c pre ->
             exists t, getTextString (DateComponent_ElementLocation c) s = Returns (t, None)) ->
  hasAllDateParts (coveredFrom s cp pre) = false ->
  (exists err, isDoubleCoverError err
               /\ collectDateParts (pre ++ rest) s dateParts cp = Returns (inl err))
  \/ (exists dateParts',
        collectDateParts (pre ++ rest) s dateParts cp
        = collectDateParts rest s dateParts' (coveredFrom s cp pre)).
Proof.
  revert dateParts cp. induction pre as [| c pre IH]; intros dateParts cp Htexts Hnot.
  - right. exists dateParts. reflexivity.
  - assert (Hcp : hasAllDateParts cp = false).
    { destruct (hasAllDateParts cp) eqn:Hall; [| reflexivity].
      rewrite (hasAllDateParts_coveredFrom s (c :: pre) cp Hall) in Hnot. discriminate. }
    simpl app. simpl collectDateParts. rewrite Hcp. simpl negb. cbv iota.
    destruct (checkForDoubleDateParts (Covers c) cp) as [err |] eqn:Hcheck.
    { left. exists err. split; [eapply checkForDoubleDateParts_Some, Hcheck | reflexivity]. }
    destruct (Htexts c (or_introl eq_refl)) as [t Ht].
    assert (Hstep : coverStep s cp c
                    = if String.eqb t "" then cp else mergeDateParts cp (Covers c))
      by (unfold coverStep; rewrite Ht; reflexivity).
    change (coveredFrom s cp (c :: pre)) with (coveredFrom s (coverStep s cp c) pre) in Hnot |- *.
    rewrite Hstep in Hnot |- *.
    rewrite Ht, bind_Returns.
    destruct (String.eqb t ""); simpl negb; cbv iota;
      apply IH; auto; intros c' Hc'; apply Htexts; right; exact Hc'.
Qed.

(** The loop result decides what [getDate] returns. *)
Lemma getDate_loop_error `{Ext : External} (f : Field) (s : Selection) (loc : time_Location)
    (err : string) :
  LoadLocation (DateLocation f) = inl loc ->
  collectDateParts (Components f) s [] noParts = Returns (inl err) ->
  getDate f s = Returns (zeroTime, Some err).
Proof.
  intros Hloc Hloop. unfold getDate. rewrite Hloc.
  change {| Day := false; Month := false; Year := false; Time := false |} with noParts.
  rewrite Hloop. reflexivity.
Qed.

(** C2 (as stated) fails: both components cover the day, the first
    one finds no text, and getDate returns a timestamp. *)
Lemma getDate_double_cover_unnoticed :
  let E := TestEnv.env [] 2024 in
  let first := Sample.component true false false false "span" ["02"] in
  let second := Sample.component true true false false "em" ["02.01"] in
  Day (Covers first) = true /\ Day (Covers second) = true
  /\ getDate (Sample.dateField [first; second]) [Sample.event "" "12.04"]
     = Returns (Sample.berlin 2024 4 12 20 0, None).
Proof. vm_compute. repeat split. Qed.

(** The second way past the check: once all four parts are covered,
    the remaining components are not looked at. *)
Example getDate_double_cover_after_all_parts :
  let E := TestEnv.env [] 2024 in
  let first := Sample.component true true true true "span" ["02.01.2006 15:04"] in
  let second := Sample.component true false false false "em" ["02"] in
  getDate (Sample.dateField [first; second]) [Sample.event "12.04.2025 18:30" "12"]
  = Returns (Sample.berlin 2025 4 12 18 30, None).
Proof. vm_compute. reflexivity. Qed.

(** C2 (as amended). If two components of a date field cover a common
    calendar part, the zone loads, the text of every component before
    the later of the two is extracted without error, the text of the
    earlier one is not empty, and the components before the later one
    that have a text do not between them cover all four parts, then
    getDate returns a "covered at least twice" error. *)
Theorem getDate_double_cover `{Ext : External} (f : Field) (s : Selection) (loc : time_Location)
    (pre mid post : list DateComponent) (c1 c2 : DateComponent) (sp : string) :
  LoadLocation (DateLocation f) = inl loc ->
  Components f = pre ++ c1 :: mid ++ c2 :: post ->
  overlap (Covers c1) (Covers c2) = true ->
  getTextString (DateComponent_ElementLocation c1) s = Returns (sp, None) ->
  sp <> EmptyString ->
  (forall c, In c (pre ++ mid) ->
             exists t, getTextString (DateComponent_ElementLocation c) s = Returns (t, None)) ->
  hasAllDateParts (coveredBy (pre ++ c1 :: mid) s) = false ->
  exists err, isDoubleCoverError err /\ getDate f s = Returns (zeroTime, Some err).
Proof.
  intros Hloc Hcomps Hoverlap Htext Hsp Htexts Hnot.
  assert (Hsplit : Components f = (pre ++ c1 :: mid) ++ c2 :: post)
    by (rewrite Hcomps, <- app_assoc; reflexivity).
  assert (Hall : forall c, In c (pre ++ c1 :: mid) ->
                           exists t, getTextString (DateComponent_ElementLocation c) s = Returns (t, None)).
  { intros c Hc. apply in_app_or in Hc as [Hc | [<- | Hc]]; [| eauto |];
      apply Htexts, in_or_app; auto. }
  destruct (collectDateParts_prefix s (pre ++ c1 :: mid) (c2 :: post) [] noParts Hall Hnot)
    as [(err & Herr & Hloop) | (dateParts & Hloop)].
  - exists err. split; [exact Herr |].
    apply (getDate_loop_error f s loc); [exact Hloc | rewrite Hsplit; exact Hloop].
  - assert (Hinc : includes (Covers c1) (coveredBy (pre ++ c1 :: mid) s) = true).
    { apply (coveredFrom_includes s _ c1 sp); [apply in_or_app; right; left; reflexivity | assumption..]. }
    destruct (checkForDoubleDateParts_overlap (Covers c2) (coveredBy (pre ++ c1 :: mid) s)
                (overlap_includes _ _ _ Hoverlap Hinc)) as [err Hcheck].
    exists err. split; [eapply checkForDoubleDateParts_Some, Hcheck |].
    apply (getDate_loop_error f s loc); [exact Hloc |].
    rewrite Hsplit, Hloop. simpl collectDateParts.
    fold (coveredBy (pre ++ c1 :: mid) s). rewrite Hnot, Hcheck. reflexivity.
Qed.

Lemma getDate_double_cover_witness :
  let E := TestEnv.env [] 2024 in
  let c1 := Sample.component true true false false "span" ["02.01"] in
  let mid := [Sample.component false false false true "em" ["15:04"]] in
  let c2 := Sample.component true false false false "em" ["02"] in
  let f := Sample.dateField (c1 :: mid ++ [c2]) in
  let s := [Sample.event "12.04" "18:30"] in
  LoadLocation (DateLocation f) = inl {| loc_name := "Europe/Berlin" |}
  /\ overlap (Covers c1) (Covers c2) = true
  /\ getTextString (DateComponent_ElementLocation c1) s = Returns ("12.04", None)
  /\ hasAllDateParts (coveredBy ([] ++ c1 :: mid) s) = false
  /\ getDate f s = Returns (zeroTime, Some "date parsing error: 'day' covered at least twice").
Proof.
  intros E c1 mid c2 f s.
  assert (Hloc : LoadLocation (DateLocation f) = inl {| loc_name := "Europe/Berlin" |})
    by (vm_compute; reflexivity).
  assert (Hoverlap : overlap (Covers c1) (Covers c2) = true) by reflexivity.
  assert (Htext : getTextString (DateComponent_ElementLocation c1) s = Returns ("12.04", None))
    by (vm_compute; reflexivity).
  assert (Hnot : hasAllDateParts (coveredBy ([] ++ c1 :: mid) s) = false) by (vm_compute; reflexivity).
  assert (Hsp : "12.04" <> EmptyString) by (apply String.eqb_neq; reflexivity).
  assert (Htexts : forall c, In c ([] ++ mid) ->
            exists t, getTextString (DateComponent_ElementLocation c) s = Returns (t, None)).
  { intros c [<- | []]. exists "18:30". vm_compute. reflexivity. }
  split; [exact Hloc |]. split; [exact Hoverlap |]. split; [exact Htext |]. split; [exact Hnot |].
  destruct (getDate_double_cover f s _ [] mid [] c1 c2 "12.04" Hloc eq_refl Hoverlap Htext Hsp Htexts Hnot)
    as (err & _ & Hget).
  rewrite Hget. f_equal. f_equal.
  assert (Hrun : getDate f s = Returns (zeroTime, Some "date parsing error: 'day' covered at least twice"))
    by (vm_compute; reflexivity).
  rewrite Hrun in Hget. injection Hget as <-. reflexivity.
Defined.

Lemma addDefaults_eq `{Ext : External} (dateParts : list datePart) (cp : CoveredDateParts) :
  addDefaults dateParts cp
  = dateParts ++ (if Year cp then [] else [defaultYear]) ++ (if Time cp then [] else [defaultTime]).
Proof.
  unfold addDefaults. destruct (Year cp), (Time cp); simpl;
    rewrite ?app_nil_r, <- ?app_assoc; reflexivity.
Qed.

Lemma noChar_app (c : ascii) (a b : string) : noChar c (a +:+ b) = noChar c a && noChar c b.
Proof.
  induction a as [| d a IH]; [reflexivity |].
  rewrite append_cons. simpl. rewrite IH. apply andb_assoc.
Qed.

(** Replacing a string whose first byte does not occur changes nothing. *)
Lemma Replace1_absent (s : string) (c : ascii) (old new : string) :
  noChar c s = true -> Replace1 s (String c old) new = s.
Proof.
  induction s as [| d s IH]; intros Hno; [reflexivity |].
  simpl in Hno. apply andb_prop in Hno as [Hcd Hs].
  cbn [Replace1].
  change (String.prefix (String c old) (String d s))
    with (if ascii_dec c d then String.prefix old s else false).
  destruct (ascii_dec c d) as [-> | _].
  - rewrite Ascii.eqb_refl in Hcd. discriminate.
  - rewrite (IH Hs). reflexivity.
Qed.

Lemma digit_not_M (n : Z) : 0 <= n < 10 -> Ascii.eqb "M" (digit n) = false.
Proof.
  intros Hn. unfold digit.
  assert (Hk : (Z.to_nat n < 10)%nat) by lia.
  revert Hk. generalize (Z.to_nat n) as k. intros k Hk.
  do 10 (destruct k as [| k]; [reflexivity |]). lia.
Qed.

Lemma utoa_noChar_M (fuel : nat) (n : Z) (acc : string) :
  noChar "M" acc = true -> noChar "M" (utoa fuel n acc) = true.
Proof.
  revert n acc. induction fuel as [| fuel IH]; intros n acc Hacc; [exact Hacc |].
  assert (Hstep : noChar "M" (String (digit (n mod 10)) acc) = true).
  { cbn [noChar]. rewrite digit_not_M by (apply Z.mod_pos_bound; lia). exact Hacc. }
  cbn [utoa]. destruct (n <? 10); [exact Hstep | apply IH, Hstep].
Qed.

(** A number in decimal has no letter in it. *)
Lemma Itoa_noChar_M (n : Z) : noChar "M" (Itoa n) = true.
Proof.
  unfold Itoa. destruct (n <? 0).
  - change (noChar "M" (String "-" (utoa 20 (- n) EmptyString)) = true).
    cbn [noChar]. rewrite utoa_noChar_M; reflexivity.
  - apply utoa_noChar_M. reflexivity.
Qed.

(** One round of the loop on a component that passes the check and
    has a text. *)
Lemma collectDateParts_fragment `{Ext : External} (c : DateComponent) (rest : list DateComponent)
    (s : Selection) (dateParts : list datePart) (cp : CoveredDateParts) (sp : string) :
  hasAllDateParts cp = false ->
  checkForDoubleDateParts (Covers c) cp = None ->
  getTextString (DateComponent_ElementLocation c) s = Returns (sp, None) ->
  sp <> EmptyString ->
  collectDateParts (c :: rest) s dateParts cp
  = collectDateParts rest s
      (dateParts ++ [{| stringPart := Replace1 sp "p.m." "pm";
                        layoutParts := map (fun l => Replace1 l "p.m." "pm") (Layout c) |}])
      (mergeDateParts cp (Covers c)).
Proof.
  intros Hall Hcheck Htext Hsp.
  simpl collectDateParts. rewrite Hall, Hcheck, Htext, bind_Returns, (eqb_empty_false _ Hsp).
  reflexivity.
Qed.

(** What [getDate] does once the loop is through. *)
Lemma getDate_after_loop `{Ext : External} (f : Field) (s : Selection) (loc : time_Location)
    (dateParts : list datePart) (cp : CoveredDateParts) :
  LoadLocation (DateLocation f) = inl loc ->
  collectDateParts (Components f) s [] noParts = Returns (inr (dateParts, cp)) ->
  getDate f s
  = if Day cp && Month cp then
      Returns (tryLayouts (buildLayouts (addDefaults dateParts cp))
                 (Replace1 (buildString (addDefaults dateParts cp)) "Mrz" "Mär")
                 loc (localeOf f) zeroTime None)
    else Returns (zeroTime, Some noDayMonthError).
Proof.
  intros Hloc Hloop. unfold getDate. rewrite Hloc.
  change {| Day := false; Month := false; Year := false; Time := false |} with noParts.
  rewrite Hloop, bind_Returns. unfold localeOf.
  destruct (Day cp), (Month cp), (String.eqb (DateLanguage f) ""); reflexivity.
Qed.

(** With a single layout the parse loop returns what the parser returns. *)
Lemma tryLayouts_single `{Ext : External} (layout value : string) (loc : time_Location)
    (locale : string) (t : time_Time) :
  tryLayouts [layout] value loc locale t None = ParseInLocation layout value loc locale.
Proof.
  simpl. destruct (ParseInLocation layout value loc locale) as [t' [err |]]; reflexivity.
Qed.

(** The fragments of the example: day and month from one component,
    the time from another, the year by default. *)
Lemma getDate_day_month_and_time `{Ext : External} (f : Field) (s : Selection) (loc : time_Location)
    (c1 c2 : DateComponent) :
  LoadLocation (DateLocation f) = inl loc ->
  Components f = [c1; c2] ->
  Covers c1 = {| Day := true; Month := true; Year := false; Time := false |} ->
  Covers c2 = {| Day := false; Month := false; Year := false; Time := true |} ->
  Layout c1 = ["02.01"] ->
  Layout c2 = ["15:04"] ->
  getTextString (DateComponent_ElementLocation c1) s = Returns ("12.04", None) ->
  getTextString (DateComponent_ElementLocation c2) s = Returns ("18:30", None) ->
  getDate f s
  = Returns (ParseInLocation "02.01 15:04 2006 " ("12.04 18:30 " +:+ Itoa Now_Year +:+ " ")
               loc (localeOf f)).
Proof.
  intros Hloc Hcomps Hcov1 Hcov2 Hlay1 Hlay2 Htext1 Htext2.
  set (p1 := {| stringPart := "12.04"; layoutParts := ["02.01"] |}).
  set (p2 := {| stringPart := "18:30"; layoutParts := ["15:04"] |}).
  set (cp := {| Day := true; Month := true; Year := false; Time := true |}).
  assert (Hloop : collectDateParts (Components f) s [] noParts = Returns (inr ([p1; p2], cp))).
  { rewrite Hcomps.
    rewrite (collectDateParts_fragment c1 [c2] s [] noParts "12.04");
      [| reflexivity | rewrite Hcov1; reflexivity | exact Htext1 | apply String.eqb_neq; reflexivity].
    rewrite (collectDateParts_fragment c2 [] s _ _ "18:30");
      [| rewrite Hcov1; reflexivity | rewrite Hcov1, Hcov2; reflexivity | exact Htext2
       | apply String.eqb_neq; reflexivity].
    rewrite Hcov1, Hcov2, Hlay1, Hlay2. reflexivity. }
  rewrite (getDate_after_loop f s loc _ _ Hloc Hloop).
  change (Day cp && Month cp) with true. cbv iota.
  rewrite addDefaults_eq.
  change (buildLayouts _) with ["02.01 15:04 2006 "].
  change (buildString _) with ("12.04 18:30 " +:+ Itoa Now_Year +:+ " ").
  rewrite Replace1_absent.
  - rewrite tryLayouts_single. reflexivity.
  - rewrite !noChar_app, Itoa_noChar_M. reflexivity.
Qed.

(** C1. When the zone loads and the loop over the components of a
    date field is through, a fragment with the current year and the
    layout "2006" is appended if no component covers the year, and a
    fragment "20:00" with the layout "15:04" if none covers the time;
    if day or month is then still not covered, getDate returns the
    error that a date needs at least a day and a month, and no
    timestamp; otherwise it parses the fragments with their layouts.
    In particular, a component for day and month with the text "12.04"
    and the layout "02.01" and a component for the time with the text
    "18:30" and the layout "15:04" make getDate return what the parser
    reads from "12.04 18:30 Y " (Y the current year) under the layout
    "02.01 15:04 2006 " in the zone of the field. *)
Theorem getDate_defaults `{Ext : External} (f : Field) (s : Selection) (loc : time_Location) :
  LoadLocation (DateLocation f) = inl loc ->
  (forall dateParts cp,
     collectDateParts (Components f) s [] noParts = Returns (inr (dateParts, cp)) ->
     let parts := dateParts ++ (if Year cp then [] else [defaultYear])
                            ++ (if Time cp then [] else [defaultTime]) in
     addDefaults dateParts cp = parts
     /\ (Day cp = false \/ Month cp = false ->
         getDate f s = Returns (zeroTime, Some noDayMonthError))
     /\ (Day cp = true -> Month cp = true ->
         getDate f s
         = Returns (tryLayouts (buildLayouts parts) (Replace1 (buildString parts) "Mrz" "Mär")
                      loc (localeOf f) zeroTime None)))
  /\ (forall c1 c2,
        Components f = [c1; c2] ->
        Covers c1 = {| Day := true; Month := true; Year := false; Time := false |} ->
        Covers c2 = {| Day := false; Month := false; Year := false; Time := true |} ->
        Layout c1 = ["02.01"] ->
        Layout c2 = ["15:04"] ->
        getTextString (DateComponent_ElementLocation c1) s = Returns ("12.04", None) ->
        getTextString (DateComponent_ElementLocation c2) s = Returns ("18:30", None) ->
        getDate f s
        = Returns (ParseInLocation "02.01 15:04 2006 " ("12.04 18:30 " +:+ Itoa Now_Year +:+ " ")
                     loc (localeOf f))).
Proof.
  intros Hloc. split.
  - intros dateParts cp Hloop parts.
    pose proof (getDate_after_loop f s loc dateParts cp Hloc Hloop) as Hget.
    pose proof (addDefaults_eq dateParts cp) as Hparts. fold parts in Hparts.
    split; [exact Hparts |]. split.
    + intros Hmissing. rewrite Hget.
      destruct Hmissing as [-> | ->]; [reflexivity |].
      rewrite andb_false_r. reflexivity.
    + intros Hday Hmonth. rewrite Hget, Hday, Hmonth, Hparts. reflexivity.
  - intros c1 c2. apply getDate_day_month_and_time. exact Hloc.
Qed.

Lemma getDate_defaults_witness :
  let E := TestEnv.env [] 2024 in
  let c1 := Sample.component true true false false "span" ["02.01"] in
  let c2 := Sample.component false false false true "em" ["15:04"] in
  let f := Sample.dateField [c1; c2] in
  let s := [Sample.event "12.04" "18:30"] in
  LoadLocation (DateLocation f) = inl {| loc_name := "Europe/Berlin" |}
  /\ collectDateParts (Components f) s [] noParts
     = Returns (inr ([{| stringPart := "12.04"; layoutParts := ["02.01"] |};
                      {| stringPart := "18:30"; layoutParts := ["15:04"] |}],
                     {| Day := true; Month := true; Year := false; Time := true |}))
  /\ addDefaults [{| stringPart := "12.04"; layoutParts := ["02.01"] |};
                  {| stringPart := "18:30"; layoutParts := ["15:04"] |}]
                 {| Day := true; Month := true; Year := false; Time := true |}
     = [{| stringPart := "12.04"; layoutParts := ["02.01"] |};
        {| stringPart := "18:30"; layoutParts := ["15:04"] |};
        {| stringPart := "2024"; layoutParts := ["2006"] |}]
  /\ getDate f s = Returns (Sample.berlin 2024 4 12 18 30, None).
Proof.
  intros E c1 c2 f s.
  assert (Hloc : LoadLocation (DateLocation f) = inl {| loc_name := "Europe/Berlin" |})
    by (vm_compute; reflexivity).
  pose proof (getDate_defaults f s _ Hloc) as [Hgeneral Hexample].
  assert (Hloop : collectDateParts (Components f) s [] noParts
                  = Returns (inr ([{| stringPart := "12.04"; layoutParts := ["02.01"] |};
                                   {| stringPart := "18:30"; layoutParts := ["15:04"] |}],
                                  {| Day := true; Month := true; Year := false; Time := true |})))
    by (vm_compute; reflexivity).
  split; [exact Hloc |]. split; [exact Hloop |]. split.
  - rewrite (proj1 (Hgeneral _ _ Hloop)). vm_compute. reflexivity.
  - rewrite (Hexample c1 c2 eq_refl eq_refl eq_refl eq_refl eq_refl); vm_compute; reflexivity.
Defined.

(** The error branch on a field whose only component covers the time. *)
Example getDate_without_day_and_month :
  getDate (Ext := TestEnv.env [] 2024)
    (Sample.dateField [Sample.component false false false true "em" ["15:04"]])
    [Sample.event "12.04" "18:30"]
  = Returns (zeroTime, Some noDayMonthError).
Proof. vm_compute. reflexivity. Qed.

(** ** filterItem *)

Section Filtering.
Context `{Ext : External}.
Variable item : ItemMap.

Lemma positiveFilters_cons (filter : Filter) (rest : list Filter) :
  positiveFilters (filter :: rest) item
  = if Match filter && applies filter item then filter :: positiveFilters rest item
    else positiveFilters rest item.
Proof. reflexivity. Qed.

Lemma exclusionFilters_cons (filter : Filter) (rest : list Filter) :
  exclusionFilters (filter :: rest) item
  = if negb (Match filter) && applies filter item then filter :: exclusionFilters rest item
    else exclusionFilters rest item.
Proof. reflexivity. Qed.

Lemma len_cons {A : Type} (a : A) (l : list A) : len (a :: l) = len l + 1.
Proof. unfold len. simpl length. lia. Qed.

(** The loop of [filterItem] on filters that compile: the counter
    counts the positive filters that apply, the first flag records a
    match among them, the second the absence of one among the
    exclusion filters that apply. *)
Lemma filterLoop_spec (filters : list Filter) (nrMatchTrue : Z) (filterMatchTrue filterMatchFalse : bool) :
  Forall compiles filters ->
  0 <= nrMatchTrue ->
  nrMatchTrue + len filters <= maxInt ->
  filterLoop filters item nrMatchTrue filterMatchTrue filterMatchFalse
  = inr (nrMatchTrue + len (positiveFilters filters item),
         filterMatchTrue || existsb (fun f => regexMatches f item) (positiveFilters filters item),
         filterMatchFalse
         && negb (existsb (fun f => regexMatches f item) (exclusionFilters filters item))).
Proof.
  revert nrMatchTrue filterMatchTrue filterMatchFalse.
  induction filters as [| filter rest IH]; intros n t fl Hcompile Hn Hmax.
  - simpl. rewrite Z.add_0_r, orb_false_r, andb_true_r. reflexivity.
  - apply Forall_cons in Hcompile as [[regex Hregex] Hrest].
    rewrite len_cons in Hmax. pose proof (len_nonneg rest) as Hnonneg.
    simpl filterLoop. rewrite Hregex, positiveFilters_cons, exclusionFilters_cons.
    assert (Hrm : regexMatches filter item
                  = match item !! Filter_Field filter with
                    | Some fieldValue => MatchString regex (Sprint (Some fieldValue))
                    | None => false
                    end)
      by (unfold regexMatches; rewrite Hregex; reflexivity).
    unfold applies.
    destruct (item !! Filter_Field filter) as [fieldValue |].
    + destruct (Match filter); cbn [andb negb existsb].
      * rewrite wrap_small by (unfold maxInt in *; lia).
        rewrite IH by (try assumption; lia).
        rewrite len_cons, Hrm. cbn [Sprint].
        replace (n + 1 + len (positiveFilters rest item))
          with (n + (len (positiveFilters rest item) + 1)) by lia.
        destruct (MatchString regex _), t; reflexivity.
      * rewrite IH by (try assumption; lia). rewrite Hrm. cbn [Sprint].
        destruct (MatchString regex _), fl; cbn [orb andb negb];
          reflexivity.
    + rewrite !andb_false_r. apply IH; try assumption; lia.
Qed.

Lemma filterItem_kept (c : Scraper) :
  Forall compiles (Filters c) ->
  len (Filters c) <= maxInt ->
  filterItem c item = (kept (Filters c) item, None).
Proof.
  intros Hcompile Hmax. unfold filterItem.
  rewrite filterLoop_spec by (try assumption; lia).
  unfold kept. rewrite Z.add_0_l. simpl orb.
  destruct (positiveFilters (Filters c) item) as [| f l]; [reflexivity |].
  replace (len (f :: l) =? 0) with false
    by (symmetry; apply Z.eqb_neq; unfold len; simpl length; lia).
  simpl Nat.eqb. rewrite orb_false_r. reflexivity.
Qed.

End Filtering.

Lemma positiveFilters_none (filters : list Filter) (item : ItemMap) :
  (forall f, In f filters -> Match f = false) -> positiveFilters filters item = [].
Proof.
  intros Hnone. induction filters as [| f rest IH]; [reflexivity |].
  unfold positiveFilters in *. simpl List.filter.
  rewrite (Hnone f (or_introl eq_refl)). simpl andb. cbv iota.
  apply IH. intros f' Hf'. apply Hnone. right. exact Hf'.
Qed.

Lemma regexMatches_never `{Ext : External} (filter : Filter) (item : ItemMap) :
  neverMatches filter -> regexMatches filter item = false.
Proof.
  intros (regex & Hregex & Hnever). unfold regexMatches. rewrite Hregex.
  destruct (item !! Filter_Field filter); [apply Hnever | reflexivity].
Qed.

Lemma kept_skips_absent_field `{Ext : External} (before after : list Filter) (filter : Filter)
    (item : ItemMap) :
  applies filter item = false ->
  kept (before ++ filter :: after) item = kept (before ++ after) item.
Proof.
  intros Happlies. unfold kept, positiveFilters, exclusionFilters.
  rewrite !List.filter_app. simpl List.filter. rewrite Happlies, !andb_false_r. reflexivity.
Qed.

(** The test engine compiles "$a" to an end of text followed by a
    letter, which nothing matches. *)
Lemma end_then_letter_never_matches (v : string) :
  TestEnv.MatchString [TestEnv.Eol; TestEnv.Lit "a"] v = false.
Proof.
  unfold TestEnv.MatchString, TestEnv.searchFrom.
  assert (Hnone : forall fuel pos,
             TestEnv.search fuel [TestEnv.Eol; TestEnv.Lit "a"] v pos = None).
  { induction fuel as [| fuel IH]; intros pos; [reflexivity |].
    simpl TestEnv.search. destruct (Nat.ltb (String.length v) pos); [reflexivity |].
    destruct (dropBytes pos v); simpl TestEnv.matchHere; apply IH. }
  rewrite Hnone. reflexivity.
Qed.

(** C3 (as stated) fails: the only match=true filter has a regex that
    never matches, and the item, which lacks the field of that filter,
    is kept. *)
Lemma filterItem_keeps_item_without_the_field :
  let E := TestEnv.env [] 2024 in
  let never := {| Filter_Field := "genre"; Regex := "$a"; Match := true |} in
  let item : ItemMap := <["title" := AString "Jazz night"]> ∅ in
  neverMatches never
  /\ filterItem (Sample.scraper "https://x.test/" [] [never] 0) item = (true, None).
Proof.
  intros E never item. split; [| vm_compute; reflexivity].
  exists [TestEnv.Eol; TestEnv.Lit "a"]. split; [vm_compute; reflexivity |].
  exact end_then_letter_never_matches.
Qed.

(** C3 (as amended). When the regexes of all filters compile,
    filterItem keeps the item iff, among the filters whose field the
    item has, some match=true filter matches the value of its field or
    there is no match=true filter, and no match=false filter matches;
    a filter whose field the item lacks changes nothing.  So without
    match=true filters the positive condition holds for every item,
    and if the match=true filters never match, every item that has the
    field of one of them is dropped. *)
Theorem filterItem_rule `{Ext : External} (c : Scraper) (item : ItemMap) :
  Forall compiles (Filters c) ->
  len (Filters c) <= maxInt ->
  filterItem c item = (kept (Filters c) item, None)
  /\ (forall before after filter,
        Filters c = before ++ filter :: after ->
        applies filter item = false ->
        kept (Filters c) item = kept (before ++ after) item)
  /\ ((forall f, In f (Filters c) -> Match f = false) ->
      kept (Filters c) item
      = negb (existsb (fun f => regexMatches f item) (exclusionFilters (Filters c) item)))
  /\ ((forall f, In f (Filters c) -> Match f = true -> neverMatches f) ->
      (exists f, In f (Filters c) /\ Match f = true /\ applies f item = true) ->
      filterItem c item = (false, None)).
Proof.
  intros Hcompile Hmax.
  pose proof (filterItem_kept item c Hcompile Hmax) as Hkept.
  split; [exact Hkept |]. split.
  { intros before after filter -> Happlies. apply kept_skips_absent_field, Happlies. }
  split.
  { intros Hnone. unfold kept. rewrite (positiveFilters_none _ item Hnone). reflexivity. }
  intros Hnever (f & Hin & Hmatch & Happlies). rewrite Hkept. f_equal.
  unfold kept.
  assert (Hpos : In f (positiveFilters (Filters c) item)).
  { unfold positiveFilters. apply List.filter_In. split; [exact Hin |].
    rewrite Hmatch, Happlies. reflexivity. }
  assert (Hfalse : existsb (fun f => regexMatches f item) (positiveFilters (Filters c) item) = false).
  { apply not_true_is_false. intros Hex.
    apply existsb_exists in Hex as (g & Hg & Hgm).
    unfold positiveFilters in Hg. apply List.filter_In in Hg as [Hg Hgp].
    apply andb_prop in Hgp as [Hgmatch _].
    rewrite (regexMatches_never g item (Hnever g Hg Hgmatch)) in Hgm. discriminate. }
  rewrite Hfalse.
  destruct (positiveFilters (Filters c) item); [destruct Hpos | reflexivity].
Qed.

Lemma filterItem_rule_witness :
  let E := TestEnv.env [] 2024 in
  let wanted := {| Filter_Field := "title"; Regex := "Jazz"; Match := true |} in
  let unwanted := {| Filter_Field := "title"; Regex := "cancelled"; Match := false |} in
  let c := Sample.scraper "https://x.test/" [] [wanted; unwanted] 0 in
  let item : ItemMap := <["title" := AString "Jazz night"]> ∅ in
  Forall compiles (Filters c)
  /\ len (Filters c) <= maxInt
  /\ filterItem c item = (true, None)
  /\ filterItem c (<["title" := AString "Jazz night (cancelled)"]> ∅) = (false, None).
Proof.
  intros E wanted unwanted c item.
  assert (Hwanted : compiles wanted) by (exists (Sample.literal "Jazz"); vm_compute; reflexivity).
  assert (Hunwanted : compiles unwanted)
    by (exists (Sample.literal "cancelled"); vm_compute; reflexivity).
  assert (Hcompile : Forall compiles (Filters c))
    by (apply Forall_cons_2; [exact Hwanted | apply Forall_cons_2; [exact Hunwanted | apply Forall_nil_2]]).
  assert (Hmax : len (Filters c) <= maxInt) by (vm_compute; discriminate).
  split; [exact Hcompile |]. split; [exact Hmax |]. split.
  - rewrite (proj1 (filterItem_rule c item Hcompile Hmax)). vm_compute. reflexivity.
  - rewrite (proj1 (filterItem_rule c _ Hcompile Hmax)). vm_compute. reflexivity.
Defined.

(** ** extractField on text fields *)

Lemma extractField_text_empty `{Ext : External} (field : Field) (event : ItemMap) (s : Selection)
    (baseURL : string) :
  Field_Type field = "text" \/ Field_Type field = EmptyString ->
  CanBeEmpty field = false ->
  getTextString (Field_ElementLocation field) s = Returns (EmptyString, None) ->
  extractField field event s baseURL
  = Returns (field, event, Some ("field " +:+ Field_Name field +:+ " cannot be empty")).
Proof.
  intros Htype Hempty Htext. unfold extractField.
  replace (String.eqb (Field_Type field) "text" || String.eqb (Field_Type field) "") with true
    by (destruct Htype as [-> | ->]; reflexivity).
  rewrite Htext, bind_Returns, Hempty. reflexivity.
Qed.

(** ** The closure of GetItems *)

Section Closure.
Context `{Ext : External}.
Variables (c : Scraper) (globalConfig : GlobalConfig).

Lemma mainFields_app (pre post : list Field) (item : ItemMap) (s : Selection) (pageURL : string) :
  mainFields (pre ++ post) item s pageURL
  = (r ← mainFields pre item s pageURL;
     match r with
     | Some item' => mainFields post item' s pageURL
     | None => Returns None
     end).
Proof.
  revert item. induction pre as [| f pre IH]; intros item; [reflexivity |].
  simpl app. simpl mainFields.
  destruct (negb (String.eqb (Value f) "")); [apply IH |].
  destruct (String.eqb (OnSubpage f) ""); [| apply IH].
  destruct (extractField f item s pageURL) as [[[f' item'] [err |]] | msg | msg]; simpl;
    [reflexivity | apply IH | reflexivity | reflexivity].
Qed.

(** A dynamic field of the main page whose resolution fails ends the
    first loop with the item skipped. *)
Lemma mainFields_field_error (f : Field) (post : list Field) (item : ItemMap) (s : Selection)
    (pageURL : string) (f' : Field) (item' : ItemMap) (err : string) :
  Value f = EmptyString ->
  OnSubpage f = EmptyString ->
  extractField f item s pageURL = Returns (f', item', Some err) ->
  mainFields (f :: post) item s pageURL = Returns None.
Proof.
  intros Hvalue Hsub Hfield. simpl mainFields. rewrite Hvalue, Hsub, Hfield. reflexivity.
Qed.

(** An item whose first loop ends in a skip leaves the list of items
    and the world as they were. *)
Lemma processItem_main_skip (s : Selection) (pageURL : string) (items : list ItemMap) (w : World) :
  mainFields (Fields c) ∅ s pageURL = Returns None ->
  processItem c globalConfig s pageURL items w = Returns (items, w).
Proof.
  intros Hmain. unfold processItem. destruct (excluded c s); [reflexivity |].
  rewrite Hmain. reflexivity.
Qed.

(** An item whose second loop ends in a skip leaves the list of items
    as it was. *)
Lemma processItem_subpage_skip (s : Selection) (pageURL : string) (items : list ItemMap)
    (w w' : World) (currentItem : ItemMap) :
  excluded c s = false ->
  mainFields (Fields c) ∅ s pageURL = Returns (Some currentItem) ->
  subpageFields c globalConfig (Fields c) currentItem ∅ w = Returns (None, w') ->
  processItem c globalConfig s pageURL items w = Returns (items, w').
Proof.
  intros Hexcl Hmain Hsub. unfold processItem. rewrite Hexcl, Hmain, bind_Returns, Hsub.
  reflexivity.
Qed.

(** After a skipped item the loop over the item nodes goes on with
    the next node. *)
Lemma eachItem_skip (n : Node) (rest : list Node) (pageURL : string) (items : list ItemMap)
    (w w' : World) :
  processItem c globalConfig [n] pageURL items w = Returns (items, w') ->
  eachItem c globalConfig (n :: rest) pageURL items w
  = eachItem c globalConfig rest pageURL items w'.
Proof. intros Hskip. simpl eachItem. rewrite Hskip. reflexivity. Qed.

(** A subpage that cannot be fetched, or whose document cannot be
    read, skips the item. *)
Lemma subpageFields_fetch_error (f : Field) (rest : list Field) (currentItem : ItemMap)
    (subDocs : gmap string Node) (w : World) (subRes err : string) :
  OnSubpage f <> EmptyString ->
  Value f = EmptyString ->
  subDocs !! Sprint (currentItem !! OnSubpage f) = None ->
  (Fetch (RenderJs c) (UserAgent globalConfig) (map call_url w) (Sprint (currentItem !! OnSubpage f))
   = (subRes, Some err)
   \/ exists doc, Fetch (RenderJs c) (UserAgent globalConfig) (map call_url w)
                     (Sprint (currentItem !! OnSubpage f)) = (subRes, None)
                  /\ NewDocumentFromReader subRes = (doc, Some err)) ->
  subpageFields c globalConfig (f :: rest) currentItem subDocs w
  = Returns (None, w ++ [FetchSubpage (Sprint (currentItem !! OnSubpage f))]).
Proof.
  intros Hsub Hvalue Hcache Hfail. simpl subpageFields.
  rewrite Hvalue, (eqb_empty_false _ Hsub), Hcache. unfold doFetch. simpl andb. cbv iota.
  destruct Hfail as [-> | (doc & -> & ->)]; reflexivity.
Qed.

End Closure.

(** The second loop of the closure, field by field. *)
Lemma subpageFields_cons `{Ext : External} (c : Scraper) (globalConfig : GlobalConfig) (f : Field)
    (rest : list Field) (item : ItemMap) (subDocs : gmap string Node) (w : World) :
  subpageFields c globalConfig (f :: rest) item subDocs w
  = if onSubpage f then
      match subpageDoc c globalConfig subDocs w (Sprint (item !! OnSubpage f)) with
      | (None, w') => Returns (None, w')
      | (Some (subDoc, subDocs'), w') =>
          '(_, item', err) ← extractField f item [subDoc] (URL c);
          match err with
          | Some _ => Returns (None, w')
          | None => subpageFields c globalConfig rest item' subDocs' w'
          end
      end
    else subpageFields c globalConfig rest item subDocs w.
Proof. reflexivity. Qed.

(** The second loop over a list of fields is the loop over its first
    part, followed from the item and the cache that part leaves by
    the loop over the rest. *)
Lemma subpageFields_app `{Ext : External} (c : Scraper) (globalConfig : GlobalConfig)
    (pre rest : list Field) (item : ItemMap) (subDocs : gmap string Node) (w : World) :
  subpageFields c globalConfig (pre ++ rest) item subDocs w
  = (r ← subpageLoop c globalConfig pre item subDocs w;
     match r with
     | (Some (item1, subDocs1), w1) => subpageFields c globalConfig rest item1 subDocs1 w1
     | (None, w1) => Returns (None, w1)
     end).
Proof.
  revert item subDocs w. induction pre as [| f pre IH]; intros item subDocs w; [reflexivity |].
  cbn [app]. rewrite subpageFields_cons. cbn [subpageLoop].
  destruct (onSubpage f); [| apply IH].
  destruct (subpageDoc c globalConfig subDocs w (Sprint (item !! OnSubpage f)))
    as [[[subDoc subDocs'] |] w']; [| reflexivity].
  destruct (extractField f item [subDoc] (URL c)) as [[[f' item'] [err |]] | msg | msg];
    try reflexivity.
  rewrite !bind_Returns. apply IH.
Qed.

(** The loop with the cache is the second loop of the closure. *)
Lemma subpageFields_loop `{Ext : External} (c : Scraper) (globalConfig : GlobalConfig)
    (fields : list Field) (item : ItemMap) (subDocs : gmap string Node) (w : World) :
  subpageFields c globalConfig fields item subDocs w
  = (r ← subpageLoop c globalConfig fields item subDocs w;
     Returns (match fst r with Some (item', _) => Some item' | None => None end, snd r)).
Proof.
  rewrite <- (app_nil_r fields) at 1. rewrite subpageFields_app.
  destruct (subpageLoop c globalConfig fields item subDocs w)
    as [[[[item1 subDocs1] |] w1] | msg | msg]; reflexivity.
Qed.

(** C7. A text field that is not allowed to be empty and whose text
    resolves to the empty string makes field resolution return the
    error "field ... cannot be empty", on the main page and on a
    subpage alike; the closure then returns without appending the
    item, so the item is not in the output.  For a field of the main
    page the text is that of the item node; for a field found on a
    subpage it is that of the document the field is read from, fetched
    or taken from the cache, wherever the field stands among the
    fields; the second loop is followed up to the field together with
    its cache, which changes nothing in what the loop does.  The loop
    over the item nodes goes on with the next node. *)
Theorem empty_text_field_discards_item `{Ext : External} (c : Scraper) (globalConfig : GlobalConfig)
    (s : Selection) (pageURL : string) (items : list ItemMap) (w : World) (f : Field) :
  Value f = EmptyString ->
  Field_Type f = "text" \/ Field_Type f = EmptyString ->
  CanBeEmpty f = false ->
  (forall event sel baseURL,
     getTextString (Field_ElementLocation f) sel = Returns (EmptyString, None) ->
     extractField f event sel baseURL
     = Returns (f, event, Some ("field " +:+ Field_Name f +:+ " cannot be empty")))
  /\ (forall pre post r,
        Fields c = pre ++ f :: post ->
        OnSubpage f = EmptyString ->
        mainFields pre ∅ s pageURL = Returns r ->
        getTextString (Field_ElementLocation f) s = Returns (EmptyString, None) ->
        processItem c globalConfig s pageURL items w = Returns (items, w))
  /\ (forall pre post currentItem item1 subDocs1 w1 subDoc subDocs2 w2,
        Fields c = pre ++ f :: post ->
        OnSubpage f <> EmptyString ->
        excluded c s = false ->
        mainFields (Fields c) ∅ s pageURL = Returns (Some currentItem) ->
        subpageLoop c globalConfig pre currentItem ∅ w = Returns (Some (item1, subDocs1), w1) ->
        subpageDoc c globalConfig subDocs1 w1 (Sprint (item1 !! OnSubpage f))
        = (Some (subDoc, subDocs2), w2) ->
        getTextString (Field_ElementLocation f) [subDoc] = Returns (EmptyString, None) ->
        processItem c globalConfig s pageURL items w = Returns (items, w2))
  /\ (forall n rest w',
        processItem c globalConfig [n] pageURL items w = Returns (items, w') ->
        eachItem c globalConfig (n :: rest) pageURL items w
        = eachItem c globalConfig rest pageURL items w')
  /\ (forall fields item subDocs w0,
        subpageFields c globalConfig fields item subDocs w0
        = (r ← subpageLoop c globalConfig fields item subDocs w0;
           Returns (match fst r with Some (item', _) => Some item' | None => None end, snd r))).
Proof.
  intros Hvalue Htype Hempty.
  assert (Hfield : forall event sel baseURL,
             getTextString (Field_ElementLocation f) sel = Returns (EmptyString, None) ->
             extractField f event sel baseURL
             = Returns (f, event, Some ("field " +:+ Field_Name f +:+ " cannot be empty"))).
  { intros event sel baseURL Htext. apply extractField_text_empty; assumption. }
  split; [exact Hfield |]. split; [| split; [| split]].
  - intros pre post r Hfields Hsub Hpre Htext.
    apply processItem_main_skip. rewrite Hfields, mainFields_app, Hpre, bind_Returns.
    destruct r as [item |]; [| reflexivity].
    eapply (mainFields_field_error f post item s pageURL f item); [exact Hvalue | exact Hsub |].
    apply Hfield. exact Htext.
  - intros pre post currentItem item1 subDocs1 w1 subDoc subDocs2 w2
      Hfields Hsub Hexcl Hmain Hpre Hdoc Htext.
    apply (processItem_subpage_skip c globalConfig s pageURL items w w2 currentItem Hexcl Hmain).
    rewrite Hfields, subpageFields_app, Hpre, bind_Returns, subpageFields_cons.
    unfold onSubpage. rewrite Hvalue, (eqb_empty_false _ Hsub). cbn [negb andb String.eqb].
    rewrite Hdoc, (Hfield item1 [subDoc] (URL c) Htext), bind_Returns. reflexivity.
  - intros n rest w'. apply eachItem_skip.
  - intros fields item subDocs w0. apply subpageFields_loop.
Qed.

Lemma empty_text_field_discards_item_witness :
  let E := TestEnv.env Fixtures.site 2024 in
  let items := [Sample.titled "Jazz night"] in
  let c := Sample.scraper "https://x.test/p1" [Sample.titleField] [] 0 in
  let s := [Sample.concert ""] in
  let support := Fixtures.onPage "url" (Sample.field "support" "text" (Sample.at_ "h3")) in
  let d1 := TestEnv.page_tree (Fixtures.detail "https://x.test/d1" "Moods" "20 CHF") in
  let link := <["url" := AString "https://x.test/d1"]> ∅ in
  (getTextString (Field_ElementLocation Sample.titleField) s = Returns (EmptyString, None)
   /\ extractField Sample.titleField ∅ s "https://x.test/p1"
      = Returns (Sample.titleField, ∅, Some "field title cannot be empty")
   /\ processItem c Sample.config s "https://x.test/p1" items [] = Returns (items, []))
  /\ (subpageLoop (Fixtures.scraperOf Fixtures.supportFields) Sample.config
        [Fixtures.hidden (Sample.field "url" "url" (Sample.at_ "a"));
         Fixtures.onPage "url" (Sample.field "venue" "text" (Sample.at_ "h2"))] link ∅ []
      = Returns (Some (<["venue" := AString "Moods"]> link, <["https://x.test/d1" := d1]> ∅),
                 [FetchSubpage "https://x.test/d1"])
      /\ getTextString (Field_ElementLocation support) [d1] = Returns (EmptyString, None)
      /\ extractField support (<["venue" := AString "Moods"]> link) [d1] "https://x.test/list"
         = Returns (support, <["venue" := AString "Moods"]> link,
                    Some "field support cannot be empty")
      /\ processItem (Fixtures.scraperOf Fixtures.supportFields) Sample.config
           [Sample.linkItem "/d1"] "https://x.test/list" items []
         = Returns (items, [FetchSubpage "https://x.test/d1"])).
Proof.
  intros E items c s support d1 link. split.
  - assert (Htext : getTextString (Field_ElementLocation Sample.titleField) s
                    = Returns (EmptyString, None)) by (vm_compute; reflexivity).
    destruct (empty_text_field_discards_item c Sample.config s "https://x.test/p1" items []
                Sample.titleField eq_refl (or_introl eq_refl) eq_refl)
      as (Hfield & Hmain & _).
    split; [exact Htext |]. split; [exact (Hfield ∅ s "https://x.test/p1" Htext) |].
    exact (Hmain [] [] (Some ∅) eq_refl eq_refl eq_refl Htext).
  - assert (Hpre : subpageLoop (Fixtures.scraperOf Fixtures.supportFields) Sample.config
                     [Fixtures.hidden (Sample.field "url" "url" (Sample.at_ "a"));
                      Fixtures.onPage "url" (Sample.field "venue" "text" (Sample.at_ "h2"))]
                     link ∅ []
                   = Returns (Some (<["venue" := AString "Moods"]> link,
                                    <["https://x.test/d1" := d1]> ∅),
                              [FetchSubpage "https://x.test/d1"])) by (vm_compute; reflexivity).
    assert (Htext : getTextString (Field_ElementLocation support) [d1]
                    = Returns (EmptyString, None)) by (vm_compute; reflexivity).
    destruct (empty_text_field_discards_item (Fixtures.scraperOf Fixtures.supportFields)
                Sample.config [Sample.linkItem "/d1"] "https://x.test/list" items []
                support eq_refl (or_introl eq_refl) eq_refl)
      as (Hfield & _ & Hsub & _).
    split; [exact Hpre |]. split; [exact Htext |].
    split; [exact (Hfield _ [d1] "https://x.test/list" Htext) |].
    apply (Hsub [Fixtures.hidden (Sample.field "url" "url" (Sample.at_ "a"));
                 Fixtures.onPage "url" (Sample.field "venue" "text" (Sample.at_ "h2"))]
             [] link (<["venue" := AString "Moods"]> link) (<["https://x.test/d1" := d1]> ∅)
             [FetchSubpage "https://x.test/d1"] d1 (<["https://x.test/d1" := d1]> ∅)
             [FetchSubpage "https://x.test/d1"]);
      try reflexivity; try exact Hpre; try exact Htext; try discriminate;
      vm_compute; reflexivity.
Defined.

(** ** The crawl loop *)

Lemma pagesFetched_page (w : World) (url : string) :
  pagesFetched (w ++ [FetchPage url]) = pagesFetched w + 1.
Proof. unfold pagesFetched. rewrite List.filter_app, len_app. reflexivity. Qed.

Lemma pagesFetched_subpage (w : World) (url : string) :
  pagesFetched (w ++ [FetchSubpage url]) = pagesFetched w.
Proof. unfold pagesFetched. rewrite List.filter_app, len_app. simpl. unfold len. simpl. lia. Qed.

Section Crawl.
Context `{Ext : External}.
Variable globalConfig : GlobalConfig.

(** The fetches of an item are subpage fetches. *)
Lemma subpageFields_pages (c : Scraper) (fields : list Field) (item : ItemMap)
    (subDocs : gmap string Node) (w : World) (r : option ItemMap) (w' : World) :
  subpageFields c globalConfig fields item subDocs w = Returns (r, w') ->
  pagesFetched w' = pagesFetched w.
Proof.
  revert item subDocs w. induction fields as [| f rest IH]; intros item subDocs w Hrun.
  - injection Hrun as _ <-. reflexivity.
  - simpl subpageFields in Hrun.
    destruct (negb (String.eqb (OnSubpage f) "") && String.eqb (Value f) ""); [| apply (IH _ _ _ Hrun)].
    assert (Hstep : forall fetched w1,
               (fetched, w1)
               = match subDocs !! Sprint (item !! OnSubpage f) with
                 | Some subDoc => (Some (subDoc, subDocs), w)
                 | None =>
                     let '(subRes, err, w2) :=
                       doFetch c globalConfig FetchSubpage (Sprint (item !! OnSubpage f)) w in
                     match err with
                     | Some _ => (None, w2)
                     | None =>
                         let '(subDoc, err0) := NewDocumentFromReader subRes in
                         match err0 with
                         | Some _ => (None, w2)
                         | None => (Some (subDoc, <[Sprint (item !! OnSubpage f) := subDoc]> subDocs), w2)
                         end
                     end
                 end ->
               pagesFetched w1 = pagesFetched w).
    { intros fetched w1. destruct (subDocs !! Sprint (item !! OnSubpage f)).
      - intros [= _ ->]. reflexivity.
      - unfold doFetch.
        destruct (Fetch _ _ _ _) as [subRes [err |]].
        + intros [= _ ->]. apply pagesFetched_subpage.
        + destruct (NewDocumentFromReader subRes) as [subDoc [err |]];
            intros [= _ ->]; apply pagesFetched_subpage. }
    match type of Hrun with
    | context [match ?fetched with _ => _ end] =>
        destruct fetched as [[[subDoc subDocs'] |] w1] eqn:Hfetched
    end.
    + symmetry in Hfetched. apply Hstep in Hfetched.
      destruct (extractField f item [subDoc] (URL c)) as [[[f' item'] [err |]] | msg | msg];
        simpl in Hrun; try discriminate.
      * injection Hrun as _ <-. exact Hfetched.
      * rewrite (IH _ _ _ Hrun). exact Hfetched.
    + symmetry in Hfetched. apply Hstep in Hfetched. injection Hrun as _ <-. exact Hfetched.
Qed.

Lemma processItem_pages (c : Scraper) (s : Selection) (pageURL : string) (items items' : list ItemMap)
    (w w' : World) :
  processItem c globalConfig s pageURL items w = Returns (items', w') ->
  pagesFetched w' = pagesFetched w.
Proof.
  unfold processItem. destruct (excluded c s); [intros [= _ <-]; reflexivity |].
  intros Hrun. apply bind_inv in Hrun as (main & _ & Hrun).
  destruct main as [currentItem |]; [| injection Hrun as _ <-; reflexivity].
  apply bind_inv in Hrun as ([sub w1] & Hsub & Hrun).
  apply subpageFields_pages in Hsub.
  destruct sub as [currentItem' |]; [| injection Hrun as _ <-; exact Hsub].
  destruct (filterItem c currentItem') as [keep [err |]]; [discriminate |].
  destruct keep; injection Hrun as _ <-; exact Hsub.
Qed.

Lemma eachItem_pages (c : Scraper) (nodes : list Node) (pageURL : string) (items items' : list ItemMap)
    (w w' : World) :
  eachItem c globalConfig nodes pageURL items w = Returns (items', w') ->
  pagesFetched w' = pagesFetched w.
Proof.
  revert items w. induction nodes as [| n rest IH]; intros items w Hrun.
  - injection Hrun as _ <-. reflexivity.
  - simpl eachItem in Hrun. apply bind_inv in Hrun as ([items1 w1] & Hitem & Hrun).
    rewrite (IH _ _ Hrun). apply (processItem_pages _ _ _ _ _ _ _ Hitem).
Qed.

(** One pass through the loop body on a page that is fetched and
    parsed, whose items are processed and whose next-page URL is read. *)
Lemma iterate_spec (st : LoopState) (res : string) (doc : Node) (items : list ItemMap) (w' : World)
    (e : ElementLocation) (nextURL : string) :
  let c := ls_c st in
  0 <= ls_currentPage st < maxInt ->
  Fetch (RenderJs c) (UserAgent globalConfig) (map call_url (ls_world st)) (ls_pageURL st)
  = (res, None) ->
  NewDocumentFromReader res = (doc, None) ->
  eachItem c globalConfig (Find [doc] (Item c)) (ls_pageURL st) (ls_items st)
    (ls_world st ++ [FetchPage (ls_pageURL st)]) = Returns (items, w') ->
  getURLString (Location (Scraper_Paginator c)) [doc] (ls_pageURL st) = Returns (e, nextURL) ->
  iterate globalConfig st
  = Returns (if stopsAfter (MaxPages (Scraper_Paginator c)) nextURL (ls_currentPage st + 1)
             then Return_ items None w'
             else NextPage {| ls_c := set_Paginator_Location e c; ls_items := items;
                              ls_pageURL := nextURL; ls_currentPage := ls_currentPage st + 1;
                              ls_world := w' |}).
Proof.
  intros c Hcp Hfetch Hparse Heach Hnext.
  unfold iterate, doFetch. fold c. rewrite Hfetch, Hparse, Heach, bind_Returns, Hnext, bind_Returns.
  rewrite wrap_small by (unfold maxInt in Hcp; lia).
  unfold stopsAfter. simpl MaxPages.
  destruct (String.eqb nextURL ""); [reflexivity |]. simpl negb. simpl orb. cbv iota.
  destruct (Z.ltb_spec (ls_currentPage st + 1) (MaxPages (Scraper_Paginator c))),
           (Z.eqb_spec (MaxPages (Scraper_Paginator c)) 0),
           (Z.leb_spec (MaxPages (Scraper_Paginator c)) (ls_currentPage st + 1));
    simpl; try reflexivity; lia.
Qed.

(** What every pass through the loop body does to the page counter
    and to the number of pages fetched. *)
Lemma iterate_pages (st : LoopState) (it : iteration) :
  iterate globalConfig st = Returns it ->
  match it with
  | Return_ _ _ w' => pagesFetched w' = pagesFetched (ls_world st) + 1
  | NextPage st' =>
      pagesFetched (ls_world st') = pagesFetched (ls_world st) + 1
      /\ ls_currentPage st' = wrap (ls_currentPage st + 1)
      /\ MaxPages (Scraper_Paginator (ls_c st')) = MaxPages (Scraper_Paginator (ls_c st))
      /\ (ls_currentPage st' < MaxPages (Scraper_Paginator (ls_c st))
          \/ MaxPages (Scraper_Paginator (ls_c st)) = 0)
      /\ ls_pageURL st' <> EmptyString
  end.
Proof.
  unfold iterate, doFetch.
  destruct (Fetch _ _ _ _) as [res [err |]]; [intros [= <-]; apply pagesFetched_page |].
  destruct (NewDocumentFromReader res) as [doc [err |]]; [intros [= <-]; apply pagesFetched_page |].
  intros Hit.
  apply bind_inv in Hit as ([items w'] & Heach & Hit).
  apply bind_inv in Hit as ([e pageURL] & _ & Hit).
  apply eachItem_pages in Heach. rewrite pagesFetched_page in Heach.
  destruct (String.eqb_spec pageURL "") as [| Hurl]; [injection Hit as <-; exact Heach |].
  simpl negb in Hit. cbv iota in Hit. simpl MaxPages in Hit.
  destruct (Z.ltb_spec (wrap (ls_currentPage st + 1)) (MaxPages (Scraper_Paginator (ls_c st))));
    [| destruct (Z.eqb_spec (MaxPages (Scraper_Paginator (ls_c st))) 0)];
    simpl in Hit; injection Hit as <-; simpl; auto 6.
Qed.

(** With a positive page limit the loop ends within that many
    iterations, and fetches no more pages than the limit allows. *)
Lemma crawl_bounded (fuel : nat) (st : LoopState) :
  let maxPages := MaxPages (Scraper_Paginator (ls_c st)) in
  0 <= ls_currentPage st < maxPages ->
  maxPages <= maxInt ->
  maxPages - ls_currentPage st <= Z.of_nat fuel ->
  exists out,
    crawl fuel globalConfig st = Some out
    /\ forall items err w',
         out = Returns (items, err, w') ->
         pagesFetched w' <= pagesFetched (ls_world st) + (maxPages - ls_currentPage st).
Proof.
  revert st. induction fuel as [| fuel IH]; intros st maxPages Hcp Hmax Hfuel; [simpl in Hfuel; lia |].
  simpl crawl.
  destruct (iterate globalConfig st) as [[items err w' | st'] | msg | msg] eqn:Hit.
  - apply iterate_pages in Hit. eexists. split; [reflexivity |].
    intros items0 err0 w0 [= _ _ <-]. lia.
  - apply iterate_pages in Hit as (Hpages & Hcount & Hsame & Hgo & _).
    rewrite wrap_small in Hcount by (unfold maxInt in *; fold maxPages in Hmax; lia).
    fold maxPages in Hgo, Hsame.
    destruct (IH st') as (out & Hout & Hbound); try (rewrite ?Hsame; lia).
    exists out. split; [exact Hout |].
    intros items err w' Hret. specialize (Hbound items err w' Hret).
    rewrite Hsame in Hbound. fold maxPages in Hbound. lia.
  - eexists. split; [reflexivity | discriminate].
  - eexists. split; [reflexivity | discriminate].
Qed.

End Crawl.

Lemma stopsAfter_iff (maxPages : Z) (nextURL : string) (fetched : Z) :
  0 <= maxPages ->
  stopsAfter maxPages nextURL fetched = true
  <-> nextURL = EmptyString \/ (0 < maxPages /\ maxPages <= fetched).
Proof.
  intros Hmax. unfold stopsAfter.
  destruct (String.eqb_spec nextURL "") as [-> | Hurl]; [simpl; tauto |].
  destruct (Z.eqb_spec maxPages 0), (Z.leb_spec maxPages fetched); simpl;
    split; try discriminate; try tauto; try lia; intros [? | ?]; try contradiction; lia.
Qed.

Lemma stopsAfter_negative (maxPages : Z) (nextURL : string) (fetched : Z) :
  maxPages < 0 -> 0 <= fetched -> stopsAfter maxPages nextURL fetched = true.
Proof.
  intros Hmax Hfetched. unfold stopsAfter.
  destruct (Z.eqb_spec maxPages 0), (Z.leb_spec maxPages fetched); simpl;
    try lia; apply orb_true_r.
Qed.

(** C5 (as stated) fails: with maxPages = -1 the loop stops after the
    first page, although that page has a next-page URL and maxPages is
    not positive. *)
Lemma GetItems_negative_maxPages_stops :
  let E := TestEnv.env Sample.site 2024 in
  let c := Sample.scraper "https://x.test/p1" [Sample.titleField] [] (-1) in
  getURLString (Location (Scraper_Paginator c)) [TestEnv.page_tree Sample.page1] "https://x.test/p1"
  = Returns (set_Attr "href" (Sample.at_ "a"), "https://x.test/p2")
  /\ (MaxPages (Scraper_Paginator c) >? 0) = false
  /\ GetItems 5 c Sample.config []
     = Some (Returns ([Sample.titled "Jazz night"; Sample.titled "Folk evening"], None,
                      [FetchPage "https://x.test/p1"])).
Proof. vm_compute. repeat split. Qed.

(** C5 (as amended). After a page that is fetched, parsed and
    processed, the loop of GetItems stops exactly when the next-page
    URL read from the page is empty, or maxPages is not 0 and the
    number of pages fetched has reached maxPages; the page counter is
    the number of pages fetched.  So for maxPages >= 0 it stops when
    the URL is empty or maxPages > 0 and the pages fetched reach it,
    maxPages = 0 being no bound, and for a negative maxPages it stops
    after the first page.  With a positive maxPages the loop ends and
    fetches at most maxPages pages; with maxPages = 2 and a first page
    that leads on, it fetches exactly two. *)
Theorem crawl_stops `{Ext : External} (globalConfig : GlobalConfig) :
  (forall st res doc items w' e nextURL,
     0 <= ls_currentPage st < maxInt ->
     Fetch (RenderJs (ls_c st)) (UserAgent globalConfig) (map call_url (ls_world st)) (ls_pageURL st)
     = (res, None) ->
     NewDocumentFromReader res = (doc, None) ->
     eachItem (ls_c st) globalConfig (Find [doc] (Item (ls_c st))) (ls_pageURL st) (ls_items st)
       (ls_world st ++ [FetchPage (ls_pageURL st)]) = Returns (items, w') ->
     getURLString (Location (Scraper_Paginator (ls_c st))) [doc] (ls_pageURL st)
     = Returns (e, nextURL) ->
     let maxPages := MaxPages (Scraper_Paginator (ls_c st)) in
     let fetched := ls_currentPage st + 1 in
     iterate globalConfig st
     = Returns (if stopsAfter maxPages nextURL fetched then Return_ items None w'
                else NextPage {| ls_c := set_Paginator_Location e (ls_c st); ls_items := items;
                                 ls_pageURL := nextURL; ls_currentPage := fetched;
                                 ls_world := w' |})
     /\ (0 <= maxPages ->
         (stopsAfter maxPages nextURL fetched = true
          <-> nextURL = EmptyString \/ (0 < maxPages /\ maxPages <= fetched)))
     /\ (maxPages < 0 -> stopsAfter maxPages nextURL fetched = true))
  /\ (forall st st',
        0 <= ls_currentPage st < maxInt ->
        iterate globalConfig st = Returns (NextPage st') ->
        ls_currentPage st' = ls_currentPage st + 1
        /\ pagesFetched (ls_world st') = pagesFetched (ls_world st) + 1)
  /\ (forall c w fuel,
        0 < MaxPages (Scraper_Paginator c) <= maxInt ->
        MaxPages (Scraper_Paginator c) <= Z.of_nat fuel ->
        exists out,
          GetItems fuel c globalConfig w = Some out
          /\ forall items err w',
               out = Returns (items, err, w') ->
               pagesFetched w' <= pagesFetched w + MaxPages (Scraper_Paginator c))
  /\ (forall c w fuel st1,
        MaxPages (Scraper_Paginator c) = 2 ->
        iterate globalConfig (initialState c w) = Returns (NextPage st1) ->
        (2 <= fuel)%nat ->
        exists out,
          GetItems fuel c globalConfig w = Some out
          /\ forall items err w',
               out = Returns (items, err, w') -> pagesFetched w' = pagesFetched w + 2)
  /\ (forall c w fuel,
        MaxPages (Scraper_Paginator c) < 0 ->
        (1 <= fuel)%nat ->
        exists out,
          GetItems fuel c globalConfig w = Some out
          /\ forall items err w',
               out = Returns (items, err, w') -> pagesFetched w' = pagesFetched w + 1).
Proof.
  split.
  { intros st res doc items w' e nextURL Hcp Hfetch Hparse Heach Hnext maxPages fetched.
    split; [apply (iterate_spec globalConfig st res doc); assumption |].
    split; [apply stopsAfter_iff | intros Hneg; apply stopsAfter_negative; unfold fetched; lia]. }
  split.
  { intros st st' Hcp Hit. apply iterate_pages in Hit as (Hpages & Hcount & _).
    rewrite wrap_small in Hcount by (unfold maxInt in Hcp; lia). auto. }
  split.
  { intros c w fuel Hmax Hfuel.
    destruct (crawl_bounded globalConfig fuel (initialState c w)) as (out & Hout & Hbound);
      simpl; try lia.
    exists out. split; [exact Hout |].
    intros items err w' Hret. specialize (Hbound items err w' Hret). simpl in Hbound. lia. }
  split.
  { intros c w fuel st1 Hmax Hfirst Hfuel.
    destruct fuel as [| [| fuel]]; try lia.
    unfold GetItems. fold (initialState c w). simpl crawl. rewrite Hfirst.
    apply iterate_pages in Hfirst as (Hpages1 & Hcount1 & Hsame1 & _).
    simpl in Hpages1, Hcount1, Hsame1. rewrite wrap_small in Hcount1 by lia.
    destruct (iterate globalConfig st1) as [[items err w' | st2] | msg | msg] eqn:Hsecond.
    - apply iterate_pages in Hsecond. eexists. split; [reflexivity |].
      intros items0 err0 w0 [= _ _ <-]. lia.
    - apply iterate_pages in Hsecond as (_ & Hcount2 & _ & Hgo & _).
      rewrite Hcount1, wrap_small in Hcount2 by lia. rewrite Hsame1, Hmax in Hgo. lia.
    - eexists. split; [reflexivity | discriminate].
    - eexists. split; [reflexivity | discriminate]. }
  intros c w fuel Hmax Hfuel.
  destruct fuel as [| fuel]; try lia.
  unfold GetItems. fold (initialState c w). simpl crawl.
  destruct (iterate globalConfig (initialState c w)) as [[items err w' | st1] | msg | msg] eqn:Hfirst.
  - apply iterate_pages in Hfirst. eexists. split; [reflexivity |].
    intros items0 err0 w0 [= _ _ <-]. exact Hfirst.
  - apply iterate_pages in Hfirst as (_ & Hcount & _ & Hgo & _).
    simpl in Hcount, Hgo. rewrite wrap_small in Hcount by lia. lia.
  - eexists. split; [reflexivity | discriminate].
  - eexists. split; [reflexivity | discriminate].
Qed.

Lemma crawl_stops_witness :
  let E := TestEnv.env Sample.site 2024 in
  let c := Sample.scraper "https://x.test/p1" [Sample.titleField] [] 2 in
  MaxPages (Scraper_Paginator c) = 2
  /\ (exists st1, iterate Sample.config (initialState c []) = Returns (NextPage st1))
  /\ getURLString (Location (Scraper_Paginator c)) [TestEnv.page_tree Sample.page2] "https://x.test/p2"
     = Returns (set_Attr "href" (Sample.at_ "a"), "https://x.test/p3")
  /\ exists items w',
       GetItems 5 c Sample.config [] = Some (Returns (items, None, w'))
       /\ w' = [FetchPage "https://x.test/p1"; FetchPage "https://x.test/p2"]
       /\ pagesFetched w' = 2.
Proof.
  intros E c.
  assert (Hmax : MaxPages (Scraper_Paginator c) = 2) by reflexivity.
  assert (Hrun : GetItems 5 c Sample.config []
                 = Some (Returns ([Sample.titled "Jazz night"; Sample.titled "Folk evening";
                                   Sample.titled "Blues brunch"], None,
                                  [FetchPage "https://x.test/p1"; FetchPage "https://x.test/p2"])))
    by (vm_compute; reflexivity).
  destruct (iterate Sample.config (initialState c [])) as [[items err w' | st1] | msg | msg] eqn:Hfirst;
    try (vm_compute in Hfirst; discriminate).
  split; [exact Hmax |]. split; [exists st1; reflexivity |].
  split; [vm_compute; reflexivity |].
  destruct (proj1 (proj2 (proj2 (proj2 (crawl_stops Sample.config)))) c [] 5%nat st1 Hmax Hfirst)
    as (out & Hout & Hpages); [lia |].
  do 2 eexists. split; [exact Hrun |]. split; [reflexivity |].
  rewrite Hrun in Hout. injection Hout as <-.
  apply (Hpages _ _ _ eq_refl).
Defined.

(** ** Failures *)

Section Failures.
Context `{Ext : External}.
Variable globalConfig : GlobalConfig.



(** The fields before the first one found on a subpage leave the
    second loop as it starts. *)
Lemma subpageFields_prefix (c : Scraper) (pre rest : list Field) (item : ItemMap)
    (subDocs : gmap string Node) (w : World) :
  forallb (fun f => negb (onSubpage f)) pre = true ->
  subpageFields c globalConfig (pre ++ rest) item subDocs w
  = subpageFields c globalConfig rest item subDocs w.
Proof.
  induction pre as [| f pre IH]; intros Hpre; [reflexivity |].
  simpl in Hpre. apply andb_prop in Hpre as [Hf Hpre].
  simpl app. simpl subpageFields. unfold onSubpage in Hf.
  apply negb_true_iff in Hf. rewrite Hf. apply IH, Hpre.
Qed.


End Failures.



(** ** The API sink *)

Lemma sourceOf_Some (item : ItemMap) (src : string) :
  sourceOf item = Some src -> item !! "sourceUrl" = Some (AString src).
Proof.
  unfold sourceOf. destruct (item !! "sourceUrl") as [[s | t] |]; [| discriminate..].
  intros [= ->]. reflexivity.
Qed.

Lemma dateOf_Some (item : ItemMap) (t : time_Time) :
  dateOf item = Some t -> item !! "date" = Some (ATime t).
Proof.
  unfold dateOf. destruct (item !! "date") as [[s | t'] |]; [discriminate | | discriminate].
  intros [= ->]. reflexivity.
Qed.



Lemma lookup_extend (trace more : list ApiCall) (a : ApiCall) :
  (exists j, trace !! j = Some a) -> exists j, (trace ++ more) !! j = Some a.
Proof.
  intros (j & Hj). exists j. rewrite lookup_app_l; [exact Hj |].
  apply (lookup_lt_Some _ _ _ Hj).
Qed.

Lemma deleted_extend (trace more : list ApiCall) (records : list ItemMap) :
  deleted trace records -> deleted (trace ++ more) records.
Proof.
  intros Hdeleted item src Hin Hsrc.
  destruct (Hdeleted item src Hin Hsrc) as (j & t & Hj).
  destruct (lookup_extend trace more (DeleteCall src t)) as (k & Hk); eauto.
Qed.

Lemma batchesOf_app (a b : list ApiCall) : batchesOf (a ++ b) = batchesOf a ++ batchesOf b.
Proof. unfold batchesOf. apply omap_app. Qed.

(** An API that takes every request serves the sink. *)
Lemma cooperative_serves `{Net : Network} (wc : WriterConfig) : cooperative -> serves wc.
Proof.
  intros (Haccept & Hmarshal & Hdelete & Hpost).
  split; [exact Haccept |]. split; [exact Hmarshal |]. split.
  - intros trace src t. apply Hdelete. reflexivity.
  - intros trace batch. apply Hpost. reflexivity.
Qed.

Section Sink.
Context `{Net : Network}.
Variable wc : WriterConfig.
Hypothesis Hserves : serves wc.

(** The requests of the sink are those the specification describes. *)
Lemma wire_expected (a : ApiCall) : wire wc a = [expectedRequest wc a].
Proof.
  destruct Hserves as (Haccept & _). unfold wire, deleteRequest, postRequest, NewRequest.
  destruct a as [src t | batch]; rewrite Haccept; reflexivity.
Qed.

Lemma sent_expected (trace : list ApiCall) : sent wc trace = map (expectedRequest wc) trace.
Proof.
  unfold sent. induction trace as [| a trace IH]; [reflexivity |].
  cbn [flat_map map]. rewrite wire_expected, IH. reflexivity.
Qed.

Lemma deleteSource_ok (currentSrc : string) (item : ItemMap) (t : time_Time) (trace : list ApiCall) :
  dateOf item = Some t ->
  deleteSource wc currentSrc item trace = Returns (trace ++ [DeleteCall currentSrc t]).
Proof.
  intros Hdate. pose proof Hserves as (Haccept & _ & Hdelete & _).
  unfold deleteSource. rewrite (dateOf_Some _ _ Hdate), bind_Returns.
  unfold deleteRequest, NewRequest. rewrite Haccept. simpl SetBasicAuth. rewrite bind_Returns.
  rewrite sent_expected.
  destruct (Hdelete trace currentSrc t) as (resp & Hdo & Hstatus).
  unfold expectedDelete in Hdo. unfold deleteURL. rewrite Hdo, Hstatus. reflexivity.
Qed.

Lemma postBatch_ok (batch : list ItemMap) (trace : list ApiCall) :
  postBatch wc batch trace = Returns (trace ++ [PostCall batch]).
Proof.
  pose proof Hserves as (Haccept & Hmarshal & _ & Hpost).
  unfold postBatch. specialize (Hmarshal batch).
  destruct (Hpost trace batch) as (resp & Hdo & Hstatus). unfold expectedPost in Hdo.
  destruct (json_Marshal batch) as [concertJSON err]. simpl in Hmarshal, Hdo. subst err.
  unfold postRequest, NewRequest. rewrite Haccept. simpl set_Header. rewrite bind_Returns.
  simpl SetBasicAuth. rewrite bind_Returns, sent_expected, Hdo, Hstatus. reflexivity.
Qed.

(** One record through the body of the loop.  The date of the record
    counts only when its source is new. *)
Lemma writeItem_ok (item : ItemMap) (st : SinkState) (src : string) (t : time_Time) :
  sourceOf item = Some src ->
  (deletedSources st !! src = None -> dateOf item = Some t) ->
  let isNew := match deletedSources st !! src with Some _ => false | None => true end in
  let full := len (batch st ++ [item]) =? 100 in
  writeItem wc item st
  = Returns {| deletedSources := if isNew then <[src := true]> (deletedSources st)
                                 else deletedSources st;
               nrItems := wrap (nrItems st + 1);
               batch := if full then [] else batch st ++ [item];
               trace := (trace st ++ (if isNew then [DeleteCall src t] else []))
                        ++ (if full then [PostCall (batch st ++ [item])] else []) |}.
Proof.
  intros Hsrc Hdate isNew full. unfold writeItem.
  rewrite (sourceOf_Some _ _ Hsrc), bind_Returns. subst isNew.
  destruct (deletedSources st !! src) as [b |].
  - rewrite bind_Returns. subst full.
    destruct (len (batch st ++ [item]) =? 100).
    + rewrite postBatch_ok, bind_Returns, app_nil_r. reflexivity.
    + rewrite !app_nil_r. reflexivity.
  - rewrite (deleteSource_ok src item t _ (Hdate eq_refl)), !bind_Returns. subst full.
    destruct (len (batch st ++ [item]) =? 100).
    + rewrite postBatch_ok, bind_Returns. reflexivity.
    + rewrite app_nil_r. reflexivity.
Qed.

End Sink.

Section SinkInvariant.
Context `{Net : Network}.
Variable wc : WriterConfig.
Hypothesis Hserves : serves wc.





End SinkInvariant.

(** ** The first record of every source *)






(** ** Failing requests *)

Section SinkFailures.
Context `{Net : Network}.
Variable wc : WriterConfig.

Lemma writeLoop_app (pre post : list ItemMap) (st : SinkState) :
  writeLoop wc (pre ++ post) st = (st' ← writeLoop wc pre st; writeLoop wc post st').
Proof.
  revert st. induction pre as [| item pre IH]; intros st; [reflexivity |].
  simpl. destruct (writeItem wc item st) as [st1 | msg | msg]; simpl; [apply IH | reflexivity..].
Qed.



(** What ends the body of the loop ends the sink. *)
Lemma Write_fatal_item (pre : list ItemMap) (item : ItemMap) (rest : list ItemMap)
    (st : SinkState) (msg : string) :
  writeLoop wc pre initialSink = Returns st ->
  writeItem wc item st = Exits msg ->
  Write wc (pre ++ item :: rest) = Exits msg.
Proof.
  intros Hpre Hitem. unfold Write. fold initialSink.
  rewrite writeLoop_app, Hpre, bind_Returns. simpl writeLoop. rewrite Hitem. reflexivity.
Qed.

End SinkFailures.

Lemma network_cooperative : cooperative (Net := TestEnv.network []).
Proof.
  split; [reflexivity |]. split; [reflexivity |]. split.
  - intros history req Hmethod. simpl. rewrite Hmethod. eexists. split; reflexivity.
  - intros history req Hmethod. simpl. rewrite Hmethod. eexists. split; reflexivity.
Defined.




(** A DELETE answered with 500 ends the sink. *)
Example api_sink_delete_refused :
  Write (Net := TestEnv.network
                  ["https://api.test/concerts?sourceUrl=https%3A%2F%2Fb.test&datetime=2024-04-13+20%3A00"])
    Sample.writer Sample.records
  = Exits ("something went wrong while deleting items. Status Code: 500"
           +:+ String (ascii_of_nat 10)
                 "Url: https://api.test/concerts?sourceUrl=https%3A%2F%2Fb.test&datetime=2024-04-13+20%3A00 Response: internal error").
Proof. vm_compute. reflexivity. Qed.

(** The year appended by default is the year of the run. *)
Example getDate_defaults_other_year :
  getDate (Ext := TestEnv.env [] 2031)
    (Sample.dateField [Sample.component true true false false "span" ["02.01"];
                       Sample.component false false false true "em" ["15:04"]])
    [Sample.event "12.04" "18:30"]
  = Returns (Sample.berlin 2031 4 12 18 30, None).
Proof. vm_compute. reflexivity. Qed.

(** * Further properties *)

(** ** removeHiddenFields *)

Lemma removeHidden_fold_lookup (fields : list Field) (item : ItemMap) (key : string) :
  fold_left (fun item f => if Hide f then delete (Field_Name f) item else item) fields item !! key
  = if existsb (fun f => Hide f && String.eqb (Field_Name f) key) fields then None
    else item !! key.
Proof.
  revert item. induction fields as [| f rest IH]; intros item; [reflexivity |].
  simpl fold_left. rewrite IH. simpl existsb.
  destruct (Hide f); simpl andb; [| reflexivity].
  destruct (String.eqb_spec (Field_Name f) key) as [-> | Hne]; simpl orb.
  - destruct (existsb _ rest); [reflexivity | apply lookup_delete_eq].
  - destruct (existsb _ rest); [reflexivity | apply lookup_delete_ne; exact Hne].
Qed.

(** X1. After removeHiddenFields an item has no value under the name
    of any field marked as hidden, and under every other key the
    value it had before. *)
Theorem removeHiddenFields_lookup `{Ext : External} (c : Scraper) (item : ItemMap) (key : string) :
  removeHiddenFields c item !! key = if hiddenKey c key then None else item !! key.
Proof. unfold removeHiddenFields, hiddenKey. apply removeHidden_fold_lookup. Qed.

(** ** extractStringRegex and getTextString *)

Lemma index_slice_In {A : Type} (l : list A) (i : Z) (a : A) :
  index_slice l i = Returns a -> In a l.
Proof.
  unfold index_slice. destruct (_ && _); [| discriminate].
  destruct (l !! Z.to_nat i) as [b |] eqn:Hb; [| discriminate].
  intros [= <-]. apply list_elem_of_In. exact (list_elem_of_lookup_2 _ _ _ Hb).
Qed.

(** X2. What extractStringRegex returns without an error is the input
    itself when no pattern is set, and otherwise one of the matches of
    the pattern in the input; whenever it returns an error, a pattern
    is set and the string returned is empty. *)
Theorem extractStringRegex_returns_a_match `{Ext : External} (rc : RegexConfig) (s r : string)
    (err : error) :
  extractStringRegex rc s = Returns (r, err) ->
  match err with
  | None =>
      (Exp rc = EmptyString /\ r = s)
      \/ (Exp rc <> EmptyString
          /\ exists regex, regexp_Compile (Exp rc) = inl regex
                           /\ In r (FindAllString regex s (-1)))
  | Some _ => Exp rc <> EmptyString /\ r = EmptyString
  end.
Proof.
  unfold extractStringRegex.
  destruct (String.eqb_spec (Exp rc) "") as [Hexp | Hexp].
  { intros [= <- <-]. left. split; [exact Hexp | reflexivity]. }
  destruct (regexp_Compile (Exp rc)) as [regex | e] eqn:Hcompile.
  2: { intros [= <- <-]. split; [exact Hexp | reflexivity]. }
  destruct (len (FindAllString regex s (-1)) =? 0).
  { intros [= <- <-]. split; [exact Hexp | reflexivity]. }
  destruct (Index rc =? -1).
  { intros Hrun. apply bind_inv in Hrun as (m & Hm & [= <- <-]).
    right. split; [exact Hexp |]. exists regex. split; [reflexivity |].
    exact (index_slice_In _ _ _ Hm). }
  destruct (Index rc >=? len (FindAllString regex s (-1))).
  { intros [= <- <-]. split; [exact Hexp | reflexivity]. }
  intros Hrun. apply bind_inv in Hrun as (m & Hm & [= <- <-]).
  right. split; [exact Hexp |]. exists regex. split; [reflexivity |].
  exact (index_slice_In _ _ _ Hm).
Qed.

Lemma extractStringRegex_returns_a_match_witness :
  let E := TestEnv.env [] 2024 in
  extractStringRegex {| Exp := "a[0-9]"; Index := 1 |} "a1 a2 a3" = Returns ("a2", None)
  /\ ((Exp {| Exp := "a[0-9]"; Index := 1 |} = EmptyString /\ "a2" = "a1 a2 a3")
      \/ (Exp {| Exp := "a[0-9]"; Index := 1 |} <> EmptyString
          /\ exists regex, regexp_Compile "a[0-9]" = inl regex
                           /\ In "a2" (FindAllString regex "a1 a2 a3" (-1)))).
Proof.
  intros E.
  assert (Hrun : extractStringRegex {| Exp := "a[0-9]"; Index := 1 |} "a1 a2 a3"
                 = Returns ("a2", None)) by (vm_compute; reflexivity).
  split; [exact Hrun |].
  exact (extractStringRegex_returns_a_match _ _ _ _ Hrun).
Defined.

Lemma extractStringRegex_no_pattern `{Ext : External} (rc : RegexConfig) (s : string) :
  Exp rc = EmptyString -> extractStringRegex rc s = Returns (s, None).
Proof. intros Hexp. unfold extractStringRegex. rewrite Hexp. reflexivity. Qed.

(** X3. With an attribute set, getTextString reads the attribute of
    the first node the selector matches, whatever the node index: any
    two node indices below the number of matches, negative ones
    included, give the same result. *)
Theorem getTextString_attr_ignores_node_index `{Ext : External} (t : ElementLocation)
    (s : Selection) (i : Z) :
  Attr t <> EmptyString ->
  NodeIndex t < len (Find s (Selector t)) ->
  i < len (Find s (Selector t)) ->
  getTextString (set_NodeIndex i t) s = getTextString t s.
Proof.
  intros Hattr Ht Hi. unfold getTextString. cbn [set_NodeIndex Selector NodeIndex Attr].
  rewrite (eqb_empty_false _ Hattr).
  replace (len (Find s (Selector t)) >? i) with true by (symmetry; apply Z.gtb_lt; lia).
  replace (len (Find s (Selector t)) >? NodeIndex t) with true by (symmetry; apply Z.gtb_lt; lia).
  reflexivity.
Qed.

Lemma getTextString_attr_ignores_node_index_witness :
  let E := TestEnv.env [] 2024 in
  let t := set_NodeIndex 1 (set_Attr "href" (Sample.at_ "a")) in
  let s := [TestEnv.document [TestEnv.element "a" (Sample.href "/one") [];
                              TestEnv.element "a" (Sample.href "/two") []]] in
  Attr t <> EmptyString
  /\ NodeIndex t < len (Find s (Selector t))
  /\ -1 < len (Find s (Selector t))
  /\ getTextString (set_NodeIndex (-1) t) s = getTextString t s
  /\ getTextString t s = Returns ("/one", None).
Proof.
  intros E t s.
  assert (Hattr : Attr t <> EmptyString) by discriminate.
  assert (Ht : NodeIndex t < len (Find s (Selector t))) by (vm_compute; reflexivity).
  assert (Hi : -1 < len (Find s (Selector t))) by (vm_compute; reflexivity).
  split; [exact Hattr |]. split; [exact Ht |]. split; [exact Hi |].
  split; [exact (getTextString_attr_ignores_node_index t s (-1) Hattr Ht Hi) |].
  vm_compute. reflexivity.
Defined.

Lemma gtb_false (a b : Z) : a <= b -> (a >? b) = false.
Proof. intros H. rewrite Z.gtb_ltb. apply Z.ltb_ge. exact H. Qed.

Lemma gtb_true (a b : Z) : b < a -> (a >? b) = true.
Proof. intros H. apply Z.gtb_lt. lia. Qed.

Lemma getTextString_nothing_selected `{Ext : External} (t : ElementLocation) (s : Selection) :
  len (Find s (Selector t)) <= NodeIndex t ->
  Exp (RegexExtract t) = EmptyString ->
  getTextString t s = Returns (EmptyString, None).
Proof.
  intros Hlen Hexp. unfold getTextString. rewrite (gtb_false _ _ Hlen), bind_Returns.
  change (TrimSpace "") with EmptyString.
  rewrite (extractStringRegex_no_pattern _ _ Hexp), bind_Returns.
  change (strlen "") with 0.
  destruct (MaxLength t >? 0) eqn:Hpos; [| reflexivity].
  apply Z.gtb_lt in Hpos.
  replace (MaxLength t <? 0) with false by (symmetry; apply Z.ltb_ge; lia). reflexivity.
Qed.

(** X4. A text field whose selector matches fewer nodes than the
    node index asks for, and which has no pattern, reads as the empty
    string: a field that may be empty is stored as the empty string,
    any other makes extractField return the error that the field
    cannot be empty, with the item unchanged. *)
Theorem extractField_text_nothing_selected `{Ext : External} (f : Field) (event : ItemMap)
    (s : Selection) (baseURL : string) :
  Field_Type f = "text" \/ Field_Type f = EmptyString ->
  len (Find s (Selector (Field_ElementLocation f))) <= NodeIndex (Field_ElementLocation f) ->
  Exp (RegexExtract (Field_ElementLocation f)) = EmptyString ->
  extractField f event s baseURL
  = Returns (f,
             if CanBeEmpty f then <[Field_Name f := AString EmptyString]> event else event,
             if CanBeEmpty f then None
             else Some ("field " +:+ Field_Name f +:+ " cannot be empty")).
Proof.
  intros Htype Hlen Hexp. unfold extractField.
  replace (String.eqb (Field_Type f) "text" || String.eqb (Field_Type f) "") with true
    by (destruct Htype as [-> | ->]; reflexivity).
  rewrite (getTextString_nothing_selected _ _ Hlen Hexp), bind_Returns.
  destruct (CanBeEmpty f); reflexivity.
Qed.

Lemma extractField_text_nothing_selected_witness :
  let E := TestEnv.env [] 2024 in
  let f := Sample.field "title" "text" (Sample.at_ "h1") in
  let s := [Sample.concert "Jazz night"] in
  (Field_Type f = "text" \/ Field_Type f = EmptyString)
  /\ len (Find s (Selector (Field_ElementLocation f))) <= NodeIndex (Field_ElementLocation f)
  /\ Exp (RegexExtract (Field_ElementLocation f)) = EmptyString
  /\ extractField f ∅ s Sample.baseURL
     = Returns (f, ∅, Some "field title cannot be empty").
Proof.
  intros E f s.
  assert (Htype : Field_Type f = "text" \/ Field_Type f = EmptyString) by (left; reflexivity).
  assert (Hlen : len (Find s (Selector (Field_ElementLocation f)))
                 <= NodeIndex (Field_ElementLocation f)) by (vm_compute; discriminate).
  assert (Hexp : Exp (RegexExtract (Field_ElementLocation f)) = EmptyString) by reflexivity.
  split; [exact Htype |]. split; [exact Hlen |]. split; [exact Hexp |].
  exact (extractField_text_nothing_selected f ∅ s Sample.baseURL Htype Hlen Hexp).
Defined.

Lemma strlen_app (a b : string) : strlen (a +:+ b) = strlen a + strlen b.
Proof.
  unfold strlen. induction a as [| x a IH]; [reflexivity |].
  rewrite append_cons. cbn [String.length]. lia.
Qed.

Lemma length_takeBytes (n : nat) (s : string) :
  (n <= String.length s)%nat -> String.length (takeBytes n s) = n.
Proof.
  revert s. induction n as [| n IH]; intros s Hn; [reflexivity |].
  destruct s as [| x s]; cbn [String.length] in Hn; [lia |].
  cbn [takeBytes String.length]. rewrite IH by lia. reflexivity.
Qed.

(** X5. With a maximal length set, a text read from an attribute or
    from an entire subtree comes back no longer than that length plus
    the three bytes of the ellipsis. *)
Theorem getTextString_max_length `{Ext : External} (t : ElementLocation) (s : Selection)
    (r : string) :
  Attr t <> EmptyString \/ EntireSubtree t = true ->
  0 < MaxLength t ->
  getTextString t s = Returns (r, None) ->
  strlen r <= MaxLength t + 3.
Proof.
  intros Hpath Hmax Hrun. unfold getTextString in Hrun.
  apply bind_inv in Hrun as (raw & Hraw & Hrun).
  assert (Hinr : exists fieldString, raw = inr fieldString).
  { destruct (len (Find s (Selector t)) >? NodeIndex t); [| injection Hraw as <-; eauto].
    destruct (String.eqb_spec (Attr t) "") as [Hattr | Hattr];
      [| injection Hraw as <-; eauto].
    destruct Hpath as [Hpath | Hpath]; [contradiction |].
    rewrite Hpath in Hraw. apply bind_inv in Hraw as (n & _ & [= <-]). eauto. }
  destruct Hinr as (fieldString & ->).
  apply bind_inv in Hrun as ([fs err] & _ & Hrun).
  destruct err as [e |]; [discriminate |].
  rewrite (gtb_true _ _ Hmax) in Hrun. cbn [andb] in Hrun.
  destruct (Z.ltb_spec (MaxLength t) (strlen fs)) as [Hlong | Hshort].
  - injection Hrun as <-. rewrite strlen_app. unfold strlen at 1.
    rewrite length_takeBytes by (unfold strlen in Hlong; lia).
    change (strlen "...") with 3. lia.
  - injection Hrun as <-. lia.
Qed.

Lemma getTextString_max_length_witness :
  let E := TestEnv.env [] 2024 in
  let t := {| Selector := "span"; NodeIndex := 0; ChildIndex := 0;
              RegexExtract := {| Exp := EmptyString; Index := 0 |};
              Attr := EmptyString; MaxLength := 4; EntireSubtree := true |} in
  let s := [Sample.concert "Jazz night"] in
  (Attr t <> EmptyString \/ EntireSubtree t = true)
  /\ 0 < MaxLength t
  /\ getTextString t s = Returns ("Jazz...", None)
  /\ strlen "Jazz..." <= MaxLength t + 3.
Proof.
  intros E t s.
  assert (Hpath : Attr t <> EmptyString \/ EntireSubtree t = true) by (right; reflexivity).
  assert (Hmax : 0 < MaxLength t) by reflexivity.
  assert (Hrun : getTextString t s = Returns ("Jazz...", None)) by (vm_compute; reflexivity).
  split; [exact Hpath |]. split; [exact Hmax |]. split; [exact Hrun |].
  exact (getTextString_max_length t s _ Hpath Hmax Hrun).
Defined.

(** *** The loop over the children *)

Lemma scanChildren_first_match `{Ext : External} (t : ElementLocation) (pre : list Node)
    (n : Node) (post : list Node) (r : string) (i : Z) (fieldString : string) :
  ChildIndex t = -1 ->
  Forall (fun m => isTextNode m = true ->
                   exists r' e, extractStringRegex (RegexExtract t) (Node_Data m)
                                = Returns (r', Some e)) pre ->
  isTextNode n = true ->
  extractStringRegex (RegexExtract t) (Node_Data n) = Returns (r, None) ->
  scanChildren t (pre ++ n :: post) i fieldString = Returns (inl (shaped t r, None)).
Proof.
  intros Hci Hpre Htext Hr. revert i fieldString.
  induction Hpre as [| m pre Hm Hpre IH]; intros i fieldString.
  - cbn [app scanChildren]. rewrite Hci, Htext, Z.eqb_refl, orb_true_r. cbn [andb].
    rewrite Hr, bind_Returns. reflexivity.
  - cbn [app scanChildren]. rewrite Hci, Z.eqb_refl, orb_true_r. cbn [andb].
    destruct (isTextNode m); [| apply IH].
    destruct (Hm eq_refl) as (r' & e & ->). rewrite bind_Returns. cbn [negb]. apply IH.
Qed.

(** X6. With child index -1 and no attribute, getTextString returns
    the text of the first direct text child of the selected node from
    which the pattern extracts something, trimmed and shortened: text
    children before it on which the extraction fails, and children
    that are no text nodes, are passed over. *)
Theorem getTextString_first_matching_child `{Ext : External} (t : ElementLocation)
    (s : Selection) (node : Node) (pre : list Node) (n : Node) (post : list Node) (r : string) :
  Attr t = EmptyString ->
  EntireSubtree t = false ->
  ChildIndex t = -1 ->
  0 <= NodeIndex t < len (Find s (Selector t)) ->
  Find s (Selector t) !! Z.to_nat (NodeIndex t) = Some node ->
  Node_Children node = pre ++ n :: post ->
  Forall (fun m => isTextNode m = true ->
                   exists r' e, extractStringRegex (RegexExtract t) (Node_Data m)
                                = Returns (r', Some e)) pre ->
  isTextNode n = true ->
  extractStringRegex (RegexExtract t) (Node_Data n) = Returns (r, None) ->
  getTextString t s = Returns (shaped t r, None).
Proof.
  intros Hattr Hsub Hci Hidx Hnode Hchildren Hpre Htext Hr. unfold getTextString.
  rewrite (gtb_true _ _ (proj2 Hidx)), Hattr, Hsub. cbn [String.eqb].
  unfold Selection_Get.
  replace (NodeIndex t <? 0) with false by (symmetry; apply Z.ltb_ge; lia).
  destruct (index_slice_in_range _ _ Hidx) as (a & Ha & ->).
  assert (Heq : Some a = Some node) by (etransitivity; [symmetry; exact Ha | exact Hnode]).
  injection Heq as ->. rewrite bind_Returns, Hchildren.
  rewrite (scanChildren_first_match t pre n post r 0 "" Hci Hpre Htext Hr), bind_Returns.
  reflexivity.
Qed.

Lemma getTextString_first_matching_child_witness :
  let E := TestEnv.env [] 2024 in
  let t := {| Selector := "li"; NodeIndex := 0; ChildIndex := -1;
              RegexExtract := {| Exp := "[0-9][0-9]:[0-9][0-9]"; Index := 0 |};
              Attr := EmptyString; MaxLength := 0; EntireSubtree := false |} in
  let pre := [TestEnv.text "doors open"; TestEnv.element "b" [] [TestEnv.text "11:11"]] in
  let n := TestEnv.text " at 19:30 " in
  let node := TestEnv.element "li" [] (pre ++ [n]) in
  let s := [TestEnv.document [node]] in
  Find s (Selector t) !! Z.to_nat (NodeIndex t) = Some node
  /\ extractStringRegex (RegexExtract t) "doors open"
     = Returns (EmptyString, Some "no matching strings found for regex: [0-9][0-9]:[0-9][0-9]")
  /\ extractStringRegex (RegexExtract t) (Node_Data n) = Returns ("19:30", None)
  /\ getTextString t s = Returns ("19:30", None).
Proof.
  intros E t pre n node s.
  assert (Hnode : Find s (Selector t) !! Z.to_nat (NodeIndex t) = Some node)
    by (vm_compute; reflexivity).
  assert (Hfail : extractStringRegex (RegexExtract t) "doors open"
                  = Returns (EmptyString,
                             Some "no matching strings found for regex: [0-9][0-9]:[0-9][0-9]"))
    by (vm_compute; reflexivity).
  assert (Hr : extractStringRegex (RegexExtract t) (Node_Data n) = Returns ("19:30", None))
    by (vm_compute; reflexivity).
  split; [exact Hnode |]. split; [exact Hfail |]. split; [exact Hr |].
  apply (getTextString_first_matching_child t s node pre n [] "19:30");
    try reflexivity; try exact Hnode; try exact Hr.
  - vm_compute. split; [discriminate | reflexivity].
  - apply Forall_cons_2; [intros _; do 2 eexists; exact Hfail |].
    apply Forall_cons_2; [intros Htext; discriminate Htext | apply Forall_nil_2].
Defined.

Lemma scanChildren_past_index `{Ext : External} (t : ElementLocation) (children : list Node)
    (j : Z) (fieldString : string) :
  0 <= ChildIndex t < j ->
  j + len children <= maxInt ->
  scanChildren t children j fieldString = Returns (inr fieldString).
Proof.
  revert j. induction children as [| m rest IH]; intros j Hj Hlen; [reflexivity |].
  cbn [scanChildren]. rewrite len_cons in Hlen. pose proof (len_nonneg rest).
  replace (j =? ChildIndex t) with false by (symmetry; apply Z.eqb_neq; lia).
  replace (ChildIndex t =? -1) with false by (symmetry; apply Z.eqb_neq; lia).
  cbn [orb andb]. rewrite wrap_small by (unfold maxInt in Hlen; lia). apply IH; lia.
Qed.

Lemma scanChildren_at_index `{Ext : External} (t : ElementLocation) (children : list Node)
    (i : Z) (fieldString : string) :
  0 <= i <= ChildIndex t ->
  i + len children <= maxInt ->
  scanChildren t children i fieldString
  = match children !! Z.to_nat (ChildIndex t - i) with
    | Some n =>
        if isTextNode n then
          '(r, err) ← extractStringRegex (RegexExtract t) (Node_Data n);
          match err with
          | None => Returns (inl (shaped t r, None))
          | Some _ => Returns (inl (r, err))
          end
        else Returns (inr fieldString)
    | None => Returns (inr fieldString)
    end.
Proof.
  revert i. induction children as [| m rest IH]; intros i Hi Hlen; [reflexivity |].
  cbn [scanChildren]. rewrite len_cons in Hlen. pose proof (len_nonneg rest).
  replace (ChildIndex t =? -1) with false by (symmetry; apply Z.eqb_neq; lia).
  rewrite orb_false_r.
  destruct (Z.eqb_spec i (ChildIndex t)) as [-> | Hne].
  - rewrite Z.sub_diag. change ((m :: rest) !! Z.to_nat 0) with (Some m). cbv iota.
    destruct (isTextNode m); cbn [andb].
    + destruct (extractStringRegex (RegexExtract t) (Node_Data m)) as [[r [e |]] | msg | msg];
        reflexivity.
    + rewrite wrap_small by (unfold maxInt in Hlen; lia).
      apply scanChildren_past_index; lia.
  - cbn [andb]. rewrite wrap_small by (unfold maxInt in Hlen; lia).
    rewrite IH by lia.
    replace (Z.to_nat (ChildIndex t - i)) with (S (Z.to_nat (ChildIndex t - (i + 1)))) by lia.
    reflexivity.
Qed.

(** X7. With a child index k >= 0 and no attribute, only the k-th
    direct child of the selected node counts, elements and text nodes
    counted alike.  When it is a text node, the result is what the
    pattern extracts from it, trimmed and shortened, or the error of
    the extraction; when it is an element, or the node has no k-th
    child, and no pattern is set, the text is empty. *)
Theorem getTextString_child_index `{Ext : External} (t : ElementLocation) (s : Selection)
    (node : Node) :
  Attr t = EmptyString ->
  EntireSubtree t = false ->
  0 <= ChildIndex t ->
  len (Node_Children node) <= maxInt ->
  0 <= NodeIndex t < len (Find s (Selector t)) ->
  Find s (Selector t) !! Z.to_nat (NodeIndex t) = Some node ->
  match Node_Children node !! Z.to_nat (ChildIndex t) with
  | Some n =>
      if isTextNode n then
        forall r err,
          extractStringRegex (RegexExtract t) (Node_Data n) = Returns (r, err) ->
          getTextString t s
          = Returns (match err with None => shaped t r | Some _ => r end, err)
      else
        Exp (RegexExtract t) = EmptyString -> getTextString t s = Returns (EmptyString, None)
  | None =>
      Exp (RegexExtract t) = EmptyString -> getTextString t s = Returns (EmptyString, None)
  end.
Proof.
  intros Hattr Hsub Hci Hlen Hidx Hnode.
  assert (Hempty : forall raw, raw = Returns (inr EmptyString) ->
            Exp (RegexExtract t) = EmptyString ->
            (raw ≫= fun raw : (string * error) + string =>
               match raw with
               | inl early => Returns early
               | inr fieldString =>
                   '(fieldString, err) ← extractStringRegex (RegexExtract t) (TrimSpace fieldString);
                   match err with
                   | Some _ => Returns (fieldString, err)
                   | None =>
                       if (MaxLength t >? 0) && (MaxLength t <? strlen fieldString) then
                         Returns (takeBytes (Z.to_nat (MaxLength t)) fieldString +:+ "...", None)
                       else Returns (fieldString, None)
                   end
               end) = Returns (EmptyString, None)).
  { intros raw -> Hexp. rewrite bind_Returns. change (TrimSpace "") with EmptyString.
    rewrite (extractStringRegex_no_pattern _ _ Hexp), bind_Returns.
    change (strlen "") with 0.
    destruct (MaxLength t >? 0) eqn:Hpos; [| reflexivity].
    apply Z.gtb_lt in Hpos.
    replace (MaxLength t <? 0) with false by (symmetry; apply Z.ltb_ge; lia). reflexivity. }
  assert (Hscan : getTextString t s
                  = (scanChildren t (Node_Children node) 0 EmptyString ≫= fun raw =>
                       match raw with
                       | inl early => Returns early
                       | inr fieldString =>
                           '(fieldString, err) ← extractStringRegex (RegexExtract t) (TrimSpace fieldString);
                           match err with
                           | Some _ => Returns (fieldString, err)
                           | None =>
                               if (MaxLength t >? 0) && (MaxLength t <? strlen fieldString) then
                                 Returns (takeBytes (Z.to_nat (MaxLength t)) fieldString +:+ "...", None)
                               else Returns (fieldString, None)
                           end
                       end)).
  { unfold getTextString.
    rewrite (gtb_true _ _ (proj2 Hidx)), Hattr, Hsub. cbn [String.eqb].
    unfold Selection_Get.
    replace (NodeIndex t <? 0) with false by (symmetry; apply Z.ltb_ge; lia).
    destruct (index_slice_in_range _ _ Hidx) as (a & Ha & ->).
    assert (Heq : Some a = Some node) by (etransitivity; [symmetry; exact Ha | exact Hnode]).
    injection Heq as ->. rewrite bind_Returns. reflexivity. }
  rewrite Hscan, (scanChildren_at_index t (Node_Children node) 0 "") by lia.
  rewrite Z.sub_0_r.
  destruct (Node_Children node !! Z.to_nat (ChildIndex t)) as [n |]; [| apply Hempty; reflexivity].
  destruct (isTextNode n); [| apply Hempty; reflexivity].
  intros r err ->. rewrite bind_Returns. destruct err; reflexivity.
Qed.

Lemma getTextString_child_index_witness :
  let E := TestEnv.env [] 2024 in
  let t := {| Selector := "li"; NodeIndex := 0; ChildIndex := 2;
              RegexExtract := {| Exp := EmptyString; Index := 0 |};
              Attr := EmptyString; MaxLength := 0; EntireSubtree := false |} in
  let node := TestEnv.element "li" []
                [TestEnv.text "doors open"; TestEnv.element "b" [] [TestEnv.text "11:11"];
                 TestEnv.text " at 19:30 "] in
  let s := [TestEnv.document [node]] in
  Find s (Selector t) !! Z.to_nat (NodeIndex t) = Some node
  /\ getTextString t s = Returns ("at 19:30", None)
  /\ getTextString {| Selector := "li"; NodeIndex := 0; ChildIndex := 1;
                      RegexExtract := {| Exp := EmptyString; Index := 0 |};
                      Attr := EmptyString; MaxLength := 0; EntireSubtree := false |} s
     = Returns (EmptyString, None).
Proof.
  intros E t node s.
  assert (Hnode : Find s (Selector t) !! Z.to_nat (NodeIndex t) = Some node)
    by (vm_compute; reflexivity).
  assert (Hidx : 0 <= NodeIndex t < len (Find s (Selector t)))
    by (vm_compute; split; [discriminate | reflexivity]).
  assert (Hlen : len (Node_Children node) <= maxInt) by (vm_compute; discriminate).
  split; [exact Hnode |]. split.
  - exact (getTextString_child_index t s node eq_refl eq_refl ltac:(vm_compute; discriminate)
             Hlen Hidx Hnode " at 19:30 " None eq_refl).
  - exact (getTextString_child_index
             {| Selector := "li"; NodeIndex := 0; ChildIndex := 1;
                RegexExtract := {| Exp := EmptyString; Index := 0 |};
                Attr := EmptyString; MaxLength := 0; EntireSubtree := false |}
             s node eq_refl eq_refl ltac:(vm_compute; discriminate) Hlen Hidx Hnode eq_refl).
Defined.

Lemma Selection_Get_before_first (s : Selection) (index : Z) :
  index + len s < 0 -> Selection_Get s index = Panics "runtime error: index out of range".
Proof.
  intros Hneg. unfold Selection_Get. pose proof (len_nonneg s).
  replace (index <? 0) with true by (symmetry; apply Z.ltb_lt; lia).
  apply index_slice_negative. exact Hneg.
Qed.

(** X8. A negative node index that reaches back further than the
    number of nodes the selector matches, as -1 does when nothing
    matches, passes the bound check and makes the program panic with
    an index out of range: in getTextString when no attribute is set,
    in getURLString when a selector is set. *)
Theorem node_index_before_first_panics `{Ext : External} (t : ElementLocation) (s : Selection)
    (baseURL : string) :
  NodeIndex t + len (Find s (Selector t)) < 0 ->
  (Attr t = EmptyString -> getTextString t s = Panics "runtime error: index out of range")
  /\ (Selector t <> EmptyString ->
      getURLString t s baseURL = Panics "runtime error: index out of range").
Proof.
  intros Hneg. pose proof (len_nonneg (Find s (Selector t))) as Hlen. split.
  - intros Hattr. unfold getTextString.
    rewrite (gtb_true (len (Find s (Selector t))) (NodeIndex t)) by lia.
    rewrite Hattr, (Selection_Get_before_first _ _ Hneg). cbn [String.eqb].
    destruct (EntireSubtree t); reflexivity.
  - intros Hsel. unfold getURLString, urlValOf.
    assert (Hsame : forall e', e' = (if String.eqb (Attr t) "" then set_Attr "href" t else t) ->
                               Selector e' = Selector t /\ NodeIndex e' = NodeIndex t).
    { intros e' ->. destruct (String.eqb (Attr t) ""); split; reflexivity. }
    destruct (Hsame _ eq_refl) as [-> ->].
    rewrite (eqb_empty_false _ Hsel).
    rewrite (gtb_true (len (Find s (Selector t))) (NodeIndex t)) by lia.
    rewrite (Selection_Get_before_first _ _ Hneg). reflexivity.
Qed.

Lemma node_index_before_first_panics_witness :
  let E := TestEnv.env [] 2024 in
  let t := set_NodeIndex (-1) (Sample.at_ "h1") in
  let s := [Sample.concert "Jazz night"] in
  NodeIndex t + len (Find s (Selector t)) < 0
  /\ getTextString t s = Panics "runtime error: index out of range"
  /\ getURLString t s Sample.baseURL = Panics "runtime error: index out of range".
Proof.
  intros E t s.
  assert (Hneg : NodeIndex t + len (Find s (Selector t)) < 0) by (vm_compute; reflexivity).
  split; [exact Hneg |].
  destruct (node_index_before_first_panics t s Sample.baseURL Hneg) as [Htext Hurl].
  split; [apply Htext; reflexivity | apply Hurl; discriminate].
Defined.

(** ** What extractField writes *)

Lemma extractField_writes `{Ext : External} (f : Field) (event : ItemMap) (s : Selection)
    (baseURL : string) (f' : Field) (event' : ItemMap) (err : error) :
  extractField f event s baseURL = Returns (f', event', err) ->
  match err with
  | Some _ => event' = event
  | None => exists v, event' = <[Field_Name f := v]> event
  end.
Proof.
  unfold extractField. intros Hrun.
  destruct (String.eqb (Field_Type f) "text" || String.eqb (Field_Type f) "").
  { apply bind_inv in Hrun as ([ts e] & _ & Hrun).
    destruct e as [e |]; [injection Hrun as _ <- <-; reflexivity |].
    destruct (negb (CanBeEmpty f) && String.eqb ts ""); injection Hrun as _ <- <-;
      [reflexivity | eauto]. }
  destruct (String.eqb (Field_Type f) "url").
  { apply bind_inv in Hrun as ([e url] & _ & Hrun). injection Hrun as _ <- <-.
    cbn [set_Field_ElementLocation Field_Name]. eauto. }
  destruct (String.eqb (Field_Type f) "date").
  { apply bind_inv in Hrun as ([d e] & _ & Hrun).
    destruct e as [e |]; injection Hrun as _ <- <-; [reflexivity | eauto]. }
  injection Hrun as _ <- <-. reflexivity.
Qed.

(** X9. extractField leaves the item as it was when it returns an
    error, and otherwise sets the key that is the name of the field
    and no other: every other key keeps its value. *)
Theorem extractField_sets_own_key_only `{Ext : External} (f : Field) (event : ItemMap)
    (s : Selection) (baseURL : string) (f' : Field) (event' : ItemMap) (err : error) :
  extractField f event s baseURL = Returns (f', event', err) ->
  match err with
  | Some _ => event' = event
  | None =>
      is_Some (event' !! Field_Name f)
      /\ forall key, key <> Field_Name f -> event' !! key = event !! key
  end.
Proof.
  intros Hrun. apply extractField_writes in Hrun.
  destruct err as [e |]; [exact Hrun |]. destruct Hrun as (v & ->). split.
  - rewrite lookup_insert_eq. eauto.
  - intros key Hkey. apply lookup_insert_ne. congruence.
Qed.

Lemma extractField_sets_own_key_only_witness :
  let E := TestEnv.env [] 2024 in
  let event := Sample.titled "Jazz night" in
  let f := Sample.field "venue" "text" (Sample.at_ "span") in
  extractField f event [Sample.concert "Moods"] Sample.baseURL
  = Returns (f, <["venue" := AString "Moods"]> event, None)
  /\ is_Some (<["venue" := AString "Moods"]> event !! "venue")
  /\ forall key, key <> "venue" -> <["venue" := AString "Moods"]> event !! key = event !! key.
Proof.
  intros E event f.
  assert (Hrun : extractField f event [Sample.concert "Moods"] Sample.baseURL
                 = Returns (f, <["venue" := AString "Moods"]> event, None))
    by (vm_compute; reflexivity).
  split; [exact Hrun |].
  exact (extractField_sets_own_key_only _ _ _ _ _ _ _ Hrun).
Defined.

(** ** What GetItems puts out and what it fetches *)

Section Output.
Context `{Ext : External}.
Variables (c : Scraper) (globalConfig : GlobalConfig).

Lemma subpageFields_fetches (fields : list Field) (item : ItemMap) (subDocs : gmap string Node)
    (w : World) (r : option ItemMap) (w' : World) :
  subpageFields c globalConfig fields item subDocs w = Returns (r, w') ->
  exists urls, w' = w ++ map FetchSubpage urls
               /\ NoDup urls
               /\ Forall (fun u => subDocs !! u = None) urls.
Proof.
  revert item subDocs w.
  induction fields as [| f rest IH]; intros item subDocs w Hrun.
  { injection Hrun as _ <-. exists []. rewrite app_nil_r.
    split; [reflexivity |]. split; [apply NoDup_nil_2 | apply Forall_nil_2]. }
  cbn [subpageFields] in Hrun.
  destruct (negb (String.eqb (OnSubpage f) "") && String.eqb (Value f) ""); [| exact (IH _ _ _ Hrun)].
  set (url := Sprint (item !! OnSubpage f)) in *.
  destruct (subDocs !! url) as [subDoc |] eqn:Hcache.
  - apply bind_inv in Hrun as ([[f' item'] err] & _ & Hrun).
    destruct err as [e |]; [| exact (IH _ _ _ Hrun)].
    injection Hrun as _ <-. exists []. rewrite app_nil_r.
    split; [reflexivity |]. split; [apply NoDup_nil_2 | apply Forall_nil_2].
  - assert (Hone : exists urls, w ++ [FetchSubpage url] = w ++ map FetchSubpage urls
                                /\ NoDup urls /\ Forall (fun u => subDocs !! u = None) urls).
    { exists [url]. split; [reflexivity |].
      split; [apply NoDup_singleton | apply Forall_cons_2; [exact Hcache | apply Forall_nil_2]]. }
    unfold doFetch in Hrun.
    destruct (Fetch (RenderJs c) (UserAgent globalConfig) (map call_url w) url) as [subRes [e |]];
      [injection Hrun as _ <-; exact Hone |].
    destruct (NewDocumentFromReader subRes) as [subDoc [e |]];
      [injection Hrun as _ <-; exact Hone |].
    apply bind_inv in Hrun as ([[f' item'] err] & _ & Hrun).
    destruct err as [e |]; [injection Hrun as _ <-; exact Hone |].
    apply IH in Hrun as (urls & -> & Hnodup & Hfresh).
    exists (url :: urls). split; [rewrite <- app_assoc; reflexivity |].
    assert (Hnew : forall u, u ∈ urls -> u <> url /\ subDocs !! u = None).
    { intros u Hu. rewrite Forall_forall in Hfresh. specialize (Hfresh u Hu).
      destruct (decide (u = url)) as [-> | Hne].
      - rewrite lookup_insert_eq in Hfresh. discriminate.
      - rewrite lookup_insert_ne in Hfresh by congruence. split; [exact Hne | exact Hfresh]. }
    split.
    + apply NoDup_cons_2; [| exact Hnodup]. intros Hin. apply Hnew in Hin as [Hne _]. congruence.
    + apply Forall_cons_2; [exact Hcache |]. apply Forall_forall. intros u Hu.
      apply (Hnew u Hu).
Qed.

Lemma mainFields_keys (fields : list Field) (item : ItemMap) (s : Selection) (pageURL : string)
    (item' : ItemMap) (key : string) :
  mainFields fields item s pageURL = Returns (Some item') ->
  is_Some (item' !! key) ->
  is_Some (item !! key) \/ exists f, In f fields /\ Field_Name f = key.
Proof.
  revert item. induction fields as [| f rest IH]; intros item Hrun Hkey.
  { injection Hrun as <-. left. exact Hkey. }
  cbn [mainFields] in Hrun.
  assert (Hstep : forall v, mainFields rest (<[Field_Name f := v]> item) s pageURL
                            = Returns (Some item') ->
                            is_Some (item !! key)
                            \/ exists f0, In f0 (f :: rest) /\ Field_Name f0 = key).
  { intros v Hrest. destruct (IH _ Hrest Hkey) as [Hhere | (f0 & Hin & Hname)].
    - destruct (decide (Field_Name f = key)) as [Heq | Hne].
      + right. exists f. split; [left; reflexivity | exact Heq].
      + left. rewrite lookup_insert_ne in Hhere by exact Hne. exact Hhere.
    - right. exists f0. split; [right; exact Hin | exact Hname]. }
  assert (Hskip : mainFields rest item s pageURL = Returns (Some item') ->
                  is_Some (item !! key)
                  \/ exists f0, In f0 (f :: rest) /\ Field_Name f0 = key).
  { intros Hrest. destruct (IH _ Hrest Hkey) as [Hhere | (f0 & Hin & Hname)];
      [left; exact Hhere | right; exists f0; split; [right; exact Hin | exact Hname]]. }
  destruct (negb (String.eqb (Value f) "")); [exact (Hstep _ Hrun) |].
  destruct (String.eqb (OnSubpage f) ""); [| exact (Hskip Hrun)].
  apply bind_inv in Hrun as ([[f' item1] err] & Hfield & Hrun).
  destruct err as [e |]; [discriminate |].
  apply extractField_writes in Hfield as (v & ->). exact (Hstep _ Hrun).
Qed.

Lemma subpageFields_keys (fields : list Field) (item : ItemMap) (subDocs : gmap string Node)
    (w : World) (item' : ItemMap) (w' : World) (key : string) :
  subpageFields c globalConfig fields item subDocs w = Returns (Some item', w') ->
  is_Some (item' !! key) ->
  is_Some (item !! key) \/ exists f, In f fields /\ Field_Name f = key.
Proof.
  revert item subDocs w. induction fields as [| f rest IH]; intros item subDocs w Hrun Hkey.
  { injection Hrun as <- _. left. exact Hkey. }
  cbn [subpageFields] in Hrun.
  assert (Hstep : forall v subDocs1 w1,
            subpageFields c globalConfig rest (<[Field_Name f := v]> item) subDocs1 w1
            = Returns (Some item', w') ->
            is_Some (item !! key) \/ exists f0, In f0 (f :: rest) /\ Field_Name f0 = key).
  { intros v subDocs1 w1 Hrest. destruct (IH _ _ _ Hrest Hkey) as [Hhere | (f0 & Hin & Hname)].
    - destruct (decide (Field_Name f = key)) as [Heq | Hne].
      + right. exists f. split; [left; reflexivity | exact Heq].
      + left. rewrite lookup_insert_ne in Hhere by exact Hne. exact Hhere.
    - right. exists f0. split; [right; exact Hin | exact Hname]. }
  destruct (negb (String.eqb (OnSubpage f) "") && String.eqb (Value f) "").
  2: { destruct (IH _ _ _ Hrun Hkey) as [Hhere | (f0 & Hin & Hname)];
         [left; exact Hhere | right; exists f0; split; [right; exact Hin | exact Hname]]. }
  set (url := Sprint (item !! OnSubpage f)) in *.
  destruct (subDocs !! url) as [subDoc |].
  - apply bind_inv in Hrun as ([[f' item1] err] & Hfield & Hrun).
    destruct err as [e |]; [discriminate |].
    apply extractField_writes in Hfield as (v & ->). exact (Hstep _ _ _ Hrun).
  - unfold doFetch in Hrun.
    destruct (Fetch (RenderJs c) (UserAgent globalConfig) (map call_url w) url) as [subRes [e |]];
      [discriminate |].
    destruct (NewDocumentFromReader subRes) as [subDoc [e |]]; [discriminate |].
    apply bind_inv in Hrun as ([[f' item1] err] & Hfield & Hrun).
    destruct err as [e |]; [discriminate |].
    apply extractField_writes in Hfield as (v & ->). exact (Hstep _ _ _ Hrun).
Qed.

Lemma processItem_result (s : Selection) (pageURL : string) (items items' : list ItemMap)
    (w w' : World) :
  processItem c globalConfig s pageURL items w = Returns (items', w') ->
  (exists urls, w' = w ++ map FetchSubpage urls /\ NoDup urls)
  /\ (items' = items
      \/ (excluded c s = false
          /\ exists raw, items' = items ++ [removeHiddenFields c raw]
                         /\ filterItem c raw = (true, None)
                         /\ forall key, is_Some (raw !! key) -> namesField c key))
  /\ (excluded c s = true -> items' = items /\ w' = w).
Proof.
  intros Hrun. unfold processItem in Hrun.
  assert (Hnone : exists urls : list string, w = w ++ map FetchSubpage urls /\ NoDup urls).
  { exists []. rewrite app_nil_r. split; [reflexivity | apply NoDup_nil_2]. }
  destruct (excluded c s) eqn:Hex.
  { injection Hrun as <- <-. split; [exact Hnone |]. split; [left; reflexivity | auto]. }
  apply bind_inv in Hrun as (main & Hmain & Hrun).
  destruct main as [currentItem |].
  2: { injection Hrun as <- <-. split; [exact Hnone |]. split; [left; reflexivity | discriminate]. }
  apply bind_inv in Hrun as ([sub w1] & Hsub & Hrun).
  pose proof Hsub as Hkeys.
  apply subpageFields_fetches in Hsub as (urls & -> & Hnodup & _).
  destruct sub as [raw |].
  2: { injection Hrun as <- <-. split; [eauto |]. split; [left; reflexivity | discriminate]. }
  destruct (filterItem c raw) as [keep [e |]] eqn:Hfilter; [discriminate |].
  destruct keep.
  - injection Hrun as <- <-. split; [eauto |]. split; [| discriminate].
    right. split; [reflexivity |]. exists raw. split; [reflexivity |].
    split; [exact Hfilter |]. intros key Hkey.
    destruct (subpageFields_keys _ _ _ _ _ _ key Hkeys Hkey) as [Hmainkey | Hfield];
      [| exact Hfield].
    destruct (mainFields_keys _ _ _ _ _ key Hmain Hmainkey) as [Hempty | Hfield];
      [| exact Hfield].
    rewrite lookup_empty in Hempty. destruct Hempty as [v Hv]. discriminate.
  - injection Hrun as <- <-. split; [eauto |]. split; [left; reflexivity | discriminate].
Qed.

Lemma eachItem_result (nodes : list Node) (pageURL : string) (items items' : list ItemMap)
    (w w' : World) :
  eachItem c globalConfig nodes pageURL items w = Returns (items', w') ->
  exists new urls,
    items' = items ++ new
    /\ Forall (passedFilter c) new
    /\ (length new <= length (candidates c nodes))%nat
    /\ w' = w ++ map FetchSubpage urls.
Proof.
  revert items w. induction nodes as [| n rest IH]; intros items w Hrun.
  { injection Hrun as <- <-. exists [], []. rewrite !app_nil_r.
    split; [reflexivity |]. split; [apply Forall_nil_2 |]. split; [apply Nat.le_0_l | reflexivity]. }
  cbn [eachItem] in Hrun. apply bind_inv in Hrun as ([items1 w1] & Hone & Hrun).
  apply IH in Hrun as (new & urls & -> & Hnew & Hcount & ->).
  apply processItem_result in Hone as ((urls1 & -> & _) & Hitems & Hskip).
  unfold candidates in *. cbn [List.filter].
  destruct Hitems as [-> | (Hex & raw & -> & Hfilter & Hkeys)].
  - exists new, (urls1 ++ urls). split; [reflexivity |]. split; [exact Hnew |].
    split; [| rewrite map_app, app_assoc; reflexivity].
    destruct (negb (excluded c [n])); cbn [length]; lia.
  - exists (removeHiddenFields c raw :: new), (urls1 ++ urls).
    split; [rewrite <- app_assoc; reflexivity |].
    split; [apply Forall_cons_2; [exists raw; auto | exact Hnew] |].
    split; [| rewrite map_app, app_assoc; reflexivity].
    rewrite Hex. cbn [negb length]. lia.
Qed.

End Output.

(** X10. One item node makes subpage fetches only, and fetches no
    subpage URL twice: a subpage that several fields of the item are
    read from is fetched once. *)
Theorem processItem_fetches_each_subpage_once `{Ext : External} (c : Scraper)
    (globalConfig : GlobalConfig) (s : Selection) (pageURL : string) (items items' : list ItemMap)
    (w w' : World) :
  processItem c globalConfig s pageURL items w = Returns (items', w') ->
  exists urls, w' = w ++ map FetchSubpage urls /\ NoDup urls.
Proof. intros Hrun. exact (proj1 (processItem_result c globalConfig _ _ _ _ _ _ Hrun)). Qed.

(** X11. Processing the item nodes of a page keeps the items
    gathered so far, in their order, and appends at most one item for
    every node that no exclude selector rules out; every item appended
    is a record that passed the filters, taken with its hidden fields
    removed after the filters were applied.  The fetches made on the
    way are subpage fetches. *)
Theorem eachItem_appends_filtered_items `{Ext : External} (c : Scraper)
    (globalConfig : GlobalConfig) (nodes : list Node) (pageURL : string)
    (items items' : list ItemMap) (w w' : World) :
  eachItem c globalConfig nodes pageURL items w = Returns (items', w') ->
  exists new urls,
    items' = items ++ new
    /\ Forall (passedFilter c) new
    /\ (length new <= length (candidates c nodes))%nat
    /\ w' = w ++ map FetchSubpage urls.
Proof. apply eachItem_result. Qed.

Lemma passedFilter_same_fields `{Ext : External} (c c' : Scraper) (item : ItemMap) :
  Fields c' = Fields c -> Filters c' = Filters c -> passedFilter c item -> passedFilter c' item.
Proof.
  intros Hfields Hfilters (raw & -> & Hkeep & Hkeys). exists raw.
  unfold removeHiddenFields, filterItem, namesField in *. rewrite Hfields, Hfilters.
  split; [reflexivity |]. split; [exact Hkeep | exact Hkeys].
Qed.

Section Pages.
Context `{Ext : External}.
Variable globalConfig : GlobalConfig.

Lemma iterate_result (st : LoopState) (it : iteration) :
  iterate globalConfig st = Returns it ->
  match it with
  | Return_ items _ w => extends st (ls_c st) items w
  | NextPage st' => extends st (ls_c st') (ls_items st') (ls_world st')
  end.
Proof.
  intros Hrun. unfold iterate, doFetch in Hrun.
  assert (Hstay : extends st (ls_c st) (ls_items st) (ls_world st ++ [FetchPage (ls_pageURL st)])).
  { split; [reflexivity |]. split; [reflexivity |]. split.
    - exists []. rewrite app_nil_r. split; [reflexivity | apply Forall_nil_2].
    - exists []. reflexivity. }
  destruct (Fetch _ _ _ _) as [res [e |]]; [injection Hrun as <-; exact Hstay |].
  destruct (NewDocumentFromReader res) as [doc [e |]]; [injection Hrun as <-; exact Hstay |].
  apply bind_inv in Hrun as ([items w] & Heach & Hrun).
  apply bind_inv in Hrun as ([e pageURL] & _ & Hrun).
  apply eachItem_result in Heach as (new & urls & -> & Hnew & _ & ->).
  assert (Hext : forall c', Fields c' = Fields (ls_c st) -> Filters c' = Filters (ls_c st) ->
                            extends st c' (ls_items st ++ new)
                              ((ls_world st ++ [FetchPage (ls_pageURL st)]) ++ map FetchSubpage urls)).
  { intros c' Hfields Hfilters. split; [exact Hfields |]. split; [exact Hfilters |]. split.
    - exists new. split; [reflexivity | exact Hnew].
    - exists (map FetchSubpage urls). rewrite <- app_assoc. reflexivity. }
  destruct (negb (String.eqb pageURL "")).
  - destruct (_ || _); injection Hrun as <-; apply Hext; reflexivity.
  - injection Hrun as <-. apply Hext; reflexivity.
Qed.

Lemma crawl_result (fuel : nat) (st : LoopState) (items : list ItemMap) (err : error) (w : World) :
  crawl fuel globalConfig st = Some (Returns (items, err, w)) ->
  (exists new, items = ls_items st ++ new /\ Forall (passedFilter (ls_c st)) new)
  /\ exists more, w = ls_world st ++ FetchPage (ls_pageURL st) :: more.
Proof.
  revert st. induction fuel as [| fuel IH]; intros st Hrun; [discriminate |].
  cbn [crawl] in Hrun.
  destruct (iterate globalConfig st) as [[items1 err1 w1 | st1] | msg | msg] eqn:Hit;
    try discriminate.
  - injection Hrun as <- <- <-. apply iterate_result in Hit as (_ & _ & Hitems & Hworld).
    split; assumption.
  - apply iterate_result in Hit as (Hfields & Hfilters & (new1 & Hitems1 & Hnew1) & (more1 & Hworld1)).
    apply IH in Hrun as ((new & -> & Hnew) & (more & ->)). split.
    + exists (new1 ++ new). rewrite Hitems1, <- app_assoc. split; [reflexivity |].
      apply Forall_app. split; [exact Hnew1 |].
      eapply Forall_impl; [exact Hnew |]. intros item Hitem.
      apply (passedFilter_same_fields (ls_c st1)); [symmetry | symmetry |]; assumption.
    + exists (more1 ++ FetchPage (ls_pageURL st1) :: more).
      rewrite Hworld1, <- app_assoc. reflexivity.
Qed.

End Pages.

(** X12. Whatever GetItems returns, with or without an error: every
    item returned passed the filters of the scraper and is kept with
    its hidden fields removed, so every key of it is the name of a
    field of the scraper, and of no field marked as hidden; and the
    first fetch of the call is that of the URL of the scraper. *)
Theorem GetItems_output `{Ext : External} (fuel : nat) (c : Scraper) (globalConfig : GlobalConfig)
    (w : World) (items : list ItemMap) (err : error) (w' : World) :
  GetItems fuel c globalConfig w = Some (Returns (items, err, w')) ->
  Forall (passedFilter c) items
  /\ (forall item key, In item items -> is_Some (item !! key) ->
                        namesField c key /\ hiddenKey c key = false)
  /\ exists more, w' = w ++ FetchPage (URL c) :: more.
Proof.
  intros Hrun. unfold GetItems in Hrun.
  apply crawl_result in Hrun as ((new & -> & Hnew) & Hworld). cbn in Hnew, Hworld.
  rewrite app_nil_l. split; [exact Hnew |]. split; [| exact Hworld].
  intros item key Hin Hkey. rewrite Forall_forall in Hnew.
  destruct (Hnew item (proj2 (list_elem_of_In _ _) Hin)) as (raw & -> & _ & Hkeys).
  unfold removeHiddenFields in Hkey. rewrite removeHidden_fold_lookup in Hkey.
  unfold hiddenKey. destruct (existsb _ (Fields c)).
  - destruct Hkey as [v Hv]. discriminate.
  - split; [exact (Hkeys key Hkey) | reflexivity].
Qed.

Lemma processItem_fetches_each_subpage_once_witness :
  let E := TestEnv.env Fixtures.site 2024 in
  processItem Fixtures.scraper Sample.config [Sample.linkItem "/d1"] "https://x.test/list" [] []
  = Returns ([Fixtures.details "Moods" "20 CHF"], [FetchSubpage "https://x.test/d1"])
  /\ exists urls, [FetchSubpage "https://x.test/d1"] = [] ++ map FetchSubpage urls /\ NoDup urls.
Proof.
  intros E.
  assert (Hrun : processItem Fixtures.scraper Sample.config [Sample.linkItem "/d1"]
                   "https://x.test/list" [] []
                 = Returns ([Fixtures.details "Moods" "20 CHF"],
                            [FetchSubpage "https://x.test/d1"])) by (vm_compute; reflexivity).
  split; [exact Hrun |].
  exact (processItem_fetches_each_subpage_once _ _ _ _ _ _ _ _ Hrun).
Defined.

Lemma eachItem_appends_filtered_items_witness :
  let E := TestEnv.env Fixtures.site 2024 in
  let nodes := [Sample.linkItem "/d1"; Sample.linkItem "/d2"] in
  eachItem Fixtures.scraper Sample.config nodes "https://x.test/list" [] []
  = Returns ([Fixtures.details "Moods" "20 CHF"],
             [FetchSubpage "https://x.test/d1"; FetchSubpage "https://x.test/d2"])
  /\ exists new urls,
       [Fixtures.details "Moods" "20 CHF"] = [] ++ new
       /\ Forall (passedFilter Fixtures.scraper) new
       /\ (length new <= length (candidates Fixtures.scraper nodes))%nat
       /\ [FetchSubpage "https://x.test/d1"; FetchSubpage "https://x.test/d2"]
          = [] ++ map FetchSubpage urls.
Proof.
  intros E nodes.
  assert (Hrun : eachItem Fixtures.scraper Sample.config nodes "https://x.test/list" [] []
                 = Returns ([Fixtures.details "Moods" "20 CHF"],
                            [FetchSubpage "https://x.test/d1"; FetchSubpage "https://x.test/d2"]))
    by (vm_compute; reflexivity).
  split; [exact Hrun |].
  exact (eachItem_appends_filtered_items _ _ _ _ _ _ _ _ Hrun).
Defined.

Lemma GetItems_output_witness :
  let E := TestEnv.env Fixtures.site 2024 in
  let items := [Fixtures.details "Moods" "20 CHF"] in
  let w' := [FetchPage "https://x.test/list"; FetchSubpage "https://x.test/d1";
             FetchSubpage "https://x.test/d2"] in
  GetItems 5 Fixtures.scraper Sample.config [] = Some (Returns (items, None, w'))
  /\ hiddenKey Fixtures.scraper "url" = true
  /\ Forall (passedFilter Fixtures.scraper) items
  /\ (forall item key, In item items -> is_Some (item !! key) ->
                        namesField Fixtures.scraper key /\ hiddenKey Fixtures.scraper key = false)
  /\ exists more, w' = [] ++ FetchPage (URL Fixtures.scraper) :: more.
Proof.
  intros E items w'.
  assert (Hrun : GetItems 5 Fixtures.scraper Sample.config [] = Some (Returns (items, None, w')))
    by (vm_compute; reflexivity).
  split; [exact Hrun |]. split; [reflexivity |].
  exact (GetItems_output _ _ _ _ _ _ _ Hrun).
Defined.

(** ** Edges of the closure *)

(** X13. A field to be read from a subpage names the field that holds
    the link.  When the item has no value under that name, the
    subpage is looked up under the text of the nil value: the
    scraper fetches the URL <nil>. *)
Theorem subpage_of_missing_field_fetches_nil `{Ext : External} (c : Scraper)
    (globalConfig : GlobalConfig) (f : Field) (rest : list Field) (item : ItemMap)
    (subDocs : gmap string Node) (w : World) (r : option ItemMap) (w' : World) :
  OnSubpage f <> EmptyString ->
  Value f = EmptyString ->
  item !! OnSubpage f = None ->
  subDocs !! "<nil>" = None ->
  subpageFields c globalConfig (f :: rest) item subDocs w = Returns (r, w') ->
  exists more, w' = w ++ FetchSubpage "<nil>" :: more.
Proof.
  intros Hsub Hvalue Hmissing Hcache Hrun. cbn [subpageFields] in Hrun.
  rewrite Hvalue, (eqb_empty_false _ Hsub), Hmissing in Hrun. cbn [negb andb String.eqb Sprint] in Hrun.
  rewrite Hcache in Hrun. unfold doFetch in Hrun.
  assert (Hone : exists more, w ++ [FetchSubpage "<nil>"] = w ++ FetchSubpage "<nil>" :: more)
    by (exists []; reflexivity).
  destruct (Fetch (RenderJs c) (UserAgent globalConfig) (map call_url w) "<nil>") as [subRes [e |]];
    [injection Hrun as _ <-; exact Hone |].
  destruct (NewDocumentFromReader subRes) as [subDoc [e |]];
    [injection Hrun as _ <-; exact Hone |].
  apply bind_inv in Hrun as ([[f' item'] err] & _ & Hrun).
  destruct err as [e |]; [injection Hrun as _ <-; exact Hone |].
  apply subpageFields_fetches in Hrun as (urls & -> & _).
  exists (map FetchSubpage urls). rewrite <- app_assoc. reflexivity.
Qed.

Lemma subpage_of_missing_field_fetches_nil_witness :
  let E := TestEnv.env Fixtures.site 2024 in
  let f := Fixtures.onPage "link" (Sample.field "venue" "text" (Sample.at_ "h2")) in
  subpageFields Fixtures.scraper Sample.config [f] ∅ ∅ [] = Returns (None, [FetchSubpage "<nil>"])
  /\ exists more, [FetchSubpage "<nil>"] = [] ++ FetchSubpage "<nil>" :: more.
Proof.
  intros E f.
  assert (Hrun : subpageFields Fixtures.scraper Sample.config [f] ∅ ∅ []
                 = Returns (None, [FetchSubpage "<nil>"])) by (vm_compute; reflexivity).
  split; [exact Hrun |].
  apply (subpage_of_missing_field_fetches_nil Fixtures.scraper Sample.config f [] ∅ ∅ [] None);
    [discriminate | reflexivity | apply lookup_empty | apply lookup_empty | exact Hrun].
Defined.

Lemma filterLoop_regex_error `{Ext : External} (pre : list Filter) (filter : Filter)
    (post : list Filter) (item : ItemMap) (err : string) (nrMatchTrue : Z)
    (filterMatchTrue filterMatchFalse : bool) :
  Forall compiles pre ->
  regexp_Compile (Regex filter) = inr err ->
  filterLoop (pre ++ filter :: post) item nrMatchTrue filterMatchTrue filterMatchFalse = inl err.
Proof.
  intros Hpre Herr. revert nrMatchTrue filterMatchTrue filterMatchFalse.
  induction Hpre as [| g pre (regex & Hg) _ IH]; intros nrMatchTrue filterMatchTrue filterMatchFalse.
  - cbn [app filterLoop]. rewrite Herr. reflexivity.
  - cbn [app filterLoop]. rewrite Hg.
    destruct (item !! Filter_Field g); [| apply IH].
    destruct (Match g); apply IH.
Qed.

(** X14. The first filter whose regex does not compile makes
    filterItem return the compile error, whatever the item is and
    whether or not it has the field of the filter; an item that got
    through both field loops then ends the program through log.Fatal. *)
Theorem filterItem_regex_error `{Ext : External} (c : Scraper) (globalConfig : GlobalConfig)
    (pre : list Filter) (filter : Filter) (post : list Filter) (err : string) :
  Filters c = pre ++ filter :: post ->
  Forall compiles pre ->
  regexp_Compile (Regex filter) = inr err ->
  (forall item, filterItem c item = (false, Some err))
  /\ forall s pageURL items w currentItem raw w',
       excluded c s = false ->
       mainFields (Fields c) ∅ s pageURL = Returns (Some currentItem) ->
       subpageFields c globalConfig (Fields c) currentItem ∅ w = Returns (Some raw, w') ->
       processItem c globalConfig s pageURL items w
       = Exits (Scraper_Name c +:+ " ERROR: error while applying filter: " +:+ err +:+ ".").
Proof.
  intros Hfilters Hpre Herr.
  assert (Hfilter : forall item, filterItem c item = (false, Some err)).
  { intros item. unfold filterItem.
    rewrite Hfilters, (filterLoop_regex_error pre filter post item err _ _ _ Hpre Herr).
    reflexivity. }
  split; [exact Hfilter |].
  intros s pageURL items w currentItem raw w' Hex Hmain Hsub. unfold processItem.
  rewrite Hex, Hmain, bind_Returns, Hsub, bind_Returns, Hfilter. reflexivity.
Qed.

Lemma filterItem_regex_error_witness :
  let E := TestEnv.env [] 2024 in
  let c := Sample.scraper "https://x.test/p1" [Sample.titleField]
             [{| Filter_Field := "title"; Regex := "Jazz"; Match := true |};
              {| Filter_Field := "venue"; Regex := "[a"; Match := false |}] 0 in
  regexp_Compile "[a" = inr "error parsing regexp: missing closing ]: `[a`"
  /\ filterItem c (Sample.titled "Folk evening")
     = (false, Some "error parsing regexp: missing closing ]: `[a`")
  /\ processItem c Sample.config [Sample.concert "Folk evening"] "https://x.test/p1" [] []
     = Exits "sample ERROR: error while applying filter: error parsing regexp: missing closing ]: `[a`.".
Proof.
  intros E c.
  assert (Herr : regexp_Compile "[a" = inr "error parsing regexp: missing closing ]: `[a`")
    by (vm_compute; reflexivity).
  assert (Hpre : Forall compiles [{| Filter_Field := "title"; Regex := "Jazz"; Match := true |}]).
  { apply Forall_cons_2; [| apply Forall_nil_2]. exists (Sample.literal "Jazz").
    vm_compute. reflexivity. }
  destruct (filterItem_regex_error c Sample.config
              [{| Filter_Field := "title"; Regex := "Jazz"; Match := true |}]
              {| Filter_Field := "venue"; Regex := "[a"; Match := false |} []
              "error parsing regexp: missing closing ]: `[a`" eq_refl Hpre Herr)
    as [Hfilter Hexit].
  split; [exact Herr |]. split; [apply Hfilter |].
  apply (Hexit [Sample.concert "Folk evening"] "https://x.test/p1" [] []
           (Sample.titled "Folk evening") (Sample.titled "Folk evening") []);
    vm_compute; reflexivity.
Defined.

(** ** getURLString against a page URL that does not parse *)

(** X15. getURLString drops the error of url.Parse.  When the page
    URL does not parse, an empty attribute value still gives the empty
    string and a value that starts with http still passes, but every
    other value makes the program panic on the nil URL. *)
Theorem getURLString_unparseable_base `{Ext : External} (e : ElementLocation) (s : Selection)
    (baseURL urlVal : string) :
  url_Parse baseURL = None ->
  urlValOf (withDefaultAttr e) s = Returns urlVal ->
  getURLString e s baseURL
  = if String.eqb urlVal "" then Returns (withDefaultAttr e, EmptyString)
    else if HasPrefix urlVal "http" then Returns (withDefaultAttr e, TrimSpace urlVal)
    else Panics "runtime error: invalid memory address or nil pointer dereference".
Proof.
  intros Hparse Hval. unfold getURLString. fold (withDefaultAttr e).
  rewrite Hval, bind_Returns. unfold resolveURL. rewrite Hparse.
  destruct (String.eqb urlVal ""); [reflexivity |].
  destruct (HasPrefix urlVal "http"); [reflexivity |].
  destruct (HasPrefix urlVal "?"); reflexivity.
Qed.

Lemma getURLString_unparseable_base_witness :
  let E := TestEnv.env [] 2024 in
  let baseURL := String (ascii_of_nat 10) "https://x.test/list" in
  url_Parse baseURL = None
  /\ urlValOf (withDefaultAttr (Sample.at_ "a")) [Sample.linkItem "/d1"] = Returns "/d1"
  /\ getURLString (Sample.at_ "a") [Sample.linkItem "/d1"] baseURL
     = Panics "runtime error: invalid memory address or nil pointer dereference".
Proof.
  intros E baseURL.
  assert (Hparse : url_Parse baseURL = None) by (vm_compute; reflexivity).
  assert (Hval : urlValOf (withDefaultAttr (Sample.at_ "a")) [Sample.linkItem "/d1"]
                 = Returns "/d1") by (vm_compute; reflexivity).
  split; [exact Hparse |]. split; [exact Hval |].
  exact (getURLString_unparseable_base (Sample.at_ "a") [Sample.linkItem "/d1"] baseURL "/d1"
           Hparse Hval).
Defined.

(** ** The layouts of getDate *)

Lemma extendLayouts_length `{Ext : External} (dateTimeLayouts : list string) (dp : datePart) :
  length (extendLayouts dateTimeLayouts dp)
  = (length dateTimeLayouts * length (layoutParts dp))%nat.
Proof.
  unfold extendLayouts. induction dateTimeLayouts as [| tlp rest IH]; [reflexivity |].
  cbn [flat_map length]. rewrite length_app, length_map, IH. lia.
Qed.

Lemma fold_extendLayouts_length `{Ext : External} (parts : list datePart) (acc : list string) :
  length (fold_left extendLayouts parts acc) = (length acc * layoutCount parts)%nat.
Proof.
  revert acc. induction parts as [| dp rest IH]; intros acc; cbn [fold_left layoutCount fold_right].
  - lia.
  - rewrite IH, extendLayouts_length. fold (layoutCount rest). lia.
Qed.

Lemma layoutCount_app (a b : list datePart) :
  layoutCount (a ++ b) = (layoutCount a * layoutCount b)%nat.
Proof.
  induction a as [| dp a IH]; cbn [app layoutCount fold_right].
  - fold (layoutCount b). lia.
  - fold (layoutCount (a ++ b)) (layoutCount a). rewrite IH. lia.
Qed.

Lemma layoutCount_addDefaults `{Ext : External} (parts : list datePart) (cp : CoveredDateParts) :
  layoutCount (addDefaults parts cp) = layoutCount parts.
Proof.
  rewrite addDefaults_eq, !layoutCount_app.
  destruct (Year cp), (Time cp); cbn; lia.
Qed.

Lemma buildLayouts_count_aux `{Ext : External} (parts : list datePart) (cp : CoveredDateParts) :
  length (buildLayouts parts) = layoutCount parts
  /\ length (buildLayouts (addDefaults parts cp)) = layoutCount parts.
Proof.
  unfold buildLayouts. rewrite !fold_extendLayouts_length, layoutCount_addDefaults.
  cbn [length]. lia.
Qed.

(** X16. The layouts getDate tries are as many as the product of the
    numbers of layouts of the fragments gathered from the components;
    the default year and the default time add none. *)
Theorem buildLayouts_count `{Ext : External} (parts : list datePart) (cp : CoveredDateParts) :
  length (buildLayouts parts) = layoutCount parts
  /\ length (buildLayouts (addDefaults parts cp)) = layoutCount parts.
Proof. apply buildLayouts_count_aux. Qed.

Lemma layoutCount_without_layouts (parts : list datePart) (dp : datePart) :
  In dp parts -> layoutParts dp = [] -> layoutCount parts = 0%nat.
Proof.
  intros Hin Hnone. apply in_split in Hin as (a & b & ->).
  rewrite layoutCount_app. cbn [layoutCount fold_right]. rewrite Hnone. cbn [length]. lia.
Qed.

Lemma collectDateParts_grows `{Ext : External} (components : list DateComponent) (s : Selection)
    (dateParts : list datePart) (cp : CoveredDateParts) (dateParts' : list datePart)
    (cp' : CoveredDateParts) :
  collectDateParts components s dateParts cp = Returns (inr (dateParts', cp')) ->
  exists new, dateParts' = dateParts ++ new.
Proof.
  revert dateParts cp. induction components as [| c rest IH]; intros dateParts cp Hrun.
  { injection Hrun as <- _. exists []. rewrite app_nil_r. reflexivity. }
  cbn [collectDateParts] in Hrun.
  destruct (negb (hasAllDateParts cp)); [| exact (IH _ _ Hrun)].
  destruct (checkForDoubleDateParts (Covers c) cp); [discriminate |].
  apply bind_inv in Hrun as ([sp err] & _ & Hrun).
  destruct err as [e |]; [discriminate |].
  destruct (negb (String.eqb sp "")); [| exact (IH _ _ Hrun)].
  apply IH in Hrun as (new & ->). rewrite <- app_assoc. eauto.
Qed.

(** X17. A component without layouts whose text is read and is not
    empty leaves getDate with no layout to try: whenever getDate then
    returns without an error, what it returns is the zero time. *)
Theorem getDate_component_without_layouts `{Ext : External} (f : Field) (s : Selection)
    (pre : list DateComponent) (c : DateComponent) (rest : list DateComponent) (sp : string)
    (t : time_Time) :
  Components f = pre ++ c :: rest ->
  (forall c', In c' pre ->
              exists t', getTextString (DateComponent_ElementLocation c') s = Returns (t', None)) ->
  hasAllDateParts (coveredBy pre s) = false ->
  getTextString (DateComponent_ElementLocation c) s = Returns (sp, None) ->
  sp <> EmptyString ->
  Layout c = [] ->
  getDate f s = Returns (t, None) ->
  t = zeroTime.
Proof.
  intros Hcomponents Hpre Hopen Htext Hsp Hlayout Hrun. unfold getDate in Hrun.
  unfold coveredBy in Hopen.
  destruct (LoadLocation (DateLocation f)) as [loc | e]; [| discriminate].
  apply bind_inv in Hrun as (collected & Hcollect & Hrun).
  fold noParts in Hcollect. rewrite Hcomponents in Hcollect.
  destruct (collectDateParts_prefix s pre (c :: rest) [] noParts Hpre Hopen)
    as [(err & _ & Heq) | (dateParts0 & Heq)]; rewrite Heq in Hcollect.
  { injection Hcollect as <-. discriminate. }
  destruct (checkForDoubleDateParts (Covers c) (coveredFrom s noParts pre)) as [err |] eqn:Hcheck.
  { cbn [collectDateParts] in Hcollect.
    rewrite Hopen, Hcheck in Hcollect. cbn [negb] in Hcollect.
    injection Hcollect as <-. discriminate. }
  rewrite (collectDateParts_fragment c rest s dateParts0 _ sp Hopen Hcheck Htext Hsp) in Hcollect.
  destruct collected as [err | [dateParts cp]]; [discriminate |].
  apply collectDateParts_grows in Hcollect as (new & ->).
  destruct (negb (Day cp) || negb (Month cp)); [discriminate |].
  assert (Hnone : buildLayouts
                    (addDefaults
                       ((dateParts0
                         ++ [{| stringPart := Replace1 sp "p.m." "pm";
                                layoutParts := map (fun l => Replace1 l "p.m." "pm") (Layout c) |}])
                        ++ new) cp) = []).
  { apply length_zero_iff_nil.
    rewrite (proj2 (buildLayouts_count_aux _ cp)).
    eapply layoutCount_without_layouts.
    - apply in_or_app. left. apply in_or_app. right. left. reflexivity.
    - cbn [layoutParts]. rewrite Hlayout. reflexivity. }
  rewrite Hnone in Hrun. cbn [tryLayouts] in Hrun. injection Hrun as <-. reflexivity.
Qed.

Lemma getDate_component_without_layouts_witness :
  let E := TestEnv.env [] 2024 in
  let c := Sample.component true true false false "span" [] in
  let f := Sample.dateField [c] in
  let s := [Sample.event "12.04." "18:30"] in
  getTextString (DateComponent_ElementLocation c) s = Returns ("12.04.", None)
  /\ Layout c = []
  /\ getDate f s = Returns (zeroTime, None).
Proof.
  intros E c f s.
  assert (Htext : getTextString (DateComponent_ElementLocation c) s = Returns ("12.04.", None))
    by (vm_compute; reflexivity).
  split; [exact Htext |]. split; [reflexivity |].
  destruct (getDate f s) as [[t [e |]] | msg | msg] eqn:Hrun;
    try (vm_compute in Hrun; discriminate).
  rewrite (getDate_component_without_layouts f s [] c [] "12.04." t eq_refl
             ltac:(intros c' Hin; destruct Hin) eq_refl Htext ltac:(discriminate) eq_refl Hrun).
  reflexivity.
Defined.

(** ** The parse loop *)

Lemma tryLayouts_all_fail `{Ext : External} (layouts : list string) (layout value : string)
    (loc : time_Location) (locale : string) (t0 : time_Time) (e0 : error) :
  Forall (fun l => snd (ParseInLocation l value loc locale) <> None) (layouts ++ [layout]) ->
  tryLayouts (layouts ++ [layout]) value loc locale t0 e0
  = ParseInLocation layout value loc locale.
Proof.
  revert t0 e0. induction layouts as [| l rest IH]; intros t0 e0 Hfail.
  - cbn [app tryLayouts]. apply Forall_cons in Hfail as [Hl _].
    destruct (ParseInLocation layout value loc locale) as [t [e |]]; [reflexivity |].
    contradiction Hl. reflexivity.
  - cbn [app tryLayouts]. cbn [app] in Hfail. apply Forall_cons in Hfail as [Hl Hrest].
    destruct (ParseInLocation l value loc locale) as [t [e |]]; [apply IH; exact Hrest |].
    contradiction Hl. reflexivity.
Qed.

(** X18. The parse loop of getDate returns the time of the first
    layout the date string parses with, the layouts before it having
    failed; when every layout fails, it returns what the last one
    gave, its error included. *)
Theorem tryLayouts_first_fit `{Ext : External} (pre : list string) (layout : string)
    (rest : list string) (value : string) (loc : time_Location) (locale : string)
    (t0 : time_Time) (e0 : error) :
  Forall (fun l => snd (ParseInLocation l value loc locale) <> None) pre ->
  (forall t, ParseInLocation layout value loc locale = (t, None) ->
             tryLayouts (pre ++ layout :: rest) value loc locale t0 e0 = (t, None))
  /\ (forall t e, ParseInLocation layout value loc locale = (t, Some e) ->
                  tryLayouts (pre ++ [layout]) value loc locale t0 e0 = (t, Some e)).
Proof.
  intros Hpre. split.
  - intros t Hlayout. revert t0 e0. induction Hpre as [| l pre Hl _ IH]; intros t0 e0.
    + cbn [app tryLayouts]. rewrite Hlayout. reflexivity.
    + cbn [app tryLayouts].
      destruct (ParseInLocation l value loc locale) as [t' [e |]]; [apply IH |].
      contradiction Hl. reflexivity.
  - intros t e Hlayout. rewrite tryLayouts_all_fail, Hlayout; [reflexivity |].
    apply Forall_app. split; [exact Hpre |].
    apply Forall_cons_2; [rewrite Hlayout; discriminate | apply Forall_nil_2].
Qed.

Lemma tryLayouts_first_fit_witness :
  let E := TestEnv.env [] 2024 in
  let value := "12.04.2024 18:30" in
  snd (ParseInLocation "02.01.2006" value {| loc_name := "Europe/Berlin" |} "de_DE") <> None
  /\ tryLayouts ["02.01.2006"; "02.01.2006 15:04"; "02.01.2006 15"] value
       {| loc_name := "Europe/Berlin" |} "de_DE" zeroTime None
     = (Sample.berlin 2024 4 12 18 30, None).
Proof.
  intros E value.
  assert (Hfail : snd (ParseInLocation "02.01.2006" value {| loc_name := "Europe/Berlin" |} "de_DE")
                  <> None) by (vm_compute; discriminate).
  split; [exact Hfail |].
  apply (tryLayouts_first_fit ["02.01.2006"] "02.01.2006 15:04" ["02.01.2006 15"] value
           {| loc_name := "Europe/Berlin" |} "de_DE" zeroTime None).
  - apply Forall_cons_2; [exact Hfail | apply Forall_nil_2].
  - vm_compute. reflexivity.
Defined.

(** ** Covered date parts *)

Lemma checkForDoubleDateParts_None `{Ext : External} (a b : CoveredDateParts) :
  checkForDoubleDateParts a b = None
  <-> Day a && Day b = false /\ Month a && Month b = false
      /\ Year a && Year b = false /\ Time a && Time b = false.
Proof.
  unfold checkForDoubleDateParts.
  destruct (Day a && Day b), (Month a && Month b), (Year a && Year b), (Time a && Time b);
    split; try discriminate; try (intros (? & ? & ? & ?); discriminate); auto.
Qed.

Lemma andb_orb_false (x y z : bool) :
  x && (y || z) = false <-> x && y = false /\ x && z = false.
Proof. destruct x, y, z; cbn; split; try discriminate; try (intros [? ?]; discriminate); auto. Qed.

(** X19. A component collides with the parts merged from two sets of
    covered parts exactly when it collides with one of the two, and
    the check does not depend on the order of its arguments. *)
Theorem checkForDoubleDateParts_merge `{Ext : External} (c a b : CoveredDateParts) :
  (checkForDoubleDateParts c (mergeDateParts a b) = None
   <-> checkForDoubleDateParts c a = None /\ checkForDoubleDateParts c b = None)
  /\ (checkForDoubleDateParts a b = None <-> checkForDoubleDateParts b a = None).
Proof.
  rewrite !checkForDoubleDateParts_None. cbn [mergeDateParts Day Month Year Time].
  rewrite !andb_orb_false.
  rewrite (andb_comm (Day b)), (andb_comm (Month b)), (andb_comm (Year b)), (andb_comm (Time b)).
  tauto.
Qed.

(** ** The batches of the API sink *)

Section Batches.
Context `{Net : Network}.
Variable wc : WriterConfig.
Hypothesis Hcoop : cooperative.

Lemma batchesOf_delete (isNew : bool) (src : string) (t : time_Time) :
  batchesOf (if isNew then [DeleteCall src t] else []) = [].
Proof. destruct isNew; reflexivity. Qed.

Lemma writeLoop_batches (items : list ItemMap) (st : SinkState) :
  Forall wellFormed items ->
  len (batch st) < 100 ->
  exists st' full,
    writeLoop wc items st = Returns st'
    /\ len (batch st') < 100
    /\ batchesOf (trace st') = batchesOf (trace st) ++ full
    /\ Forall (fun b => len b = 100) full
    /\ concat full ++ batch st' = batch st ++ items.
Proof.
  intros Hitems. revert st. induction Hitems as [| item rest Hitem _ IH]; intros st Hlen.
  { exists st, []. rewrite !app_nil_r. cbn [writeLoop concat app].
    split; [reflexivity |]. split; [exact Hlen |]. split; [reflexivity |].
    split; [apply Forall_nil_2 | reflexivity]. }
  destruct Hitem as [[src Hsrc] [t Ht]].
  cbn [writeLoop].
  rewrite (writeItem_ok wc (cooperative_serves wc Hcoop) item st src t Hsrc (fun _ => Ht)),
    bind_Returns.
  set (isNew := match deletedSources st !! src with Some _ => false | None => true end).
  destruct (Z.eqb_spec (len (batch st ++ [item])) 100) as [Hfull | Hroom].
  - destruct (IH {| deletedSources := if isNew then <[src := true]> (deletedSources st)
                                      else deletedSources st;
                    nrItems := wrap (nrItems st + 1);
                    batch := [];
                    trace := (trace st ++ (if isNew then [DeleteCall src t] else []))
                             ++ [PostCall (batch st ++ [item])] |})
      as (st' & full & Hrun & Hlen' & Htrace & Hfull' & Hconcat); [reflexivity |].
    cbn [batch trace] in Hrun, Htrace, Hconcat.
    exists st', ((batch st ++ [item]) :: full).
    split; [exact Hrun |]. split; [exact Hlen' |]. split.
    + rewrite Htrace, !batchesOf_app, batchesOf_delete, app_nil_r, <- app_assoc. reflexivity.
    + split; [apply Forall_cons_2; assumption |].
      cbn [concat]. rewrite <- !app_assoc. cbn [app] in Hconcat. rewrite Hconcat. reflexivity.
  - destruct (IH {| deletedSources := if isNew then <[src := true]> (deletedSources st)
                                      else deletedSources st;
                    nrItems := wrap (nrItems st + 1);
                    batch := batch st ++ [item];
                    trace := (trace st ++ (if isNew then [DeleteCall src t] else [])) ++ [] |})
      as (st' & full & Hrun & Hlen' & Htrace & Hfull' & Hconcat).
    { cbn [batch]. rewrite len_app in *. change (len [item]) with 1 in *. lia. }
    cbn [batch trace] in Hrun, Htrace, Hconcat.
    exists st', full.
    split; [exact Hrun |]. split; [exact Hlen' |]. split.
    + rewrite Htrace, !batchesOf_app, batchesOf_delete, !app_nil_r. reflexivity.
    + split; [exact Hfull' |]. rewrite Hconcat, <- app_assoc. reflexivity.
Qed.

Lemma len_concat_full (full : list (list ItemMap)) :
  Forall (fun b => len b = 100) full -> len (concat full) = 100 * len full.
Proof.
  induction 1 as [| b full Hb _ IH]; [reflexivity |].
  cbn [concat]. rewrite len_app, len_cons, IH, Hb. lia.
Qed.

End Batches.

(** X20. For an API that takes every request and records that carry a
    source and a date, the POSTs of the sink cut the records, in the
    order of the input, into batches of exactly 100 followed by one
    last batch with the records left over: with n records there are n
    / 100 full batches, and the last POST carries n mod 100 records.
    It is always sent, also when no record is left for it. *)
Theorem Write_posts_full_batches_and_rest `{Net : Network} (wc : WriterConfig)
    (items : list ItemMap) :
  cooperative ->
  Forall wellFormed items ->
  exists calls full last,
    Write wc items = Returns calls
    /\ batchesOf calls = full ++ [last]
    /\ concat full ++ last = items
    /\ Forall (fun b => len b = 100) full
    /\ len full = len items / 100
    /\ len last = len items mod 100.
Proof.
  intros Hcoop Hitems.
  destruct (writeLoop_batches wc Hcoop items initialSink Hitems)
    as (st & full & Hrun & Hlen & Htrace & Hfull & Hconcat); [reflexivity |].
  cbn [initialSink batch trace app] in Htrace, Hconcat.
  change (batchesOf []) with (@nil (list ItemMap)) in Htrace. cbn [app] in Htrace.
  exists (trace st ++ [PostCall (batch st)]), full, (batch st).
  split.
  { unfold Write. fold initialSink. rewrite Hrun, bind_Returns.
    apply (postBatch_ok wc (cooperative_serves wc Hcoop)). }
  split; [rewrite batchesOf_app, Htrace; reflexivity |].
  split; [exact Hconcat |]. split; [exact Hfull |].
  assert (Hcount : len items = 100 * len full + len (batch st)).
  { rewrite <- Hconcat, len_app, (len_concat_full full Hfull). reflexivity. }
  pose proof (len_nonneg (batch st)). pose proof (len_nonneg full).
  split.
  - apply (Z.div_unique _ _ _ (len (batch st))); [lia | exact Hcount].
  - apply (Z.mod_unique _ _ (len full)); [lia | exact Hcount].
Qed.

Lemma Write_posts_full_batches_and_rest_witness :
  let N := TestEnv.network [] in
  let items := replicate 250 (Sample.record "https://a.test" "Jazz night" (Sample.utc 2024 4 12 18 30)) in
  cooperative
  /\ Forall wellFormed items
  /\ exists calls full last,
       Write Sample.writer items = Returns calls
       /\ batchesOf calls = full ++ [last]
       /\ concat full ++ last = items
       /\ Forall (fun b => len b = 100) full
       /\ len full = 2
       /\ len last = 50.
Proof.
  intros N items.
  assert (Hwf : Forall wellFormed items).
  { apply Forall_replicate. split; apply is_Some_alt; vm_compute; exact I. }
  split; [exact network_cooperative |]. split; [exact Hwf |].
  exact (Write_posts_full_batches_and_rest Sample.writer items network_cooperative Hwf).
Defined.

(** ** Records the sink cannot take *)

Section Malformed.
Context `{Net : Network}.
Variable wc : WriterConfig.

Lemma Write_panics_item (pre : list ItemMap) (item : ItemMap) (rest : list ItemMap)
    (st : SinkState) (msg : string) :
  writeLoop wc pre initialSink = Returns st ->
  writeItem wc item st = Panics msg ->
  Write wc (pre ++ item :: rest) = Panics msg.
Proof.
  intros Hpre Hitem. unfold Write. fold initialSink.
  rewrite writeLoop_app, Hpre, bind_Returns. cbn [writeLoop]. rewrite Hitem. reflexivity.
Qed.

Lemma writeItem_without_source (item : ItemMap) (st : SinkState) :
  sourceOf item = None -> exists msg, writeItem wc item st = Panics msg.
Proof.
  intros Hsrc. unfold writeItem. unfold sourceOf in Hsrc.
  destruct (item !! "sourceUrl") as [[s | t] |]; [discriminate | |]; eexists; reflexivity.
Qed.

Lemma writeItem_without_date (item : ItemMap) (st : SinkState) (src : string) :
  sourceOf item = Some src ->
  dateOf item = None ->
  deletedSources st !! src = None ->
  exists msg, writeItem wc item st = Exits msg.
Proof.
  intros Hsrc Hdate Hnew. unfold writeItem.
  rewrite (sourceOf_Some _ _ Hsrc), bind_Returns, Hnew. unfold deleteSource.
  unfold dateOf in Hdate.
  destruct (item !! "date") as [[s | t] |]; [| discriminate |]; eexists; reflexivity.
Qed.

Lemma writeItem_known_source (item : ItemMap) (st : SinkState) (src : string) :
  sourceOf item = Some src ->
  is_Some (deletedSources st !! src) ->
  len (batch st ++ [item]) <> 100 ->
  writeItem wc item st
  = Returns {| deletedSources := deletedSources st; nrItems := wrap (nrItems st + 1);
               batch := batch st ++ [item]; trace := trace st |}.
Proof.
  intros Hsrc [b Hknown] Hroom. unfold writeItem.
  rewrite (sourceOf_Some _ _ Hsrc), bind_Returns, Hknown, bind_Returns.
  destruct (Z.eqb_spec (len (batch st ++ [item])) 100) as [Hfull | _]; [contradiction |].
  reflexivity.
Qed.

End Malformed.

(** X21. The sink takes its records on trust.  A record without a
    string under sourceUrl makes it panic, whatever the API does.  A
    record without a timestamp under date ends it through log.Fatal
    when the record is the first of its source; when the source was
    met before, the date is not looked at and the record joins the
    batch, without a request being made as long as it does not fill
    the batch. *)
Theorem Write_malformed_record `{Net : Network} (wc : WriterConfig) (pre : list ItemMap)
    (item : ItemMap) (rest : list ItemMap) (st : SinkState) :
  writeLoop wc pre initialSink = Returns st ->
  (sourceOf item = None -> exists msg, Write wc (pre ++ item :: rest) = Panics msg)
  /\ (forall src, sourceOf item = Some src ->
                  dateOf item = None ->
                  deletedSources st !! src = None ->
                  exists msg, Write wc (pre ++ item :: rest) = Exits msg)
  /\ (forall src, sourceOf item = Some src ->
                  is_Some (deletedSources st !! src) ->
                  len (batch st ++ [item]) <> 100 ->
                  writeItem wc item st
                  = Returns {| deletedSources := deletedSources st;
                               nrItems := wrap (nrItems st + 1);
                               batch := batch st ++ [item]; trace := trace st |}).
Proof.
  intros Hpre. split; [| split].
  - intros Hsrc. destruct (writeItem_without_source wc item st Hsrc) as (msg & Hitem).
    exists msg. exact (Write_panics_item wc pre item rest st msg Hpre Hitem).
  - intros src Hsrc Hdate Hnew.
    destruct (writeItem_without_date wc item st src Hsrc Hdate Hnew) as (msg & Hitem).
    exists msg. exact (Write_fatal_item wc pre item rest st msg Hpre Hitem).
  - intros src. apply writeItem_known_source.
Qed.

Lemma Write_malformed_record_witness :
  let N := TestEnv.network [] in
  let first := Sample.record "https://a.test" "Jazz night" (Sample.utc 2024 4 12 18 30) in
  let undated := <["sourceUrl" := AString "https://a.test"]> (Sample.titled "Folk evening") in
  (exists st, writeLoop Sample.writer [first] initialSink = Returns st
              /\ is_Some (deletedSources st !! "https://a.test"))
  /\ (exists msg, Write Sample.writer ([first] ++ [Sample.titled "Blues brunch"]) = Panics msg)
  /\ (exists msg, Write Sample.writer ([] ++ [undated]) = Exits msg)
  /\ Write Sample.writer [first; undated]
     = Returns [DeleteCall "https://a.test" (Sample.utc 2024 4 12 18 30);
                PostCall [first; undated]].
Proof.
  intros N first undated.
  destruct (writeLoop Sample.writer [first] initialSink) as [st | msg | msg] eqn:Hpre;
    try (vm_compute in Hpre; discriminate).
  assert (Hknown : is_Some (deletedSources st !! "https://a.test")).
  { assert (Hst : Returns st = writeLoop Sample.writer [first] initialSink) by (symmetry; exact Hpre).
    vm_compute in Hst. injection Hst as ->. apply is_Some_alt. vm_compute. exact I. }
  split; [exists st; split; [reflexivity | exact Hknown] |].
  split.
  { apply (proj1 (Write_malformed_record Sample.writer [first] (Sample.titled "Blues brunch") []
                    st Hpre)).
    vm_compute. reflexivity. }
  split.
  { apply (proj1 (proj2 (Write_malformed_record Sample.writer [] undated [] initialSink eq_refl))
             "https://a.test"); vm_compute; reflexivity. }
  vm_compute. reflexivity.
Defined.

(** ** Trimmed text *)

Lemma scanChildren_trimmed `{Ext : External} (t : ElementLocation) (children : list Node)
    (i : Z) (fieldString r : string) :
  MaxLength t <= 0 ->
  scanChildren t children i fieldString = Returns (inl (r, None)) ->
  TrimSpace r = r.
Proof.
  intros Hmax. revert i fieldString.
  induction children as [| n rest IH]; intros i fieldString Hrun; [discriminate |].
  cbn [scanChildren] in Hrun.
  destruct (((i =? ChildIndex t) || (ChildIndex t =? -1)) && isTextNode n);
    [| exact (IH _ _ Hrun)].
  apply bind_inv in Hrun as ([r' err] & _ & Hrun).
  destruct err as [e |].
  - destruct (negb (ChildIndex t =? -1)); [discriminate | exact (IH _ _ Hrun)].
  - rewrite (gtb_false _ _ Hmax) in Hrun. injection Hrun as <-. apply TrimSpace_idempotent.
Qed.

(** X22. With no maximal length set, a text that getTextString
    returns without a pattern, or from a direct child of the selected
    node, has no white space at its ends. *)
Theorem getTextString_trimmed `{Ext : External} (t : ElementLocation) (s : Selection) (r : string) :
  MaxLength t <= 0 ->
  Exp (RegexExtract t) = EmptyString ->
  getTextString t s = Returns (r, None) ->
  TrimSpace r = r.
Proof.
  intros Hmax Hexp Hrun. unfold getTextString in Hrun.
  apply bind_inv in Hrun as (raw & Hraw & Hrun).
  destruct raw as [[r' err] | fieldString].
  - injection Hrun as -> ->.
    destruct (len (Find s (Selector t)) >? NodeIndex t); [| discriminate].
    destruct (String.eqb (Attr t) ""); [| discriminate].
    destruct (EntireSubtree t).
    + apply bind_inv in Hraw as (n & _ & Hraw). discriminate.
    + apply bind_inv in Hraw as (n & _ & Hraw). exact (scanChildren_trimmed _ _ _ _ _ Hmax Hraw).
  - rewrite (extractStringRegex_no_pattern _ _ Hexp), bind_Returns, (gtb_false _ _ Hmax) in Hrun.
    injection Hrun as <-. apply TrimSpace_idempotent.
Qed.

Lemma getTextString_trimmed_witness :
  let E := TestEnv.env [] 2024 in
  let t := Sample.at_ "span" in
  let s := [Sample.concert "  Jazz night "] in
  MaxLength t <= 0
  /\ getTextString t s = Returns ("Jazz night", None)
  /\ TrimSpace "Jazz night" = "Jazz night".
Proof.
  intros E t s.
  assert (Hmax : MaxLength t <= 0) by (vm_compute; discriminate).
  assert (Hrun : getTextString t s = Returns ("Jazz night", None)) by (vm_compute; reflexivity).
  split; [exact Hmax |]. split; [exact Hrun |].
  exact (getTextString_trimmed t s "Jazz night" Hmax eq_refl Hrun).
Defined.

(** ** Node indices from the end *)

(** X23. In getURLString a negative node index within the number of
    nodes the selector matches counts from the end, -1 being the last
    node: the URL is resolved from the first attribute of that node
    with the wanted key. *)
Theorem getURLString_node_index_from_end `{Ext : External} (e : ElementLocation) (s : Selection)
    (baseURL : string) (u : url_URL) (node : Node) :
  Selector e <> EmptyString ->
  url_Parse baseURL = Some u ->
  NodeIndex e < 0 <= NodeIndex e + len (Find s (Selector e)) ->
  Find s (Selector e) !! Z.to_nat (NodeIndex e + len (Find s (Selector e))) = Some node ->
  getURLString e s baseURL
  = Returns (withDefaultAttr e,
             resolved u (firstAttrVal (Node_Attr node) (Attr (withDefaultAttr e)))).
Proof.
  intros Hsel Hparse Hidx Hnode. apply getURLString_spec; [exact Hparse |].
  unfold urlValOf.
  assert (Hsame : Selector (withDefaultAttr e) = Selector e
                  /\ NodeIndex (withDefaultAttr e) = NodeIndex e).
  { unfold withDefaultAttr. destruct (String.eqb (Attr e) ""); split; reflexivity. }
  destruct Hsame as [-> ->]. rewrite (eqb_empty_false _ Hsel).
  pose proof (len_nonneg (Find s (Selector e))) as Hlen.
  rewrite (gtb_true (len (Find s (Selector e))) (NodeIndex e)) by lia.
  unfold Selection_Get.
  replace (NodeIndex e <? 0) with true by (symmetry; apply Z.ltb_lt; lia).
  destruct (index_slice_in_range (Find s (Selector e)) (NodeIndex e + len (Find s (Selector e))))
    as (a & Ha & ->); [lia |].
  assert (Heq : Some a = Some node) by (etransitivity; [symmetry; exact Ha | exact Hnode]).
  injection Heq as ->. reflexivity.
Qed.

Lemma getURLString_node_index_from_end_witness :
  let E := TestEnv.env [] 2024 in
  let e := set_NodeIndex (-1) (Sample.at_ "a") in
  let last := TestEnv.element "a" (Sample.href "/two") [] in
  let s := [TestEnv.document [TestEnv.element "a" (Sample.href "/one") []; last]] in
  NodeIndex e < 0 <= NodeIndex e + len (Find s (Selector e))
  /\ Find s (Selector e) !! Z.to_nat (NodeIndex e + len (Find s (Selector e))) = Some last
  /\ getURLString e s Sample.baseURL = Returns (withDefaultAttr e, "https://x.test/two").
Proof.
  intros E e last s.
  assert (Hidx : NodeIndex e < 0 <= NodeIndex e + len (Find s (Selector e)))
    by (vm_compute; split; [reflexivity | discriminate]).
  assert (Hnode : Find s (Selector e) !! Z.to_nat (NodeIndex e + len (Find s (Selector e)))
                  = Some last) by (vm_compute; reflexivity).
  split; [exact Hidx |]. split; [exact Hnode |].
  exact (getURLString_node_index_from_end e s Sample.baseURL Sample.base last
           ltac:(discriminate) ltac:(vm_compute; reflexivity) Hidx Hnode).
Defined.

(** ** The cache of subpages *)

(** X24. The cache of subpages lives for one item only.  An item that
    gets through the fields of the main page fetches the subpage of
    its first field to be read from one, also when an item before it
    fetched the same URL. *)
Theorem subpage_cache_is_per_item `{Ext : External} (c : Scraper) (globalConfig : GlobalConfig)
    (s : Selection) (pageURL : string) (items items' : list ItemMap) (w w' : World)
    (currentItem : ItemMap) (pre : list Field) (f : Field) (rest : list Field) :
  excluded c s = false ->
  mainFields (Fields c) ∅ s pageURL = Returns (Some currentItem) ->
  Fields c = pre ++ f :: rest ->
  forallb (fun f' => negb (onSubpage f')) pre = true ->
  onSubpage f = true ->
  processItem c globalConfig s pageURL items w = Returns (items', w') ->
  exists more, w' = w ++ FetchSubpage (Sprint (currentItem !! OnSubpage f)) :: more.
Proof.
  intros Hex Hmain Hfields Hpre Hsub Hrun. unfold processItem in Hrun.
  rewrite Hex, Hmain, bind_Returns, Hfields in Hrun.
  rewrite (subpageFields_prefix globalConfig c pre (f :: rest)) in Hrun by exact Hpre.
  apply bind_inv in Hrun as ([sub w1] & Hfetch & Hrun).
  assert (Hworld : exists more,
             w1 = w ++ FetchSubpage (Sprint (currentItem !! OnSubpage f)) :: more).
  { cbn [subpageFields] in Hfetch. unfold onSubpage in Hsub. rewrite Hsub in Hfetch.
    set (url := Sprint (currentItem !! OnSubpage f)) in *.
    rewrite lookup_empty in Hfetch. unfold doFetch in Hfetch.
    assert (Hone : exists more, w ++ [FetchSubpage url] = w ++ FetchSubpage url :: more)
      by (exists []; reflexivity).
    destruct (Fetch (RenderJs c) (UserAgent globalConfig) (map call_url w) url) as [subRes [e |]];
      [injection Hfetch as _ <-; exact Hone |].
    destruct (NewDocumentFromReader subRes) as [subDoc [e |]];
      [injection Hfetch as _ <-; exact Hone |].
    apply bind_inv in Hfetch as ([[f' item'] err] & _ & Hfetch).
    destruct err as [e |]; [injection Hfetch as _ <-; exact Hone |].
    apply subpageFields_fetches in Hfetch as (urls & -> & _).
    exists (map FetchSubpage urls). rewrite <- app_assoc. reflexivity. }
  destruct sub as [raw |]; [| injection Hrun as _ <-; exact Hworld].
  destruct (filterItem c raw) as [keep [e |]]; [discriminate |].
  destruct keep; injection Hrun as _ <-; exact Hworld.
Qed.

Lemma subpage_cache_is_per_item_witness :
  let E := TestEnv.env Fixtures.site 2024 in
  let s := [Sample.linkItem "/d1"] in
  let w := [FetchPage "https://x.test/list"; FetchSubpage "https://x.test/d1"] in
  let item := Fixtures.details "Moods" "20 CHF" in
  processItem Fixtures.scraper Sample.config s "https://x.test/list" [item] w
  = Returns ([item; item], w ++ [FetchSubpage "https://x.test/d1"])
  /\ exists more, w ++ [FetchSubpage "https://x.test/d1"]
                  = w ++ FetchSubpage "https://x.test/d1" :: more.
Proof.
  intros E s w item.
  assert (Hrun : processItem Fixtures.scraper Sample.config s "https://x.test/list" [item] w
                 = Returns ([item; item], w ++ [FetchSubpage "https://x.test/d1"]))
    by (vm_compute; reflexivity).
  split; [exact Hrun |].
  exact (subpage_cache_is_per_item Fixtures.scraper Sample.config s "https://x.test/list"
           [item] [item; item] w (w ++ [FetchSubpage "https://x.test/d1"])
           (<["url" := AString "https://x.test/d1"]> ∅)
           [Fixtures.hidden (Sample.field "url" "url" (Sample.at_ "a"))]
           (Fixtures.onPage "url" (Sample.field "venue" "text" (Sample.at_ "h2")))
           [Fixtures.onPage "url" (Sample.field "price" "text" (Sample.at_ "b"))]
           ltac:(vm_compute; reflexivity) ltac:(vm_compute; reflexivity) eq_refl eq_refl eq_refl
           Hrun).
Defined.

(** ** When extractStringRegex panics *)

(** X25. extractStringRegex never ends the program through log.Fatal,
    and it panics in one case only: a pattern is set and compiles, it
    has a match in the input, and the index is below -1.  In every
    other case it returns. *)
Theorem extractStringRegex_panics_iff `{Ext : External} (rc : RegexConfig) (s : string) :
  (forall regex, regexp_Compile (Exp rc) = inl regex ->
                 len (FindAllString regex s (-1)) <= maxInt) ->
  ((exists msg, extractStringRegex rc s = Panics msg)
   <-> Exp rc <> EmptyString
       /\ Index rc < -1
       /\ exists regex, regexp_Compile (Exp rc) = inl regex /\ FindAllString regex s (-1) <> [])
  /\ forall msg, extractStringRegex rc s <> Exits msg.
Proof.
  intros Hbound. unfold extractStringRegex.
  destruct (String.eqb_spec (Exp rc) "") as [Hexp | Hexp].
  { split; [split |]; [intros [msg Hrun]; discriminate | intros [Hne _]; contradiction
                      | discriminate]. }
  destruct (regexp_Compile (Exp rc)) as [regex | e] eqn:Hcompile.
  2: { split; [split |]; [intros [msg Hrun]; discriminate
                         | intros (_ & _ & regex & Hregex & _); discriminate
                         | discriminate]. }
  specialize (Hbound regex eq_refl). pose proof (len_nonneg (FindAllString regex s (-1))) as Hlen.
  destruct (Z.eqb_spec (len (FindAllString regex s (-1))) 0) as [Hnone | Hsome].
  { split; [split |]; [intros [msg Hrun]; discriminate | | discriminate].
    intros (_ & _ & regex' & [= <-] & Hmatch).
    destruct (FindAllString regex s (-1)); [contradiction | discriminate]. }
  assert (Hmatch : FindAllString regex s (-1) <> []).
  { intros Hnil. rewrite Hnil in Hsome. contradiction. }
  destruct (Z.eqb_spec (Index rc) (-1)) as [Hlast | Hnotlast].
  { rewrite wrap_small by (unfold maxInt in Hbound; lia).
    destruct (index_slice_in_range (FindAllString regex s (-1))
                (len (FindAllString regex s (-1)) - 1)) as (m & _ & ->); [lia |].
    split; [split |]; [intros [msg Hrun]; discriminate | intros (_ & Hidx & _); lia
                      | discriminate]. }
  destruct (Z.geb_spec (Index rc) (len (FindAllString regex s (-1)))) as [Hout | Hin].
  { split; [split |]; [intros [msg Hrun]; discriminate | intros (_ & Hidx & _); lia
                      | discriminate]. }
  destruct (Z_lt_le_dec (Index rc) 0) as [Hneg | Hpos].
  - rewrite index_slice_negative by exact Hneg.
    split; [split |]; [| intros _; eexists; reflexivity | discriminate].
    intros _. split; [exact Hexp |]. split; [lia |]. exists regex. split; [reflexivity | exact Hmatch].
  - destruct (index_slice_in_range (FindAllString regex s (-1)) (Index rc)) as (m & _ & ->);
      [lia |].
    split; [split |]; [intros [msg Hrun]; discriminate | intros (_ & Hidx & _); lia
                      | discriminate].
Qed.

Lemma extractStringRegex_panics_iff_witness :
  let E := TestEnv.env [] 2024 in
  let rc := {| Exp := "a[0-9]"; Index := -3 |} in
  (forall regex, regexp_Compile (Exp rc) = inl regex ->
                 len (FindAllString regex "a1 a2 a3" (-1)) <= maxInt)
  /\ exists msg, extractStringRegex rc "a1 a2 a3" = Panics msg.
Proof.
  intros E rc.
  assert (Hbound : forall regex, regexp_Compile (Exp rc) = inl regex ->
                                 len (FindAllString regex "a1 a2 a3" (-1)) <= maxInt).
  { intros regex Hcompile. vm_compute in Hcompile. injection Hcompile as <-.
    vm_compute. discriminate. }
  split; [exact Hbound |].
  apply (proj2 (proj1 (extractStringRegex_panics_iff rc "a1 a2 a3" Hbound))).
  split; [discriminate |]. split; [reflexivity |].
  exists [TestEnv.Lit "a"; TestEnv.Class false [("0", "9")]%char].
  split; vm_compute; [reflexivity | discriminate].
Defined.

(** ** Trimmed URLs *)

(** X26. The URL that getURLString returns has no white space at its
    ends. *)
Theorem getURLString_trimmed `{Ext : External} (e : ElementLocation) (s : Selection)
    (baseURL : string) (e' : ElementLocation) (url : string) :
  getURLString e s baseURL = Returns (e', url) -> TrimSpace url = url.
Proof.
  intros Hrun. unfold getURLString in Hrun.
  apply bind_inv in Hrun as (urlVal & _ & Hrun).
  apply bind_inv in Hrun as (urlRes & Hres & [= _ <-]).
  unfold resolveURL in Hres.
  destruct (String.eqb urlVal ""); [injection Hres as <-; reflexivity |].
  destruct (HasPrefix urlVal "http"); [injection Hres as <-; apply TrimSpace_idempotent |].
  destruct (HasPrefix urlVal "?").
  - apply bind_inv in Hres as (u & _ & [= <-]). apply TrimSpace_idempotent.
  - apply bind_inv in Hres as (u & _ & [= <-]). apply TrimSpace_idempotent.
Qed.

Lemma getURLString_trimmed_witness :
  let E := TestEnv.env [] 2024 in
  let s := [Sample.linkItem " /d1 "] in
  getURLString (Sample.at_ "a") s Sample.baseURL
  = Returns (withDefaultAttr (Sample.at_ "a"), "https://x.test/ /d1")
  /\ TrimSpace "https://x.test/ /d1" = "https://x.test/ /d1".
Proof.
  intros E s.
  assert (Hrun : getURLString (Sample.at_ "a") s Sample.baseURL
                 = Returns (withDefaultAttr (Sample.at_ "a"), "https://x.test/ /d1"))
    by (vm_compute; reflexivity).
  split; [exact Hrun |].
  exact (getURLString_trimmed _ _ _ _ _ Hrun).
Defined.

(** ** Components that are not read *)

Lemma collectDateParts_covered `{Ext : External} (components : list DateComponent) (s : Selection)
    (dateParts : list datePart) (cp : CoveredDateParts) :
  hasAllDateParts cp = true ->
  collectDateParts components s dateParts cp = Returns (inr (dateParts, cp)).
Proof.
  intros Hall. induction components as [| c rest IH]; [reflexivity |].
  cbn [collectDateParts]. rewrite Hall. exact IH.
Qed.

Lemma collectDateParts_app `{Ext : External} (pre rest : list DateComponent) (s : Selection)
    (dateParts : list datePart) (cp : CoveredDateParts) :
  collectDateParts (pre ++ rest) s dateParts cp
  = (r ← collectDateParts pre s dateParts cp;
     match r with
     | inl err => Returns (inl err)
     | inr (dateParts', cp') => collectDateParts rest s dateParts' cp'
     end).
Proof.
  revert dateParts cp. induction pre as [| c pre IH]; intros dateParts cp; [reflexivity |].
  cbn [app collectDateParts].
  destruct (negb (hasAllDateParts cp)); [| apply IH].
  destruct (checkForDoubleDateParts (Covers c) cp); [reflexivity |].
  destruct (getTextString (DateComponent_ElementLocation c) s) as [[sp [e |]] | msg | msg];
    try reflexivity.
  cbn [mbind outcome_bind]. destruct (negb (String.eqb sp "")); apply IH.
Qed.

(** X27. Once the components read so far cover day, month, year and
    time, the components after them count for nothing: they are not
    read and not checked, and getDate returns what it returns
    without them. *)
Theorem getDate_ignores_components_after_full_cover `{Ext : External} (f : Field) (s : Selection)
    (pre rest : list DateComponent) (dateParts : list datePart) (cp : CoveredDateParts) :
  collectDateParts pre s [] noParts = Returns (inr (dateParts, cp)) ->
  hasAllDateParts cp = true ->
  getDate (set_Components (pre ++ rest) f) s = getDate (set_Components pre f) s.
Proof.
  intros Hpre Hall. unfold getDate. cbn [set_Components DateLocation DateLanguage Components].
  fold noParts. rewrite collectDateParts_app, Hpre, bind_Returns.
  rewrite (collectDateParts_covered rest s dateParts cp Hall). reflexivity.
Qed.

Lemma getDate_ignores_components_after_full_cover_witness :
  let E := TestEnv.env [] 2024 in
  let s := [Sample.event "12.04.2024 18:30" "12"] in
  let pre := [Sample.component true true true true "span" ["02.01.2006 15:04"]] in
  let rest := [Sample.component true false false false "em" ["02"]] in
  let cp := {| Day := true; Month := true; Year := true; Time := true |} in
  collectDateParts pre s [] noParts
  = Returns (inr ([{| stringPart := "12.04.2024 18:30"; layoutParts := ["02.01.2006 15:04"] |}], cp))
  /\ hasAllDateParts cp = true
  /\ getDate (set_Components (pre ++ rest) (Sample.dateField [])) s
     = getDate (set_Components pre (Sample.dateField [])) s
  /\ getDate (set_Components pre (Sample.dateField [])) s
     = Returns (Sample.berlin 2024 4 12 18 30, None).
Proof.
  intros E s pre rest cp.
  assert (Hpre : collectDateParts pre s [] noParts
                 = Returns (inr ([{| stringPart := "12.04.2024 18:30";
                                     layoutParts := ["02.01.2006 15:04"] |}], cp)))
    by (vm_compute; reflexivity).
  split; [exact Hpre |]. split; [reflexivity |].
  split; [| vm_compute; reflexivity].
  exact (getDate_ignores_components_after_full_cover (Sample.dateField []) s pre rest _ cp
           Hpre eq_refl).
Defined.
